(** * CaptioningRNN (cs231n/classifiers/rnn.py): a shallow embedding

    The model follows the Python source statement by statement.  numpy
    arrays are a shape together with a row-major buffer, Python
    exceptions are an explicit result type, dictionaries are finite maps,
    and the floating-point scalars are an interface ([Scalar]) whose
    operations stay abstract: every property proved below is about shapes,
    indices, keys and control flow, and holds for any interpretation of
    the arithmetic. *)

From Stdlib Require Import ZArith Lia List String Ascii.
From stdpp Require Import base option list gmap sets strings.

Local Open Scope string_scope.
Local Open Scope list_scope.
Local Open Scope nat_scope.

(** ** Python exceptions and results *)

Inductive exc_class :=
  | ValueError
  | TypeError
  | IndexError
  | KeyError
  | NotImplementedError.

Inductive res (A : Type) :=
  | Ok (a : A)
  | Raise (c : exc_class) (msg : string).
Arguments Ok {A} a.
Arguments Raise {A} c msg.

Definition rbind {A B} (x : res A) (k : A -> res B) : res B :=
  match x with
  | Ok a => k a
  | Raise c msg => Raise c msg
  end.

Definition is_ok {A} (x : res A) : bool :=
  match x with Ok _ => true | Raise _ _ => false end.

#[global] Instance res_ret : MRet res := fun A a => Ok a.
#[global] Instance res_bind : MBind res := fun A B k x => rbind x k.

(** ** numpy arrays: a shape and a row-major buffer *)

Record ndarray (A : Type) := NdArray { shape : list nat; data : list A }.
Arguments NdArray {A} shape data.
Arguments shape {A} _.
Arguments data {A} _.

(** Number of cells of a shape. *)
Definition size_of (s : list nat) : nat := fold_right Nat.mul 1 s.

(** All multi-indices of a shape, in row-major order. *)
Fixpoint indices (s : list nat) : list (list nat) :=
  match s with
  | [] => [[]]
  | n :: s' => flat_map (fun i => map (cons i) (indices s')) (seq 0 n)
  end.

(** Position of a multi-index in the buffer. *)
Fixpoint ravel (s idx : list nat) : nat :=
  match s, idx with
  | _ :: s', i :: idx' => i * size_of s' + ravel s' idx'
  | _, _ => 0
  end.

Definition in_range (s idx : list nat) : Prop := Forall2 lt idx s.

Section Arrays.
Context {A : Type} `{Inhabited A}.

(** Read one cell. *)
Definition get (a : ndarray A) (idx : list nat) : A :=
  nth (ravel (shape a) idx) (data a) inhabitant.

(** Build an array from its shape and a cell function. *)
Definition mk (s : list nat) (f : list nat -> A) : ndarray A :=
  NdArray s (map f (indices s)).

Definition full (s : list nat) (x : A) : ndarray A := mk s (fun _ => x).

(** Buffer and shape agree. *)
Definition wf (a : ndarray A) : Prop := length (data a) = size_of (shape a).
End Arrays.


(** ** Scalars

    The parameters are float32 or float64 arrays.  Their arithmetic is an
    interface; [s_cast] is the rounding done by [astype]. *)

Inductive dtype := float32 | float64.

Class Scalar (R : Type) := {
  s_zero : R;
  s_one : R;
  s_add : R -> R -> R;
  s_sub : R -> R -> R;
  s_mul : R -> R -> R;
  s_div : R -> R -> R;
  s_tanh : R -> R;
  s_exp : R -> R;
  s_log : R -> R;
  s_sqrt : R -> R;
  s_of_nat : nat -> R;
  s_ltb : R -> R -> bool;
  s_cast : dtype -> R -> R
}.

#[global] Instance scalar_inhabited {R} `{Scalar R} : Inhabited R :=
  populate s_zero.

(** Cells of an int32 array: values wrap modulo 2^32. *)
Definition int32 (z : Z) : Z := ((z + 2 ^ 31) mod 2 ^ 32 - 2 ^ 31)%Z.

(** ** The numpy operations used by the source *)

Module Np.

Definition map_arr {A B} (f : A -> B) (a : ndarray A) : ndarray B :=
  NdArray (shape a) (map f (data a)).

(** Broadcasting of two shapes, aligned on the right; computed on the
    reversed shapes. *)
Fixpoint broadcast_rev (ra rb : list nat) : option (list nat) :=
  match ra, rb with
  | [], r => Some r
  | r, [] => Some r
  | x :: ra', y :: rb' =>
      if x =? y then cons x <$> broadcast_rev ra' rb'
      else if x =? 1 then cons y <$> broadcast_rev ra' rb'
      else if y =? 1 then cons x <$> broadcast_rev ra' rb'
      else None
  end.

Definition broadcast_shapes (sa sb : list nat) : option (list nat) :=
  (fun r => rev r) <$> broadcast_rev (rev sa) (rev sb).

(** The cell of an operand of shape [s] read at cell [idx] of the
    broadcast result. *)
Definition bproj (s idx : list nat) : list nat :=
  zip_with (fun d i => if d =? 1 then 0 else i) s
           (drop (length idx - length s) idx).

Definition broadcast2 {A B C} `{Inhabited A} `{Inhabited B} `{Inhabited C}
    (f : A -> B -> C) (a : ndarray A) (b : ndarray B) : res (ndarray C) :=
  match broadcast_shapes (shape a) (shape b) with
  | Some s =>
      Ok (mk s (fun idx => f (get a (bproj (shape a) idx))
                             (get b (bproj (shape b) idx))))
  | None => Raise ValueError "operands could not be broadcast together"
  end.

(** [np.squeeze]: every axis of length one disappears; the buffer stays. *)
Definition squeeze {A} (a : ndarray A) : ndarray A :=
  NdArray (filter (fun d => d ≠ 1) (shape a)) (data a).

(** [a.reshape(s)] *)
Definition reshape {A} (a : ndarray A) (s : list nat) : res (ndarray A) :=
  if size_of (shape a) =? size_of s then Ok (NdArray s (data a))
  else Raise ValueError "cannot reshape array".

(** [a.T]: all axes reversed. *)
Definition transpose {A} `{Inhabited A} (a : ndarray A) : ndarray A :=
  mk (rev (shape a)) (fun idx => get a (rev idx)).

(** [a[:, np.newaxis, :]] *)
Definition newaxis1 {A} (a : ndarray A) : res (ndarray A) :=
  match shape a with
  | n :: d :: rest => Ok (NdArray (n :: 1 :: d :: rest) (data a))
  | _ => Raise IndexError "too many indices for array"
  end.

(** [a[:, lo:hi]] with both bounds already resolved against the axis. *)
Definition slice_cols {A} `{Inhabited A} (a : ndarray A)
    (bounds : nat -> nat * nat) : res (ndarray A) :=
  match shape a with
  | n :: d :: rest =>
      let '(lo, hi) := bounds d in
      Ok (mk (n :: (hi - lo) :: rest)
             (fun idx => match idx with
                         | i :: j :: r => get a (i :: (lo + j) :: r)
                         | _ => inhabitant
                         end))
  | _ => Raise IndexError "too many indices for array"
  end.

(** [a[:, :-1]]: the stop bound [-1] resolves to [d - 1], clamped at 0. *)
Definition all_but_last_col {A} `{Inhabited A} (a : ndarray A) :=
  slice_cols a (fun d => (0, d - 1)).

(** [a[:, 1:]]: the start bound [1] is clamped to the axis length. *)
Definition all_but_first_col {A} `{Inhabited A} (a : ndarray A) :=
  slice_cols a (fun d => (Nat.min 1 d, d)).

(** [a[:, t]] for a non-negative integer [t]. *)
Definition get_col {A} `{Inhabited A} (a : ndarray A) (t : nat)
    : res (ndarray A) :=
  match shape a with
  | n :: d :: rest =>
      if t <? d then
        Ok (mk (n :: rest)
               (fun idx => match idx with
                           | i :: r => get a (i :: t :: r)
                           | [] => inhabitant
                           end))
      else Raise IndexError "index is out of bounds for axis 1"
  | _ => Raise IndexError "too many indices for array"
  end.

(** Leading axes of length one are dropped from an assigned value while
    it has more axes than the target. *)
Fixpoint strip_ones (extra : nat) (s : list nat) : list nat :=
  match extra, s with
  | S e, 1 :: s' => strip_ones e s'
  | _, _ => s
  end.

(** [a[:, t] = v]: the index is resolved first, then [v] is broadcast to
    the selected column; [cast] is the conversion to the cell type of [a]. *)
Definition set_col {A B} `{Inhabited A} `{Inhabited B} (cast : B -> A)
    (a : ndarray A) (t : nat) (v : ndarray B) : res (ndarray A) :=
  match shape a with
  | n :: d :: rest =>
      if t <? d then
        let target := n :: rest in
        let sv := strip_ones (length (shape v) - length target) (shape v) in
        if decide (broadcast_shapes sv target = Some target) then
          Ok (mk (shape a)
                 (fun idx => match idx with
                             | i :: j :: r =>
                                 if j =? t
                                 then cast (get (NdArray sv (data v))
                                                (bproj sv (i :: r)))
                                 else get a idx
                             | _ => get a idx
                             end))
        else Raise ValueError "could not broadcast input array"
      else Raise IndexError "index is out of bounds for axis 1"
  | _ => Raise IndexError "too many indices for array"
  end.

(** [a[0]] *)
Definition row0 {A} `{Inhabited A} (a : ndarray A) : res (ndarray A) :=
  match shape a with
  | n :: rest =>
      if 0 <? n then Ok (mk rest (fun idx => get a (0 :: idx)))
      else Raise IndexError "index 0 is out of bounds for axis 0"
  | [] => Raise IndexError "too many indices for array"
  end.

(** [len(a)] *)
Definition len {A} (a : ndarray A) : res nat :=
  match shape a with
  | n :: _ => Ok n
  | [] => Raise TypeError "len() of unsized object"
  end.

(** [a.shape[0]] *)
Definition shape0 {A} (a : ndarray A) : res nat :=
  match shape a with
  | n :: _ => Ok n
  | [] => Raise IndexError "tuple index out of range"
  end.

(** [k * np.ones(s, dtype=np.int32)] *)
Definition scaled_ones_int32 (k : Z) (s : list nat) : ndarray Z :=
  full s (int32 (k * 1)).

(** [a != k] *)
Definition neq_scalar (a : ndarray Z) (k : Z) : ndarray bool :=
  map_arr (fun x => negb (x =? k)%Z) a.

(** Position of the first largest element ([np.argmax] on one lane). *)
Fixpoint argmax_from {R} (ltb : R -> R -> bool) (best : nat) (bestv : R)
    (i : nat) (l : list R) : nat :=
  match l with
  | [] => best
  | x :: l' =>
      if ltb bestv x then argmax_from ltb i x (S i) l'
      else argmax_from ltb best bestv (S i) l'
  end.

Definition argmax_list {R} (ltb : R -> R -> bool) (l : list R) : nat :=
  match l with
  | [] => 0
  | x :: l' => argmax_from ltb 0 x 1 l'
  end.

Section Float.
Context {R : Type} `{Scalar R}.

Definition sum_upto (k : nat) (f : nat -> R) : R :=
  fold_left s_add (map f (seq 0 k)) s_zero.

Definition sum_list (l : list R) : R := fold_left s_add l s_zero.

(** [np.dot(a, b)]: a scalar operand multiplies; otherwise the last axis
    of [a] is contracted with the second-to-last axis of [b] (with its
    only axis when [b] is one-dimensional). *)
Definition dot (a b : ndarray R) : res (ndarray R) :=
  match shape a, shape b with
  | [], _ => Ok (map_arr (s_mul (get a [])) b)
  | _, [] => Ok (map_arr (fun x => s_mul x (get b [])) a)
  | sa, [k] =>
      if List.last sa 0 =? k then
        Ok (mk (removelast sa)
               (fun i => sum_upto k (fun j =>
                  s_mul (get a (i ++ [j])) (get b [j]))))
      else Raise ValueError "shapes not aligned"
  | sa, sb =>
      let k := List.last sa 0 in
      let sb' := removelast sb in
      if k =? List.last sb' 0 then
        let ra := length sa - 1 in
        Ok (mk (removelast sa ++ removelast sb' ++ [List.last sb 0])
               (fun idx =>
                  let i := take ra idx in
                  let j := drop ra idx in
                  sum_upto k (fun c =>
                    s_mul (get a (i ++ [c]))
                          (get b (removelast j ++ [c; List.last j 0])))))
      else Raise ValueError "shapes not aligned"
  end.

(** [a + b] and [a * b], with broadcasting. *)
Definition add (a b : ndarray R) := broadcast2 s_add a b.
Definition mul (a b : ndarray R) := broadcast2 s_mul a b.

(** [np.tanh(a)] *)
Definition tanh (a : ndarray R) : ndarray R := map_arr s_tanh a.

(** [a / k] and [a /= k] for a scalar [k]. *)
Definition div_scalar (a : ndarray R) (k : R) : ndarray R :=
  map_arr (fun x => s_div x k) a.

(** [a.astype(dt)] *)
Definition astype (dt : dtype) (a : ndarray R) : ndarray R :=
  map_arr (s_cast dt) a.

(** [np.zeros(s)] *)
Definition zeros (s : list nat) : ndarray R := full s s_zero.

(** [np.sum(a, axis=0)] *)
Definition sum_axis0 (a : ndarray R) : res (ndarray R) :=
  match shape a with
  | n :: rest =>
      Ok (mk rest (fun idx => sum_upto n (fun i => get a (i :: idx))))
  | [] => Raise ValueError "axis 0 is out of bounds for array of dimension 0"
  end.

(** [np.argmax(a, axis=2)] *)
Definition argmax_axis2 (a : ndarray R) : res (ndarray Z) :=
  match shape a with
  | n :: t :: v :: rest =>
      if v =? 0 then
        Raise ValueError "attempt to get argmax of an empty sequence"
      else
        Ok (mk (n :: t :: rest)
               (fun idx => match idx with
                           | i :: j :: r =>
                               Z.of_nat (argmax_list s_ltb
                                 (map (fun c => get a (i :: j :: c :: r))
                                      (seq 0 v)))
                           | _ => 0%Z
                           end))
  | _ => Raise ValueError "axis 2 is out of bounds for array"
  end.
End Float.

End Np.

(** ** The layers (cs231n/layers.py, cs231n/rnn_layers.py)

    [rnn.py] imports its layers from two other modules of the
    repository.  Their code is not part of this development: each layer
    is modelled from sections 4.1 to 4.6 of the specification, written
    with the numpy operations above. *)

Module Layers.
Section Layers.
Context {R : Type} `{Scalar R}.

(** A Python index into an axis of length [v]: negative values count
    from the end. *)
Definition index_ok (v : nat) (i : Z) : bool :=
  ((- Z.of_nat v <=? i) && (i <? Z.of_nat v))%Z.

Definition norm_index (v : nat) (i : Z) : nat :=
  Z.to_nat (if (i <? 0)%Z then i + Z.of_nat v else i)%Z.

Definition all_cells {A} `{Inhabited A} (p : A -> bool) (a : ndarray A)
    : bool :=
  forallb (fun idx => p (get a idx)) (indices (shape a)).

(** Modelled from the spec: word_embedding_forward is not among the
    sources.  Section 4.2: the rows of the table [W] are gathered at the
    indices held by [x] (the gather [W[x]], for an index array of any
    rank); the cache is the pair of its inputs. *)
Definition word_embedding_forward (x : ndarray Z) (W : ndarray R)
    : res (ndarray R * (ndarray Z * ndarray R)) :=
  match shape W with
  | v :: rest =>
      if all_cells (index_ok v) x then
        let rx := length (shape x) in
        Ok (mk (shape x ++ rest)
               (fun idx => get W (norm_index v (get x (take rx idx))
                                  :: drop rx idx)),
            (x, W))
      else Raise IndexError "index is out of bounds for axis 0"
  | [] => Raise IndexError "too many indices for array"
  end.

(** Modelled from the spec: word_embedding_backward is not among the
    sources.  Section 4.2: a zero table of the shape of [W] receives, in
    row [x[n,t]], the sum of every [dout[n,t,:]] that points at it. *)
Definition word_embedding_backward (dout : ndarray R)
    (cache : ndarray Z * ndarray R) : res (ndarray R) :=
  let '(x, W) := cache in
  match shape W with
  | v :: rest =>
      if decide (shape dout = shape x ++ rest) then
        Ok (mk (shape W)
               (fun idx =>
                  match idx with
                  | row :: r =>
                      Np.sum_list
                        (map (fun i => get dout (i ++ r))
                             (filter (fun i => norm_index v (get x i) = row)
                                     (indices (shape x))))
                  | [] => s_zero
                  end))
      else Raise ValueError "shape mismatch"
  | [] => Raise IndexError "too many indices for array"
  end.

(** The context saved by one step of the cell: (x, prev_h, Wx, Wh,
    next_h), as section 4.3 lists it. *)
Record step_cache := StepCache {
  sc_x : ndarray R;
  sc_prev_h : ndarray R;
  sc_Wx : ndarray R;
  sc_Wh : ndarray R;
  sc_next_h : ndarray R
}.

(** Modelled from the spec: rnn_step_forward is not among the sources.
    Section 4.3: h_t = tanh(x_t.Wx + h_(t-1).Wh + b). *)
Definition rnn_step_forward (x prev_h Wx Wh b : ndarray R)
    : res (ndarray R * step_cache) :=
  xw ← Np.dot x Wx;
  hw ← Np.dot prev_h Wh;
  s ← Np.add xw hw;
  z ← Np.add s b;
  let next_h := Np.tanh z in
  Ok (next_h, StepCache x prev_h Wx Wh next_h).

(** Modelled from the spec: rnn_step_backward is not among the sources.
    Section 4.3: dz = dh_t * (1 - h_t^2), dx = dz.WxT, dh_(t-1) = dz.WhT,
    dWx = x_tT.dz, dWh = h_(t-1)T.dz, db = column-sum(dz). *)
Definition rnn_step_backward (dnext_h : ndarray R) (c : step_cache)
    : res (ndarray R * ndarray R * ndarray R * ndarray R * ndarray R) :=
  dz ← Np.mul dnext_h
        (Np.map_arr (fun h => s_sub s_one (s_mul h h)) (sc_next_h c));
  dx ← Np.dot dz (Np.transpose (sc_Wx c));
  dprev_h ← Np.dot dz (Np.transpose (sc_Wh c));
  dWx ← Np.dot (Np.transpose (sc_x c)) dz;
  dWh ← Np.dot (Np.transpose (sc_prev_h c)) dz;
  db ← Np.sum_axis0 dz;
  Ok (dx, dprev_h, dWx, dWh, db).

(** [a[:, t, :]] of a three-axis array. *)
Definition time_slice (a : ndarray R) (n t d : nat) : ndarray R :=
  mk [n; d] (fun idx => match idx with
                        | [i; k] => get a [i; t; k]
                        | _ => s_zero
                        end).

(** The array whose [a[:, t, :]] is the [t]-th element of [l]. *)
Definition stack_time (l : list (ndarray R)) (n t d : nat) : ndarray R :=
  mk [n; t; d] (fun idx => match idx with
                           | [i; j; k] => get (nth j l (Np.zeros [])) [i; k]
                           | _ => s_zero
                           end).

(** The context saved by the sequence layer: the per-step contexts in
    timestep order, with the inputs of the layer. *)
Record rnn_cache := RnnCache {
  rc_x : ndarray R;
  rc_Wx : ndarray R;
  rc_Wh : ndarray R;
  rc_b : ndarray R;
  rc_steps : list step_cache
}.

(** The loop of rnn_forward over the timesteps [ts], from hidden state
    [prev_h]; every new state must fit the (N, H) slot of the output. *)
Fixpoint rnn_forward_loop (x Wx Wh b : ndarray R) (n d h : nat)
    (ts : list nat) (prev_h : ndarray R)
    : res (list (ndarray R) * list step_cache) :=
  match ts with
  | [] => Ok ([], [])
  | t :: ts' =>
      '(next_h, c) ← rnn_step_forward (time_slice x n t d) prev_h Wx Wh b;
      if decide (shape next_h = [n; h]) then
        '(hs, cs) ← rnn_forward_loop x Wx Wh b n d h ts' next_h;
        Ok (next_h :: hs, c :: cs)
      else Raise ValueError "could not broadcast input array"
  end.

(** Modelled from the spec: rnn_forward is not among the sources.
    Section 4.4: the cell runs for t = 0..T-1 from h0, each step fed the
    state of the step before; the states are collected into (N, T, H). *)
Definition rnn_forward (x h0 Wx Wh b : ndarray R)
    : res (ndarray R * rnn_cache) :=
  match shape x, shape h0 with
  | [n; t; d], [_; h] =>
      '(hs, cs) ← rnn_forward_loop x Wx Wh b n d h (seq 0 t) h0;
      Ok (stack_time hs n t h, RnnCache x Wx Wh b cs)
  | _, _ => Raise ValueError "not enough values to unpack"
  end.

(** [a += b]: the sum must have the shape of [a]. *)
Definition iadd (a b : ndarray R) : res (ndarray R) :=
  r ← Np.add a b;
  if decide (shape r = shape a) then Ok r
  else Raise ValueError "non-broadcastable output operand".

(** The loop of rnn_backward over the timesteps [ts] (given latest
    first), carrying the gradient that flows back from the step after
    and the three accumulators; it returns the per-step input gradients
    in the order visited. *)
Fixpoint rnn_backward_loop (dh : ndarray R) (steps : list step_cache)
    (n d h : nat) (ts : list nat) (dprev dWx dWh db : ndarray R)
    : res (list (ndarray R) * ndarray R * ndarray R * ndarray R * ndarray R) :=
  match ts with
  | [] => Ok ([], dprev, dWx, dWh, db)
  | t :: ts' =>
      match steps !! t with
      | None => Raise IndexError "list index out of range"
      | Some c =>
          dcur ← Np.add (time_slice dh n t h) dprev;
          '(dx_t, dprev', dWx_t, dWh_t, db_t) ← rnn_step_backward dcur c;
          if decide (shape dx_t = [n; d]) then
            dWx' ← iadd dWx dWx_t;
            dWh' ← iadd dWh dWh_t;
            db' ← iadd db db_t;
            '(dxs, dh0, dWx'', dWh'', db'') ←
              rnn_backward_loop dh steps n d h ts' dprev' dWx' dWh' db';
            Ok (dx_t :: dxs, dh0, dWx'', dWh'', db'')
          else Raise ValueError "could not broadcast input array"
      end
  end.

(** Modelled from the spec: rnn_backward is not among the sources.
    Section 4.4: the timesteps are visited in reverse order; the gradient
    entering a step is dh[:,t,:] plus what flows back from the step
    after; dWx, dWh and db accumulate over the steps and the last
    hidden-state gradient is returned as dh0. *)
Definition rnn_backward (dh : ndarray R) (cache : rnn_cache)
    : res (ndarray R * ndarray R * ndarray R * ndarray R * ndarray R) :=
  match shape dh, shape (rc_x cache) with
  | [n; t; h], [_; _; d] =>
      '(dxs, dh0, dWx, dWh, db) ←
        rnn_backward_loop dh (rc_steps cache) n d h (rev (seq 0 t))
          (Np.zeros [n; h]) (Np.zeros (shape (rc_Wx cache)))
          (Np.zeros (shape (rc_Wh cache))) (Np.zeros (shape (rc_b cache)));
      Ok (stack_time (rev dxs) n t d, dh0, dWx, dWh, db)
  | _, _ => Raise ValueError "not enough values to unpack"
  end.

(** Modelled from the spec: temporal_affine_forward is not among the
    sources.  Section 4.5: (N, T, Din) is treated as (N.T, Din), the
    affine transform is applied and the result is reshaped to
    (N, T, Dout), Dout being the length of the bias. *)
Definition temporal_affine_forward (x w b : ndarray R)
    : res (ndarray R * (ndarray R * ndarray R * ndarray R)) :=
  match shape x with
  | [n; t; d] =>
      m ← Np.shape0 b;
      x2 ← Np.reshape x [n * t; d];
      y ← Np.dot x2 w;
      y3 ← Np.reshape y [n; t; m];
      out ← Np.add y3 b;
      Ok (out, (x, w, b))
  | _ => Raise ValueError "not enough values to unpack"
  end.

(** [a.sum(axis=(0, 1))] *)
Definition sum_axes01 (a : ndarray R) : res (ndarray R) :=
  match shape a with
  | n :: t :: rest =>
      Ok (mk rest (fun idx =>
            Np.sum_list (map (fun ij => get a (ij ++ idx)) (indices [n; t]))))
  | _ => Raise ValueError "axis 1 is out of bounds for array"
  end.

(** Modelled from the spec: temporal_affine_backward is not among the
    sources.  Section 4.5, with 4.1 applied to the flattened batch:
    dx = dOut.WT reshaped to (N, T, Din), dW = xT.dOut, and db sums dOut
    over both N and T. *)
Definition temporal_affine_backward (dout : ndarray R)
    (cache : ndarray R * ndarray R * ndarray R)
    : res (ndarray R * ndarray R * ndarray R) :=
  let '(x, w, b) := cache in
  match shape x with
  | [n; t; d] =>
      m ← Np.shape0 b;
      d2 ← Np.reshape dout [n * t; m];
      dx2 ← Np.dot d2 (Np.transpose w);
      dx ← Np.reshape dx2 [n; t; d];
      x2 ← Np.reshape x [n * t; d];
      dw ← Np.dot (Np.transpose x2) d2;
      db ← sum_axes01 dout;
      Ok (dx, dw, db)
  | _ => Raise ValueError "not enough values to unpack"
  end.

(** Largest element of a non-empty lane. *)
Definition max_list (l : list R) : R :=
  match l with
  | [] => s_zero
  | x :: l' => fold_left (fun m y => if s_ltb m y then y else m) l' x
  end.

(** Softmax probability of class [c] on the lane [x[i, j, :]] of length
    [v], computed after subtracting the largest score of the lane. *)
Definition softmax_at (x : ndarray R) (v i j c : nat) : R :=
  let lane := map (fun k => get x [i; j; k]) (seq 0 v) in
  let mx := max_list lane in
  s_div (s_exp (s_sub (get x [i; j; c]) mx))
        (Np.sum_list (map (fun s => s_exp (s_sub s mx)) lane)).

(** Modelled from the spec: temporal_softmax_loss is not among the
    sources.  Section 4.6: the loss is the sum, over the positions where
    the mask holds, of the cross-entropy against the target index,
    divided by N; the gradient is (probabilities - one_hot(target)) / N
    where the mask holds and zero elsewhere. *)
Definition temporal_softmax_loss (x : ndarray R) (y : ndarray Z)
    (mask : ndarray bool) : res (R * ndarray R) :=
  match shape x with
  | [n; t; v] =>
      if decide (shape y = [n; t] ∧ shape mask = [n; t]) then
        if v =? 0 then
          Raise ValueError "zero-size array to reduction operation maximum"
        else if all_cells (index_ok v) y then
          let target i j := norm_index v (get y [i; j]) in
          let nll ij :=
            match ij with
            | [i; j] => s_sub s_zero (s_log (softmax_at x v i j (target i j)))
            | _ => s_zero
            end in
          let total :=
            Np.sum_list (map nll (filter (fun ij => get mask ij = true)
                                         (indices [n; t]))) in
          let dx :=
            mk [n; t; v]
               (fun idx =>
                  match idx with
                  | [i; j; c] =>
                      if get mask [i; j] then
                        s_div (s_sub (softmax_at x v i j c)
                                     (if c =? target i j then s_one else s_zero))
                              (s_of_nat n)
                      else s_zero
                  | _ => s_zero
                  end) in
          Ok (s_div total (s_of_nat n), dx)
        else Raise IndexError "index is out of bounds for axis 1"
      else Raise ValueError "cannot reshape array"
  | _ => Raise ValueError "not enough values to unpack"
  end.
End Layers.

Arguments step_cache R : clear implicits.
Arguments rnn_cache R : clear implicits.

(** The shapes of the context of one step on a batch. *)
Definition step_cache_ok {R} (n d h : nat) (c : step_cache R) : Prop :=
  shape (sc_x c) = [n; d] /\ shape (sc_prev_h c) = [n; h] /\
  shape (sc_Wx c) = [d; h] /\ shape (sc_Wh c) = [h; h] /\
  shape (sc_next_h c) = [n; h].
End Layers.

(** ** Python string formatting: [fmt % arg] with one string argument *)

Fixpoint format_go (fmt : string) (arg : option string) : res string :=
  match fmt with
  | EmptyString =>
      match arg with
      | Some _ =>
          Raise TypeError "not all arguments converted during string formatting"
      | None => Ok EmptyString
      end
  | String "%" (String "s" rest) =>
      match arg with
      | Some a => r ← format_go rest None; Ok (String.append a r)
      | None => Raise TypeError "not enough arguments for format string"
      end
  | String "%" (String "%" rest) =>
      r ← format_go rest arg; Ok (String "%" r)
  | String "%" _ => Raise ValueError "unsupported format character"
  | String c rest => r ← format_go rest arg; Ok (String c r)
  end.

Definition py_format (fmt arg : string) : res string :=
  format_go fmt (Some arg).

(** [raise cls(fmt % arg)]: the message is built first, and a failure to
    build it is the exception that propagates. *)
Definition raise_formatted {A} (cls : exc_class) (fmt arg : string) : res A :=
  msg ← py_format fmt arg; Raise cls msg.

Definition dquote : string := String "034"%char EmptyString.

(** ** The generator behind [np.random.randn] *)

Record rng_state (R : Type) := Rng { rng_draws : nat -> R; rng_pos : nat }.
Arguments Rng {R} _ _.
Arguments rng_draws {R} _ _.
Arguments rng_pos {R} _.

Definition randn {R} (s : list nat) (g : rng_state R)
    : ndarray R * rng_state R :=
  (NdArray s (map (fun i => rng_draws g (rng_pos g + i)) (seq 0 (size_of s))),
   Rng (rng_draws g) (rng_pos g + size_of s)).

(** ** CaptioningRNN *)

Section CaptioningRNN.
Context {R : Type} `{Scalar R}.

(** The attributes of an instance.  [_start] and [_end] are [None] when
    the vocabulary has no such token. *)
Record CaptioningRNN := Model {
  cell_type : string;
  dtype_ : dtype;
  word_to_idx : gmap string Z;
  idx_to_word : gmap Z string;
  params : gmap string (ndarray R);
  vocab_size : nat;
  hidden_dim : nat;
  _null : Z;
  _start : option Z;
  _end : option Z
}.

(** [{'lstm': 4, 'rnn': 1}[cell_type]] *)
Definition dim_mul_of (cell : string) : res nat :=
  if decide (cell = "lstm") then Ok 4
  else if decide (cell = "rnn") then Ok 1
  else Raise KeyError cell.

(** [self.params[k] /= c] *)
Definition idiv (k : string) (c : R) (p : gmap string (ndarray R))
    : gmap string (ndarray R) :=
  alter (fun a => Np.div_scalar a c) k p.

(** The constructor: its result and the state of the generator afterwards.
    No method reads [idx_to_word]; when two words share an index Python
    keeps the one inserted last, here the choice is left to the map. *)
Definition __init__ (w2i : gmap string Z)
    (input_dim wordvec_dim hidden : nat) (cell : string) (dt : dtype)
    (g : rng_state R) : res CaptioningRNN * rng_state R :=
  if decide (cell ∉ ({["rnn"; "lstm"]} : gset string)) then
    (raise_formatted ValueError
       (String.append "Invalid cell_type "
          (String.append dquote (String.append "%s" dquote))) cell, g)
  else
    let i2w : gmap Z string :=
      list_to_map (prod_swap <$> map_to_list w2i) in
    let p : gmap string (ndarray R) := ∅ in
    let v := size w2i in
    match w2i !! "<NULL>" with
    | None => (Raise KeyError "<NULL>", g)
    | Some null =>
        let start := w2i !! "<START>" in
        let end_ := w2i !! "<END>" in
        let '(a, g) := randn [v; wordvec_dim] g in
        let p := <["W_embed" := a]> p in
        let p := idiv "W_embed" (s_of_nat 100) p in
        let '(a, g) := randn [input_dim; hidden] g in
        let p := <["W_proj" := a]> p in
        let p := idiv "W_proj" (s_sqrt (s_of_nat input_dim)) p in
        let p := <["b_proj" := Np.zeros [hidden]]> p in
        match dim_mul_of cell with
        | Raise c msg => (Raise c msg, g)
        | Ok dim_mul =>
            let '(a, g) := randn [wordvec_dim; dim_mul * hidden] g in
            let p := <["Wx" := a]> p in
            let p := idiv "Wx" (s_sqrt (s_of_nat wordvec_dim)) p in
            let '(a, g) := randn [hidden; dim_mul * hidden] g in
            let p := <["Wh" := a]> p in
            let p := idiv "Wh" (s_sqrt (s_of_nat hidden)) p in
            let p := <["b" := Np.zeros [dim_mul * hidden]]> p in
            let '(a, g) := randn [hidden; v] g in
            let p := <["W_vocab" := a]> p in
            let p := idiv "W_vocab" (s_sqrt (s_of_nat hidden)) p in
            let p := <["b_vocab" := Np.zeros [v]]> p in
            let p := Np.astype dt <$> p in
            (Ok (Model cell dt w2i i2w p v hidden null start end_), g)
        end
    end.

(** [self.params[k]] *)
Definition param (self : CaptioningRNN) (k : string) : res (ndarray R) :=
  match params self !! k with
  | Some a => Ok a
  | None => Raise KeyError k
  end.

(** *** The objects a call of [loss] can reach

    [loss] receives its instance and its two arrays by reference; a
    call runs on the three of them and hands them back in the state in
    which it leaves them. *)
Record frame := Frame {
  self_ : CaptioningRNN;
  features_ : ndarray R;
  captions_ : ndarray Z
}.

Definition M (A : Type) : Type := frame -> res A * frame.

Definition m_ret {A} (a : A) : M A := fun fr => (Ok a, fr).

Definition m_bind {A B} (x : M A) (k : A -> M B) : M B :=
  fun fr =>
    match x fr with
    | (Ok a, fr') => k a fr'
    | (Raise c msg, fr') => (Raise c msg, fr')
    end.

(** A computation that cannot touch the frame. *)
Definition lift {A} (r : res A) : M A := fun fr => (r, fr).

Definition read {A} (f : frame -> A) : M A := fun fr => (Ok (f fr), fr).

Definition read_param (k : string) : M (ndarray R) :=
  fun fr => (param (self_ fr) k, fr).
End CaptioningRNN.

Arguments CaptioningRNN R : clear implicits.
Arguments frame R : clear implicits.
Arguments M R : clear implicits.

#[global] Instance M_ret {R} : MRet (M R) := fun A a => m_ret a.
#[global] Instance M_bind {R} : MBind (M R) := fun A B k x => m_bind x k.

Section Methods.
Context {R : Type} `{Scalar R}.
Import Layers.

(** Lines 100-104 of [loss]: the two shifted copies of the captions and
    the mask of the real targets. *)
Definition loss_split (null : Z) (captions : ndarray Z)
    : res (ndarray Z * ndarray Z * ndarray bool) :=
  captions_in ← Np.all_but_last_col captions;
  captions_out ← Np.all_but_first_col captions;
  let mask := Np.neq_scalar captions_out null in
  Ok (captions_in, captions_out, mask).

(** The gradients known once the backward pass has crossed the
    embedding (line 164 of [loss]). *)
Record backprop := Backprop {
  bp_loss : R;
  bp_grads : gmap string (option (ndarray R));
  bp_dW_embed : ndarray R;
  bp_dh0 : ndarray R;
  bp_dWx : ndarray R;
  bp_dWh : ndarray R;
  bp_db : ndarray R;
  bp_dW_vocab : ndarray R;
  bp_db_vocab : ndarray R
}.

(** The branch on [self.cell_type] that both passes of [loss] take. *)
Definition not_implemented {A} (cell : string) : res A :=
  raise_formatted NotImplementedError "s not implemented" cell.

(** Lines 100-164 of [loss]: forward pass and backward pass down to the
    embedding. *)
Definition loss_backprop : M R backprop :=
  captions ← read captions_;
  null ← read (fun fr => _null (self_ fr));
  '(captions_in, captions_out, mask) ← lift (loss_split null captions);
  W_proj ← read_param "W_proj";
  b_proj ← read_param "b_proj";
  W_embed ← read_param "W_embed";
  Wx ← read_param "Wx";
  Wh ← read_param "Wh";
  b ← read_param "b";
  W_vocab ← read_param "W_vocab";
  b_vocab ← read_param "b_vocab";
  features ← read features_;
  fw ← lift (Np.dot features W_proj);
  h0 ← lift (Np.add fw b_proj);
  '(x, word_embedding_cache) ← lift (word_embedding_forward captions_in W_embed);
  cell ← read (fun fr => cell_type (self_ fr));
  '(h, rnn_cache) ←
    (if decide (cell = "rnn") then lift (rnn_forward x h0 Wx Wh b)
     else lift (not_implemented cell));
  '(scores_out, scores_cache) ← lift (temporal_affine_forward h W_vocab b_vocab);
  '(loss, dscores) ← lift (temporal_softmax_loss scores_out captions_out mask);
  p ← read (fun fr => params (self_ fr));
  let grads : gmap string (option (ndarray R)) := (fun _ => None) <$> p in
  '(dh, dW_vocab, db_vocab) ← lift (temporal_affine_backward dscores scores_cache);
  cell ← read (fun fr => cell_type (self_ fr));
  '(dx, dh0, dWx, dWh, db) ←
    (if decide (cell = "rnn") then lift (rnn_backward dh rnn_cache)
     else lift (not_implemented cell));
  dW_embed ← lift (word_embedding_backward dx word_embedding_cache);
  mret (Backprop loss grads dW_embed dh0 dWx dWh db dW_vocab db_vocab).

(** [loss]: the scalar loss and the gradient dictionary. *)
Definition loss : M R (R * gmap string (option (ndarray R))) :=
  bp ← loss_backprop;
  db_proj ← lift (Np.sum_axis0 (bp_dh0 bp));
  features ← read features_;
  dW_proj ← lift (Np.dot (Np.transpose features) (bp_dh0 bp));
  let grads := <["W_proj" := Some dW_proj]> (bp_grads bp) in
  let grads := <["b_proj" := Some db_proj]> grads in
  let grads := <["W_embed" := Some (bp_dW_embed bp)]> grads in
  let grads := <["Wx" := Some (bp_dWx bp)]> grads in
  let grads := <["Wh" := Some (bp_dWh bp)]> grads in
  let grads := <["b" := Some (bp_db bp)]> grads in
  let grads := <["W_vocab" := Some (bp_dW_vocab bp)]> grads in
  let grads := <["b_vocab" := Some (bp_db_vocab bp)]> grads in
  mret (bp_loss bp, grads).

(** One decoding step of [sample] (lines 221-226 and 231-234): embed the
    current words, advance the cell, score the vocabulary and take the
    best word of every example.  It returns the new state, the scores
    and the words. *)
Definition sample_step (W_embed Wx Wh b W_vocab b_vocab : ndarray R)
    (capt : ndarray Z) (prev_h : ndarray R)
    : res (ndarray R * ndarray R * ndarray Z) :=
  '(word_embed, _) ← word_embedding_forward capt W_embed;
  '(next_h, _) ← rnn_step_forward (Np.squeeze word_embed) prev_h Wx Wh b;
  nh ← Np.newaxis1 next_h;
  '(score, _) ← temporal_affine_forward nh W_vocab b_vocab;
  am ← Np.argmax_axis2 score;
  Ok (next_h, score, Np.squeeze am).

(** The loop of [sample] over the columns [ts]. *)
Fixpoint sample_loop (W_embed Wx Wh b W_vocab b_vocab : ndarray R)
    (ts : list nat) (captions capt : ndarray Z) (next_h : ndarray R)
    : res (ndarray Z) :=
  match ts with
  | [] => Ok captions
  | t :: ts' =>
      '(next_h, _, output_word) ←
        sample_step W_embed Wx Wh b W_vocab b_vocab capt next_h;
      captions ← Np.set_col int32 captions t output_word;
      capt ← Np.get_col captions t;
      sample_loop W_embed Wx Wh b W_vocab b_vocab ts' captions capt next_h
  end.

(** [self._start * np.ones((N, 1), dtype=np.int32)].  An absent START
    is None, which no cell of the column can be multiplied by; the
    properties about an absent START take a batch of at least one row,
    where there is such a cell. *)
Definition start_column (start : option Z) (n : nat) : res (ndarray Z) :=
  match start with
  | Some s => Ok (Np.scaled_ones_int32 s [n; 1])
  | None => Raise TypeError "unsupported operand type(s) for *"
  end.

(** [sample].  The local array [captions] is the only object written,
    and [capt] is read before the next column is written, so the view
    [captions[:, t]] is modelled by a copy. *)
Definition sample (self : CaptioningRNN R) (features : ndarray R)
    (max_length : nat) : res (ndarray Z) :=
  n ← Np.shape0 features;
  let captions := Np.scaled_ones_int32 (_null self) [n; max_length] in
  W_proj ← param self "W_proj";
  b_proj ← param self "b_proj";
  W_embed ← param self "W_embed";
  Wx ← param self "Wx";
  Wh ← param self "Wh";
  b ← param self "b";
  W_vocab ← param self "W_vocab";
  b_vocab ← param self "b_vocab";
  fw ← Np.dot features W_proj;
  h0 ← Np.add fw b_proj;
  capt ← start_column (_start self) n;
  '(next_h, _, output_word) ←
    sample_step W_embed Wx Wh b W_vocab b_vocab capt h0;
  captions ← Np.set_col int32 captions 0 output_word;
  capt ← Np.get_col captions 0;
  row ← Np.row0 captions;
  len ← Np.len row;
  sample_loop W_embed Wx Wh b W_vocab b_vocab (seq 1 (len - 1))
    captions capt next_h.
End Methods.

Arguments backprop R : clear implicits.

(** ** An exact stand-in for the scalars

    Integers with the identity for the transcendental functions: enough
    to run the model on concrete inputs, where only shapes, indices and
    comparisons matter. *)
#[global] Instance exact_Z : Scalar Z := {|
  s_zero := 0%Z; s_one := 1%Z;
  s_add := Z.add; s_sub := Z.sub; s_mul := Z.mul; s_div := Z.div;
  s_tanh := fun x => x; s_exp := fun x => x; s_log := fun x => x;
  s_sqrt := Z.sqrt; s_of_nat := Z.of_nat; s_ltb := Z.ltb;
  s_cast := fun _ x => x
|}.

(** ** Concrete inputs

    The end-to-end scenario of the specification: a four-word vocabulary,
    D = W = H = 4, a batch of two feature rows and two captions of length
    four holding START, real words and NULL padding. *)

Module Example.
Definition vocab : gmap string Z :=
  <["<NULL>" := 0%Z]> (<["<START>" := 1%Z]> (<["<END>" := 2%Z]>
    (<["dog" := 3%Z]> ∅))).

Definition vocab_no_end : gmap string Z :=
  <["<NULL>" := 0%Z]> (<["<START>" := 1%Z]> (<["dog" := 2%Z]> ∅)).

Definition gen : rng_state Z :=
  Rng (fun i => (Z.of_nat (i * i * 7 + i * 3) mod 11 - 5)%Z) 0.

Definition features : ndarray Z :=
  NdArray [2; 4] [1; 2; 3; 4; -1; 0; 2; 5]%Z.

Definition one_feature : ndarray Z := NdArray [1; 4] [1; 2; 3; 4]%Z.

Definition no_features : ndarray Z := NdArray [0; 4] [].

Definition captions : ndarray Z :=
  NdArray [2; 4] [1; 3; 2; 0; 1; 3; 3; 2]%Z.

Definition build (cell : string) : res (CaptioningRNN Z) :=
  fst (__init__ vocab 4 4 4 cell float32 gen).

(** The vanilla-RNN model of the scenario. *)
Definition model : CaptioningRNN Z :=
  match build "rnn" with
  | Ok m => m
  | Raise _ _ => Model "" float32 ∅ ∅ ∅ 0 0 0%Z None None
  end.

(** The same vocabulary and dimensions with the LSTM cell type. *)
Definition lstm_model : CaptioningRNN Z :=
  match build "lstm" with
  | Ok m => m
  | Raise _ _ => Model "" float32 ∅ ∅ ∅ 0 0 0%Z None None
  end.

(** The scenario with word vectors of dimension 1. *)
Definition narrow_model : CaptioningRNN Z :=
  match fst (__init__ vocab 4 1 4 "rnn" float32 gen) with
  | Ok m => m
  | Raise _ _ => Model "" float32 ∅ ∅ ∅ 0 0 0%Z None None
  end.

(** A model built on the vocabulary without END. *)
Definition model_no_end : CaptioningRNN Z :=
  match fst (__init__ vocab_no_end 4 4 4 "rnn" float32 gen) with
  | Ok m => m
  | Raise _ _ => Model "" float32 ∅ ∅ ∅ 0 0 0%Z None None
  end.
End Example.

(** ** Well-formed models and inputs *)

Definition param_keys : gset string :=
  {["W_embed"; "W_proj"; "b_proj"; "Wx"; "Wh"; "b"; "W_vocab"; "b_vocab"]}.

Definition has_shape {R} (p : gmap string (ndarray R)) (k : string)
    (s : list nat) : Prop :=
  exists a, p !! k = Some a /\ shape a = s.

(** The parameters of a vanilla-RNN model with feature dimension [D] and
    word-vector dimension [W], as section 3 of the specification lists
    them (V and H are attributes of the instance). *)
Record well_shaped {R} (self : CaptioningRNN R) (D W : nat) : Prop := {
  ws_keys : dom (params self) = param_keys;
  ws_vocab : 1 <= vocab_size self;
  ws_W_embed : has_shape (params self) "W_embed" [vocab_size self; W];
  ws_W_proj : has_shape (params self) "W_proj" [D; hidden_dim self];
  ws_b_proj : has_shape (params self) "b_proj" [hidden_dim self];
  ws_Wx : has_shape (params self) "Wx" [W; hidden_dim self];
  ws_Wh : has_shape (params self) "Wh" [hidden_dim self; hidden_dim self];
  ws_b : has_shape (params self) "b" [hidden_dim self];
  ws_W_vocab : has_shape (params self) "W_vocab" [hidden_dim self; vocab_size self];
  ws_b_vocab : has_shape (params self) "b_vocab" [vocab_size self]
}.

(** Every cell of an integer array is a vocabulary index. *)
Definition tokens_below (v : nat) (a : ndarray Z) : Prop :=
  forall idx, in_range (shape a) idx -> (0 <= get a idx < Z.of_nat v)%Z.

(** ** Greedy decoding, as section 4.8 of the specification words it

    At each of the steps the current token is embedded, the cell advances
    once, the hidden state is projected to vocabulary scores, the arg-max
    index of every example is the emitted token, and that token is the
    input of the next step.  Nothing here looks at the END token. *)

Section Greedy.
Context {R : Type} `{Scalar R}.

(** The arg-max index of example [i] in a (N, 1, V) score array. *)
Definition best_word (v : nat) (score : ndarray R) (i : nat) : nat :=
  Np.argmax_list s_ltb (map (fun c => get score [i; 0; c]) (seq 0 v)).

(** The tokens emitted for the [n] examples. *)
Definition best_words (n v : nat) (score : ndarray R) : ndarray Z :=
  mk [n] (fun idx => match idx with
                     | i :: _ => Z.of_nat (best_word v score i)
                     | [] => 0%Z
                     end).

(** The scores of [steps] successive steps, from the input tokens [capt]
    and the hidden state [h]. *)
Fixpoint greedy_scores (W_embed Wx Wh b W_vocab b_vocab : ndarray R)
    (n v steps : nat) (capt : ndarray Z) (h : ndarray R)
    : res (list (ndarray R)) :=
  match steps with
  | 0 => Ok []
  | S k =>
      '(h', score, _) ← sample_step W_embed Wx Wh b W_vocab b_vocab capt h;
      rest ← greedy_scores W_embed Wx Wh b W_vocab b_vocab n v k
               (best_words n v score) h';
      Ok (score :: rest)
  end.
End Greedy.

(** Greedy decoding for a model (section 4.8): the hidden state starts
    from the image-affine projection of the features, the first input is
    the START token, and [max_length] steps follow. *)
Definition greedy_decode {R} `{Scalar R} (self : CaptioningRNN R)
    (features : ndarray R) (max_length : nat) : res (list (ndarray R)) :=
  n ← Np.shape0 features;
  W_proj ← param self "W_proj";
  b_proj ← param self "b_proj";
  W_embed ← param self "W_embed";
  Wx ← param self "Wx";
  Wh ← param self "Wh";
  b ← param self "b";
  W_vocab ← param self "W_vocab";
  b_vocab ← param self "b_vocab";
  fw ← Np.dot features W_proj;
  h0 ← Np.add fw b_proj;
  capt ← start_column (_start self) n;
  greedy_scores W_embed Wx Wh b W_vocab b_vocab n (vocab_size self)
    max_length capt h0.

(** The instance with another END index. *)
Definition set_end {R} (e : option Z) (self : CaptioningRNN R)
    : CaptioningRNN R :=
  Model (cell_type self) (dtype_ self) (word_to_idx self) (idx_to_word self)
    (params self) (vocab_size self) (hidden_dim self) (_null self)
    (_start self) e.

(** A call of [sample] on which every step is defined: a well-formed
    model whose vocabulary fits the int32 cells of the captions and holds
    START, a batch of at least one feature row, and word vectors that
    [np.squeeze] leaves two-dimensional (W different from 1) unless the
    batch has a single row. *)
Record sample_ready {R} (self : CaptioningRNN R) (D W : nat)
    (features : ndarray R) (n : nat) : Prop := {
  sr_shaped : well_shaped self D W;
  sr_int32 : (Z.of_nat (vocab_size self) <= 2 ^ 31)%Z;
  sr_start : exists s, _start self = Some s /\
                       (0 <= s < Z.of_nat (vocab_size self))%Z;
  sr_features : shape features = [n; D];
  sr_batch : 1 <= n;
  sr_squeeze : W ≠ 1 \/ n = 1
}.

(** A computation that hands back the frame it received. *)
Definition read_only {R A} (m : M R A) : Prop := forall fr, snd (m fr) = fr.

(** A result that is not a NotImplementedError. *)
Definition other_outcome {A} (r : res A) : Prop :=
  forall msg, r <> Raise NotImplementedError msg.

Definition other_outcome_m {R A} (m : M R A) : Prop :=
  forall fr, other_outcome (fst (m fr)).

(** ** Cell widths, vocabularies and the order of the parameters *)

(** [dim_mul] of the constructor for a registered cell type. *)
Definition cell_width (cell : string) : nat :=
  if decide (cell = "lstm") then 4 else 1.

(** No two words of a vocabulary share an index. *)
Definition distinct_indices (w2i : gmap string Z) : Prop :=
  forall w1 w2 i, w2i !! w1 = Some i -> w2i !! w2 = Some i -> w1 = w2.

(** The order in which [loss] and [sample] unpack the parameters. *)
Definition param_order : list string :=
  ["W_proj"; "b_proj"; "W_embed"; "Wx"; "Wh"; "b"; "W_vocab"; "b_vocab"].

(** The first parameter, in that order, that a dictionary lacks. *)
Definition first_missing {R} (p : gmap string (ndarray R)) : option string :=
  find (fun k => bool_decide (p !! k = None)) param_order.

(** ** What [loss] sees of its frame *)

(** Frames that show [loss] the same parameters, NULL index, cell type,
    features and captions. *)
Definition same_view {R} (fr1 fr2 : frame R) : Prop :=
  params (self_ fr1) = params (self_ fr2) /\
  _null (self_ fr1) = _null (self_ fr2) /\
  cell_type (self_ fr1) = cell_type (self_ fr2) /\
  features_ fr1 = features_ fr2 /\ captions_ fr1 = captions_ fr2.

(** A computation whose result depends on the frame through that view
    only. *)
Definition view_only {R A} (m : M R A) : Prop :=
  forall fr1 fr2, same_view fr1 fr2 ->
    fst (m fr1) = fst (m fr2) /\ same_view (snd (m fr1)) (snd (m fr2)).

(** ** Further concrete inputs *)

Module Variants.
(** A vocabulary without NULL. *)
Definition vocab_no_null : gmap string Z :=
  <["<START>" := 0%Z]> (<["<END>" := 1%Z]> (<["dog" := 2%Z]> ∅)).

(** A vocabulary without START. *)
Definition vocab_no_start : gmap string Z :=
  <["<NULL>" := 0%Z]> (<["<END>" := 1%Z]> (<["dog" := 2%Z]> ∅)).

(** A model built on the vocabulary without START. *)
Definition model_no_start : CaptioningRNN Z :=
  match fst (__init__ vocab_no_start 4 4 4 "rnn" float32 Example.gen) with
  | Ok m => m
  | Raise _ _ => Model "" float32 ∅ ∅ ∅ 0 0 0%Z None None
  end.

(** The instance with another parameter dictionary. *)
Definition set_params {R} (p : gmap string (ndarray R))
    (self : CaptioningRNN R) : CaptioningRNN R :=
  Model (cell_type self) (dtype_ self) (word_to_idx self) (idx_to_word self)
    p (vocab_size self) (hidden_dim self) (_null self) (_start self)
    (_end self).

(** The model of the scenario once [del model.params['Wh']] has run. *)
Definition model_without_Wh : CaptioningRNN Z :=
  set_params (delete "Wh" (params Example.model)) Example.model.

(** The model of the scenario with one more entry in its parameters. *)
Definition model_with_scale : CaptioningRNN Z :=
  set_params (<["scale" := NdArray [1] [1%Z]]> (params Example.model))
    Example.model.

(** The parameters, NULL index and cell type of the scenario under other
    values of every other attribute. *)
Definition model_for_loss : CaptioningRNN Z :=
  Model "rnn" float64 ∅ ∅ (params Example.model) 0 0 (_null Example.model)
    None None.

(** The parameters and START index of the scenario under other values of
    every other attribute. *)
Definition model_for_sample : CaptioningRNN Z :=
  Model "lstm" float64 ∅ ∅ (params Example.model) 0 0 3%Z
    (_start Example.model) None.

(** Features with three columns, where the scenario expects four. *)
Definition short_features : ndarray Z :=
  NdArray [2; 3] [1; 2; 3; -1; 0; 2]%Z.

(** One caption passed without its batch axis. *)
Definition flat_captions : ndarray Z := NdArray [4] [1; 3; 2; 0]%Z.
End Variants.

(** * Properties *)

(** ** Arrays *)

Lemma length_indices s : length (indices s) = size_of s.
Proof.
  induction s as [|n s IH]; [reflexivity|].
  cbn [indices size_of fold_right]. fold (size_of s).
  generalize 0 as k. induction n as [|n IHn]; intros k; [reflexivity|].
  cbn [seq flat_map]. rewrite length_app, length_map, IH, IHn. reflexivity.
Qed.

Lemma ravel_lt s idx : in_range s idx -> ravel s idx < size_of s.
Proof.
  intros Hr. induction Hr as [|i n idx s Hi Hr IH]; [cbn; lia|].
  cbn [ravel size_of fold_right]. fold (size_of s). nia.
Qed.

Lemma nth_flat_map_block {B C} (f : B -> list C) (p : nat) (d : C) :
  forall (l : list B) (i r : nat) (db : B),
    (forall x, length (f x) = p) -> i < length l -> r < p ->
    nth (i * p + r) (flat_map f l) d = nth r (f (nth i l db)) d.
Proof.
  induction l as [|x l IH]; intros i r db Hf Hi Hrp; [cbn in Hi; lia|].
  cbn [flat_map]. destruct i as [|i].
  - cbn [nth Nat.mul Nat.add]. rewrite app_nth1; [reflexivity|rewrite Hf; lia].
  - rewrite app_nth2 by (rewrite Hf; nia).
    rewrite Hf. replace (S i * p + r - p) with (i * p + r) by nia.
    cbn [nth]. apply IH; [assumption|cbn in Hi; lia|assumption].
Qed.

Lemma nth_indices s idx :
  in_range s idx -> nth (ravel s idx) (indices s) [] = idx.
Proof.
  intros Hr. induction Hr as [|i n idx s Hi Hr IH]; [reflexivity|].
  cbn [ravel indices].
  rewrite (nth_flat_map_block _ (size_of s) [] _ i _ 0).
  - rewrite seq_nth by assumption. cbn [Nat.add].
    rewrite (nth_indep _ [] (i :: [])) by
      (rewrite length_map, length_indices; apply ravel_lt; assumption).
    rewrite (map_nth (cons i) (indices s) []). rewrite IH. reflexivity.
  - intros x. rewrite length_map. apply length_indices.
  - rewrite length_seq. assumption.
  - apply ravel_lt. assumption.
Qed.

Section ArrayFacts.
Context {A : Type} `{Inhabited A}.

Lemma shape_mk s (f : list nat -> A) : shape (mk s f) = s.
Proof. reflexivity. Qed.

Lemma wf_mk s (f : list nat -> A) : wf (mk s f).
Proof. unfold wf, mk. cbn. rewrite length_map. apply length_indices. Qed.

Lemma get_mk s (f : list nat -> A) idx :
  in_range s idx -> get (mk s f) idx = f idx.
Proof.
  intros Hr. unfold get, mk. cbn [shape data].
  rewrite (nth_indep _ inhabitant (f [])) by
    (rewrite length_map, length_indices; apply ravel_lt; assumption).
  rewrite (map_nth f (indices s) []). rewrite nth_indices by assumption.
  reflexivity.
Qed.
End ArrayFacts.

(** ** Running a call of [loss] *)

Section Frames.
Context {R : Type} `{Scalar R}.

Lemma read_only_ret {A} (a : A) : read_only (mret a : M R A).
Proof. intros fr. reflexivity. Qed.

Lemma read_only_lift {A} (r : res A) : read_only (lift r : M R A).
Proof. intros fr. reflexivity. Qed.

Lemma read_only_read {A} (f : frame R -> A) : read_only (read f).
Proof. intros fr. reflexivity. Qed.

Lemma read_only_read_param k : read_only (read_param k : M R (ndarray R)).
Proof. intros fr. reflexivity. Qed.

Lemma read_only_bind {A B} (x : M R A) (k : A -> M R B) :
  read_only x -> (forall a, read_only (k a)) -> read_only (x ≫= k).
Proof.
  intros Hx Hk fr. unfold mbind, M_bind, m_bind.
  specialize (Hx fr). destruct (x fr) as [[a|c msg] fr']; cbn in Hx; subst fr'.
  - apply Hk.
  - reflexivity.
Qed.

Lemma run_read_only {A} (m : M R A) fr :
  read_only m -> m fr = (fst (m fr), fr).
Proof. intros Hm. specialize (Hm fr). destruct (m fr); cbn in *; congruence. Qed.

Lemma run_bind {A B} (x : M R A) (k : A -> M R B) fr :
  (x ≫= k) fr =
  match x fr with
  | (Ok a, fr') => k a fr'
  | (Raise c msg, fr') => (Raise c msg, fr')
  end.
Proof. reflexivity. Qed.
End Frames.

Create HintDb read_only.
#[global] Hint Resolve read_only_ret read_only_lift read_only_read
  read_only_read_param : read_only.

Ltac read_only_step :=
  first
    [ apply read_only_bind; [| intros ? ]
    | match goal with
      | |- read_only (match ?x with _ => _ end) => destruct x
      | |- read_only (if ?c then _ else _) => destruct c
      end
    | solve [ auto with read_only ] ].

Section FrameTheorems.
Context {R : Type} `{Scalar R}.

Lemma loss_backprop_read_only : read_only (loss_backprop (R := R)).
Proof. unfold loss_backprop. repeat read_only_step. Qed.

(** C9: a call of [loss] leaves the instance (every attribute, every
    parameter), the features and the captions as it found them; the
    gradient dictionary it returns is a new object. *)
Theorem loss_leaves_frame_unchanged (fr : frame R) :
  snd (loss fr) = fr.
Proof.
  revert fr. change (read_only (loss (R := R))). unfold loss.
  apply read_only_bind; [apply loss_backprop_read_only|]. intros bp.
  repeat read_only_step.
Qed.
End FrameTheorems.

(** ** Shapes and cells of the numpy operations *)

Lemma indices_in_range s idx : In idx (indices s) -> in_range s idx.
Proof.
  revert idx. induction s as [|n s IH]; intros idx Hin.
  - cbn in Hin. destruct Hin as [<-|[]]. constructor.
  - cbn [indices] in Hin. apply in_flat_map in Hin as (i & Hi & Hin).
    apply in_map_iff in Hin as (idx' & <- & Hin').
    apply in_seq in Hi. constructor; [lia|]. apply IH. assumption.
Qed.

Section CellFacts.
Context {A : Type} `{Inhabited A}.

Lemma mk_ext s (f g : list nat -> A) :
  (forall idx, in_range s idx -> f idx = g idx) -> mk s f = mk s g.
Proof.
  intros Hfg. unfold mk. f_equal. apply map_ext_in.
  intros idx Hin. apply Hfg, indices_in_range, Hin.
Qed.

Lemma get_map_arr {B} `{Inhabited B} (f : A -> B) (a : ndarray A) idx :
  wf a -> in_range (shape a) idx -> get (Np.map_arr f a) idx = f (get a idx).
Proof.
  intros Hwf Hr. unfold get, Np.map_arr. cbn [shape data].
  rewrite (nth_indep _ inhabitant (f inhabitant)) by
    (rewrite length_map, Hwf; apply ravel_lt; assumption).
  apply map_nth.
Qed.

Lemma all_cells_true (p : A -> bool) (a : ndarray A) :
  (forall idx, in_range (shape a) idx -> p (get a idx) = true) ->
  Layers.all_cells p a = true.
Proof.
  intros Hp. unfold Layers.all_cells. apply forallb_forall.
  intros idx Hin. apply Hp, indices_in_range, Hin.
Qed.

Lemma reshape_ok (a : ndarray A) s :
  size_of (shape a) = size_of s -> Np.reshape a s = Ok (NdArray s (data a)).
Proof. intros Hs. unfold Np.reshape. rewrite Hs, Nat.eqb_refl. reflexivity. Qed.
End CellFacts.

Lemma broadcast_rev_same r : Np.broadcast_rev r r = Some r.
Proof.
  induction r as [|x r IH]; [reflexivity|].
  cbn. rewrite Nat.eqb_refl, IH. reflexivity.
Qed.

Lemma broadcast_rev_longer_l r q : Np.broadcast_rev (r ++ q) r = Some (r ++ q).
Proof.
  induction r as [|x r IH]; [destruct q; reflexivity|].
  cbn. rewrite Nat.eqb_refl, IH. reflexivity.
Qed.

Lemma broadcast_rev_longer_r r q : Np.broadcast_rev r (r ++ q) = Some (r ++ q).
Proof.
  induction r as [|x r IH]; [destruct q; reflexivity|].
  cbn. rewrite Nat.eqb_refl, IH. reflexivity.
Qed.

Lemma broadcast_shapes_same s : Np.broadcast_shapes s s = Some s.
Proof.
  unfold Np.broadcast_shapes. rewrite broadcast_rev_same. cbn.
  rewrite rev_involutive. reflexivity.
Qed.

Lemma broadcast_shapes_suffix_r p s :
  Np.broadcast_shapes (p ++ s) s = Some (p ++ s).
Proof.
  unfold Np.broadcast_shapes. rewrite rev_app_distr, broadcast_rev_longer_l.
  cbn. rewrite <- rev_app_distr, rev_involutive. reflexivity.
Qed.

Lemma broadcast_shapes_suffix_l p s :
  Np.broadcast_shapes s (p ++ s) = Some (p ++ s).
Proof.
  unfold Np.broadcast_shapes. rewrite rev_app_distr, broadcast_rev_longer_r.
  cbn. rewrite <- rev_app_distr, rev_involutive. reflexivity.
Qed.

Section NpFacts.
Context {R : Type} `{Scalar R}.

Lemma broadcast2_same {A B C} `{Inhabited A} `{Inhabited B} `{Inhabited C}
    (f : A -> B -> C) (a : ndarray A) (b : ndarray B) :
  shape b = shape a ->
  exists c, Np.broadcast2 f a b = Ok c /\ shape c = shape a.
Proof.
  intros Hb. unfold Np.broadcast2. rewrite Hb, broadcast_shapes_same.
  eexists. split; reflexivity.
Qed.

Lemma broadcast2_suffix {A B C} `{Inhabited A} `{Inhabited B} `{Inhabited C}
    (f : A -> B -> C) (a : ndarray A) (b : ndarray B) p :
  shape a = p ++ shape b ->
  exists c, Np.broadcast2 f a b = Ok c /\ shape c = shape a.
Proof.
  intros Ha. unfold Np.broadcast2. rewrite Ha, broadcast_shapes_suffix_r.
  eexists. split; reflexivity.
Qed.

Lemma broadcast2_prefix {A B C} `{Inhabited A} `{Inhabited B} `{Inhabited C}
    (f : A -> B -> C) (a : ndarray A) (b : ndarray B) p :
  shape b = p ++ shape a ->
  exists c, Np.broadcast2 f a b = Ok c /\ shape c = shape b.
Proof.
  intros Hb. unfold Np.broadcast2. rewrite Hb, broadcast_shapes_suffix_l.
  eexists. split; reflexivity.
Qed.

Lemma add_same (a b : ndarray R) s :
  shape a = s -> shape b = s -> exists c, Np.add a b = Ok c /\ shape c = s.
Proof.
  intros Ha Hb. destruct (broadcast2_same s_add a b) as (c & Hc & Hs);
    [congruence|]. exists c. split; [exact Hc|congruence].
Qed.

Lemma add_bias (a b : ndarray R) p s :
  shape a = p ++ s -> shape b = s ->
  exists c, Np.add a b = Ok c /\ shape c = p ++ s.
Proof.
  intros Ha Hb. destruct (broadcast2_suffix s_add a b p) as (c & Hc & Hs);
    [congruence|]. exists c. split; [exact Hc|congruence].
Qed.

Lemma add_row (a b : ndarray R) p s :
  shape a = s -> shape b = p ++ s ->
  exists c, Np.add a b = Ok c /\ shape c = p ++ s.
Proof.
  intros Ha Hb. destruct (broadcast2_prefix s_add a b p) as (c & Hc & Hs);
    [congruence|]. exists c. split; [exact Hc|congruence].
Qed.

Lemma dot_matrix (a b : ndarray R) n k m :
  shape a = [n; k] -> shape b = [k; m] ->
  exists c, Np.dot a b = Ok c /\ shape c = [n; m] /\
    forall i j, i < n -> j < m ->
      get c [i; j] =
      Np.sum_upto k (fun x => s_mul (get a [i; x]) (get b [x; j])).
Proof.
  intros Ha Hb. unfold Np.dot. rewrite Ha, Hb. cbn. rewrite Nat.eqb_refl.
  eexists. split; [reflexivity|]. split; [reflexivity|].
  intros i j Hi Hj. rewrite get_mk by (repeat constructor; assumption).
  reflexivity.
Qed.

Lemma dot_vector_matrix (a b : ndarray R) k m :
  shape a = [k] -> shape b = [k; m] ->
  exists c, Np.dot a b = Ok c /\ shape c = [m].
Proof.
  intros Ha Hb. unfold Np.dot. rewrite Ha, Hb. cbn. rewrite Nat.eqb_refl.
  eexists. split; reflexivity.
Qed.

Lemma dot_scalar_l (a b : ndarray R) :
  shape a = [] -> exists c, Np.dot a b = Ok c /\ shape c = shape b.
Proof.
  intros Ha. unfold Np.dot. rewrite Ha. eexists. split; reflexivity.
Qed.

Lemma dot_misaligned (a b : ndarray R) n k m :
  shape a = [n] -> shape b = [k; m] -> n <> k ->
  Np.dot a b = Raise ValueError "shapes not aligned".
Proof.
  intros Ha Hb Hne. unfold Np.dot. rewrite Ha, Hb. cbn.
  destruct (Nat.eqb_spec n k); [contradiction|reflexivity].
Qed.

Lemma shape_transpose (a : ndarray R) : shape (Np.transpose a) = rev (shape a).
Proof. reflexivity. Qed.

Lemma sum_axis0_matrix (a : ndarray R) n m :
  shape a = [n; m] ->
  exists c, Np.sum_axis0 a = Ok c /\ shape c = [m] /\
    forall j, j < m -> get c [j] = Np.sum_upto n (fun i => get a [i; j]).
Proof.
  intros Ha. unfold Np.sum_axis0. rewrite Ha.
  eexists. split; [reflexivity|]. split; [reflexivity|].
  intros j Hj. rewrite get_mk by (repeat constructor; assumption). reflexivity.
Qed.
End NpFacts.

(** ** Shapes through the layers *)

Ltac run_ok E := rewrite E; cbn [mbind res_bind rbind].

Section LayerFacts.
Context {R : Type} `{Scalar R}.
Import Layers.

Lemma mul_same (a b : ndarray R) s :
  shape a = s -> shape b = s -> exists c, Np.mul a b = Ok c /\ shape c = s.
Proof.
  intros Ha Hb. destruct (broadcast2_same s_mul a b) as (c & Hc & Hs);
    [congruence|]. exists c. split; [exact Hc|congruence].
Qed.

Lemma iadd_same (a b : ndarray R) s :
  shape a = s -> shape b = s -> exists c, iadd a b = Ok c /\ shape c = s.
Proof.
  intros Ha Hb. unfold iadd.
  destruct (add_same a b s Ha Hb) as (c & Hc & Hs). run_ok Hc.
  rewrite decide_True by congruence. eauto.
Qed.

Lemma index_ok_token v z : (0 <= z < Z.of_nat v)%Z -> index_ok v z = true.
Proof.
  intros Hz. unfold index_ok. apply andb_true_intro.
  split; [apply Z.leb_le|apply Z.ltb_lt]; lia.
Qed.

Lemma tokens_index_ok v (a : ndarray Z) :
  tokens_below v a -> all_cells (index_ok v) a = true.
Proof.
  intros Ha. apply all_cells_true. intros idx Hr. apply index_ok_token, Ha, Hr.
Qed.

Lemma word_embedding_forward_shape (x : ndarray Z) (W : ndarray R) v rest :
  shape W = v :: rest -> tokens_below v x ->
  exists out, word_embedding_forward x W = Ok (out, (x, W)) /\
              shape out = shape x ++ rest.
Proof.
  intros HW Hx. unfold word_embedding_forward. rewrite HW.
  rewrite tokens_index_ok by assumption. eexists. split; reflexivity.
Qed.

Lemma word_embedding_backward_shape (dout : ndarray R) (x : ndarray Z)
    (W : ndarray R) v rest :
  shape W = v :: rest -> shape dout = shape x ++ rest ->
  exists dW, word_embedding_backward dout (x, W) = Ok dW /\ shape dW = shape W.
Proof.
  intros HW Hd. unfold word_embedding_backward. rewrite HW.
  rewrite decide_True by assumption. eexists. split; reflexivity.
Qed.

Lemma rnn_step_forward_shape (x prev_h Wx Wh b : ndarray R) n d h :
  shape x = [n; d] -> shape prev_h = [n; h] -> shape Wx = [d; h] ->
  shape Wh = [h; h] -> shape b = [h] ->
  exists next_h c, rnn_step_forward x prev_h Wx Wh b = Ok (next_h, c) /\
    shape next_h = [n; h] /\ step_cache_ok n d h c.
Proof.
  intros Hx Hp HWx HWh Hb. unfold rnn_step_forward.
  destruct (dot_matrix x Wx n d h Hx HWx) as (xw & E1 & S1 & _). run_ok E1.
  destruct (dot_matrix prev_h Wh n h h Hp HWh) as (hw & E2 & S2 & _). run_ok E2.
  destruct (add_same xw hw [n; h] S1 S2) as (s & E3 & S3). run_ok E3.
  destruct (add_bias s b [n] [h] S3 Hb) as (z & E4 & S4). run_ok E4.
  eexists _, _. split; [reflexivity|]. split; [exact S4|].
  repeat split; assumption.
Qed.

Lemma rnn_step_backward_shape (dnext : ndarray R) (c : step_cache R) n d h :
  shape dnext = [n; h] -> step_cache_ok n d h c ->
  exists dx dprev dWx dWh db,
    rnn_step_backward dnext c = Ok (dx, dprev, dWx, dWh, db) /\
    shape dx = [n; d] /\ shape dprev = [n; h] /\ shape dWx = [d; h] /\
    shape dWh = [h; h] /\ shape db = [h].
Proof.
  intros Hd (Hx & Hp & HWx & HWh & Hn). unfold rnn_step_backward.
  destruct (mul_same dnext
              (Np.map_arr (fun y => s_sub s_one (s_mul y y)) (sc_next_h c))
              [n; h] Hd Hn) as (dz & E1 & S1). run_ok E1.
  destruct (dot_matrix dz (Np.transpose (sc_Wx c)) n h d S1)
    as (dx & E2 & S2 & _); [rewrite shape_transpose, HWx; reflexivity|].
  run_ok E2.
  destruct (dot_matrix dz (Np.transpose (sc_Wh c)) n h h S1)
    as (dprev & E3 & S3 & _); [rewrite shape_transpose, HWh; reflexivity|].
  run_ok E3.
  destruct (dot_matrix (Np.transpose (sc_x c)) dz d n h)
    as (dWx & E4 & S4 & _);
    [rewrite shape_transpose, Hx; reflexivity|assumption|]. run_ok E4.
  destruct (dot_matrix (Np.transpose (sc_prev_h c)) dz h n h)
    as (dWh & E5 & S5 & _);
    [rewrite shape_transpose, Hp; reflexivity|assumption|]. run_ok E5.
  destruct (sum_axis0_matrix dz n h S1) as (db & E6 & S6 & _). run_ok E6.
  eexists _, _, _, _, _. split; [reflexivity|]. repeat split; assumption.
Qed.

Lemma rnn_forward_loop_shape (x Wx Wh b : ndarray R) n d h :
  shape Wx = [d; h] -> shape Wh = [h; h] -> shape b = [h] ->
  forall ts prev_h, shape prev_h = [n; h] ->
  exists hs cs, rnn_forward_loop x Wx Wh b n d h ts prev_h = Ok (hs, cs) /\
    length cs = length ts /\ Forall (step_cache_ok n d h) cs.
Proof.
  intros HWx HWh Hb. induction ts as [|t ts IH]; intros prev_h Hp.
  - exists [], []. repeat split. constructor.
  - cbn [rnn_forward_loop].
    destruct (rnn_step_forward_shape (time_slice x n t d) prev_h Wx Wh b n d h)
      as (nh & c & E & Sn & Hc); try assumption; [reflexivity|].
    run_ok E. rewrite decide_True by assumption.
    destruct (IH nh Sn) as (hs & cs & E' & Hl & Hcs). run_ok E'.
    exists (nh :: hs), (c :: cs). split; [reflexivity|].
    split; [cbn; congruence|]. constructor; assumption.
Qed.

Lemma rnn_forward_shape (x h0 Wx Wh b : ndarray R) n t d h :
  shape x = [n; t; d] -> shape h0 = [n; h] -> shape Wx = [d; h] ->
  shape Wh = [h; h] -> shape b = [h] ->
  exists out cs, rnn_forward x h0 Wx Wh b = Ok (out, RnnCache x Wx Wh b cs) /\
    shape out = [n; t; h] /\ length cs = t /\
    Forall (step_cache_ok n d h) cs.
Proof.
  intros Hx Hh HWx HWh Hb. unfold rnn_forward. rewrite Hx, Hh.
  destruct (rnn_forward_loop_shape x Wx Wh b n d h HWx HWh Hb (seq 0 t) h0 Hh)
    as (hs & cs & E & Hl & Hcs). run_ok E.
  eexists _, cs. split; [reflexivity|]. split; [reflexivity|].
  split; [rewrite Hl; apply length_seq|assumption].
Qed.

Lemma rnn_backward_loop_shape (dh : ndarray R) (steps : list (step_cache R))
    n d h :
  Forall (step_cache_ok n d h) steps ->
  forall ts dprev dWx dWh db,
    Forall (fun t => t < length steps) ts ->
    shape dprev = [n; h] -> shape dWx = [d; h] -> shape dWh = [h; h] ->
    shape db = [h] ->
    exists dxs dh0 dWx' dWh' db',
      rnn_backward_loop dh steps n d h ts dprev dWx dWh db =
        Ok (dxs, dh0, dWx', dWh', db') /\
      shape dh0 = [n; h] /\ shape dWx' = [d; h] /\ shape dWh' = [h; h] /\
      shape db' = [h].
Proof.
  intros Hsteps. induction ts as [|t ts IH];
    intros dprev dWx dWh db Hts Hp HWx HWh Hb.
  - eexists _, _, _, _, _. split; [reflexivity|]. repeat split; assumption.
  - cbn [rnn_backward_loop]. inversion Hts as [|? ? Ht Hts']; subst.
    destruct (lookup_lt_is_Some_2 steps t Ht) as [c Hc]. rewrite Hc.
    assert (Hok : step_cache_ok n d h c).
    { rewrite Forall_forall in Hsteps. apply Hsteps.
      eapply list_elem_of_lookup_2. exact Hc. }
    destruct (add_same (time_slice dh n t h) dprev [n; h] eq_refl Hp)
      as (dcur & E1 & S1). run_ok E1.
    destruct (rnn_step_backward_shape dcur c n d h S1 Hok)
      as (dx & dprev' & dWx_t & dWh_t & db_t & E2 & Sx & Sp & SWx & SWh & Sb).
    run_ok E2. rewrite decide_True by assumption.
    destruct (iadd_same dWx dWx_t _ HWx SWx) as (dWx' & E3 & S3). run_ok E3.
    destruct (iadd_same dWh dWh_t _ HWh SWh) as (dWh' & E4 & S4). run_ok E4.
    destruct (iadd_same db db_t _ Hb Sb) as (db' & E5 & S5). run_ok E5.
    destruct (IH dprev' dWx' dWh' db' Hts' Sp S3 S4 S5)
      as (dxs & dh0 & a1 & a2 & a3 & E6 & ? & ? & ? & ?). run_ok E6.
    eexists _, _, _, _, _. split; [reflexivity|]. repeat split; assumption.
Qed.

Lemma rnn_backward_shape (dh x Wx Wh b : ndarray R) cs n t d h :
  shape dh = [n; t; h] -> shape x = [n; t; d] -> shape Wx = [d; h] ->
  shape Wh = [h; h] -> shape b = [h] -> length cs = t ->
  Forall (step_cache_ok n d h) cs ->
  exists dx dh0 dWx dWh db,
    rnn_backward dh (RnnCache x Wx Wh b cs) = Ok (dx, dh0, dWx, dWh, db) /\
    shape dx = [n; t; d] /\ shape dh0 = [n; h] /\ shape dWx = [d; h] /\
    shape dWh = [h; h] /\ shape db = [h].
Proof.
  intros Hdh Hx HWx HWh Hb Hl Hcs. unfold rnn_backward.
  cbn [rc_x rc_Wx rc_Wh rc_b rc_steps]. rewrite Hdh, Hx.
  destruct (rnn_backward_loop_shape dh cs n d h Hcs (rev (seq 0 t))
              (Np.zeros [n; h]) (Np.zeros (shape Wx)) (Np.zeros (shape Wh))
              (Np.zeros (shape b)))
    as (dxs & dh0 & dWx & dWh & db & E & ? & ? & ? & ?);
    try (cbn; congruence).
  { rewrite Forall_forall. intros k Hk. apply list_elem_of_In in Hk.
    apply in_rev, in_seq in Hk. lia. }
  run_ok E. eexists _, _, _, _, _. split; [reflexivity|].
  repeat split; assumption.
Qed.

Lemma temporal_affine_forward_shape (x w b : ndarray R) n t d m :
  shape x = [n; t; d] -> shape w = [d; m] -> shape b = [m] ->
  exists out, temporal_affine_forward x w b = Ok (out, (x, w, b)) /\
              shape out = [n; t; m].
Proof.
  intros Hx Hw Hb. unfold temporal_affine_forward, Np.shape0. rewrite Hx, Hb.
  cbn [mbind res_bind rbind].
  rewrite (reshape_ok x) by (rewrite Hx; cbn; lia).
  cbn [mbind res_bind rbind].
  destruct (dot_matrix (NdArray [n * t; d] (data x)) w (n * t) d m eq_refl Hw)
    as (y & E1 & S1 & _). run_ok E1.
  rewrite (reshape_ok y) by (rewrite S1; cbn; lia).
  cbn [mbind res_bind rbind].
  destruct (add_bias (NdArray [n; t; m] (data y)) b [n; t] [m] eq_refl Hb)
    as (out & E2 & S2). run_ok E2.
  exists out. split; [reflexivity|exact S2].
Qed.

Lemma temporal_affine_backward_shape (dout x w b : ndarray R) n t d m :
  shape dout = [n; t; m] -> shape x = [n; t; d] -> shape w = [d; m] ->
  shape b = [m] ->
  exists dx dw db, temporal_affine_backward dout (x, w, b) = Ok (dx, dw, db) /\
    shape dx = [n; t; d] /\ shape dw = [d; m] /\ shape db = [m].
Proof.
  intros Hd Hx Hw Hb. unfold temporal_affine_backward, Np.shape0.
  rewrite Hx, Hb. cbn [mbind res_bind rbind].
  rewrite (reshape_ok dout) by (rewrite Hd; cbn; lia).
  cbn [mbind res_bind rbind].
  destruct (dot_matrix (NdArray [n * t; m] (data dout)) (Np.transpose w)
              (n * t) m d eq_refl) as (dx2 & E1 & S1 & _);
    [rewrite shape_transpose, Hw; reflexivity|]. run_ok E1.
  rewrite (reshape_ok dx2) by (rewrite S1; cbn; lia).
  cbn [mbind res_bind rbind].
  rewrite (reshape_ok x) by (rewrite Hx; cbn; lia).
  cbn [mbind res_bind rbind].
  destruct (dot_matrix (Np.transpose (NdArray [n * t; d] (data x)))
              (NdArray [n * t; m] (data dout)) d (n * t) m eq_refl eq_refl)
    as (dw & E2 & S2 & _). run_ok E2.
  unfold sum_axes01. rewrite Hd. cbn [mbind res_bind rbind].
  eexists _, _, _. split; [reflexivity|]. repeat split; assumption.
Qed.

Lemma temporal_softmax_loss_shape (x : ndarray R) (y : ndarray Z)
    (mask : ndarray bool) n t v :
  shape x = [n; t; v] -> shape y = [n; t] -> shape mask = [n; t] ->
  1 <= v -> tokens_below v y ->
  exists l dx, temporal_softmax_loss x y mask = Ok (l, dx) /\
               shape dx = [n; t; v].
Proof.
  intros Hx Hy Hm Hv Htok. unfold temporal_softmax_loss. rewrite Hx.
  rewrite decide_True by (split; assumption).
  destruct (Nat.eqb_spec v 0); [lia|].
  rewrite tokens_index_ok by assumption.
  eexists _, _. split; reflexivity.
Qed.
End LayerFacts.

(** ** The captions of a training call *)

Ltac in_range_tac :=
  unfold in_range;
  repeat first [ apply Stdlib.Lists.List.Forall2_nil
               | apply Stdlib.Lists.List.Forall2_cons; [lia|] ].

Section Split.
Context {R : Type} `{Scalar R}.

Lemma loss_split_ok (null : Z) (captions : ndarray Z) n t :
  shape captions = [n; t] ->
  exists cin cout mask,
    loss_split null captions = Ok (cin, cout, mask) /\
    shape cin = [n; t - 1] /\ shape cout = [n; t - 1] /\
    shape mask = [n; t - 1] /\
    (forall i j, i < n -> j < t - 1 ->
       get cin [i; j] = get captions [i; j] /\
       get cout [i; j] = get captions [i; j + 1] /\
       (get mask [i; j] = true <-> get cout [i; j] <> null)).
Proof.
  intros Hs. unfold loss_split, Np.all_but_last_col, Np.all_but_first_col,
    Np.slice_cols. rewrite Hs. cbn [mbind res_bind rbind].
  eexists _, _, _. split; [reflexivity|].
  assert (Ht : t - Nat.min 1 t = t - 1) by lia.
  split; [cbn [shape mk]; rewrite Nat.sub_0_r; reflexivity|].
  split; [cbn [shape mk]; rewrite Ht; reflexivity|].
  split; [cbn [shape mk Np.neq_scalar Np.map_arr]; rewrite Ht; reflexivity|].
  intros i j Hi Hj.
  assert (Hr : in_range [n; t - Nat.min 1 t] [i; j])
    by in_range_tac.
  split; [|split].
  - rewrite get_mk by in_range_tac. reflexivity.
  - rewrite get_mk by exact Hr.
    replace (Nat.min 1 t + j) with (j + 1) by lia. reflexivity.
  - unfold Np.neq_scalar.
    rewrite get_map_arr by (try apply wf_mk; exact Hr).
    rewrite negb_true_iff, Z.eqb_neq. reflexivity.
Qed.
End Split.

(** ** A training call on well-formed inputs *)

Lemma in_range_2_inv a b idx :
  in_range [a; b] idx -> exists i j, idx = [i; j] /\ i < a /\ j < b.
Proof.
  intros Hr. inversion Hr as [|i ? r ? Hi Hr']; subst.
  inversion Hr' as [|j ? r' ? Hj Hr'']; subst.
  inversion Hr''; subst. eauto.
Qed.

Ltac run_m E := rewrite E; cbn [self_ features_ captions_ fst snd].

Ltac unfold_m :=
  unfold mbind, M_bind, m_bind, mret, M_ret, m_ret, read, lift, read_param;
  cbn [self_ features_ captions_ fst snd].

Section Training.
Context {R : Type} `{Scalar R}.
Import Layers.

Lemma param_ok (self : CaptioningRNN R) k a :
  params self !! k = Some a -> param self k = Ok a.
Proof. intros E. unfold param. rewrite E. reflexivity. Qed.

Lemma loss_backprop_ok (self : CaptioningRNN R) (features : ndarray R)
    (captions : ndarray Z) n t D W :
  well_shaped self D W -> cell_type self = "rnn" ->
  shape features = [n; D] -> shape captions = [n; t] ->
  tokens_below (vocab_size self) captions ->
  exists bp,
    fst (loss_backprop (Frame self features captions)) = Ok bp /\
    bp_grads bp = (fun _ => None) <$> params self /\
    shape (bp_dW_embed bp) = [vocab_size self; W] /\
    shape (bp_dh0 bp) = [n; hidden_dim self] /\
    shape (bp_dWx bp) = [W; hidden_dim self] /\
    shape (bp_dWh bp) = [hidden_dim self; hidden_dim self] /\
    shape (bp_db bp) = [hidden_dim self] /\
    shape (bp_dW_vocab bp) = [hidden_dim self; vocab_size self] /\
    shape (bp_db_vocab bp) = [vocab_size self] /\
    exists dh cache dx,
      rnn_backward dh cache =
        Ok (dx, bp_dh0 bp, bp_dWx bp, bp_dWh bp, bp_db bp).
Proof.
  intros [Hkeys Hv (We & LWe & SWe) (Wp & LWp & SWp) (bp & Lbp & Sbp)
            (Wx & LWx & SWx) (Wh & LWh & SWh) (b & Lb & Sb)
            (Wv & LWv & SWv) (bv & Lbv & Sbv)] Hcell Hf Hc Htok.
  destruct (loss_split_ok (_null self) captions n t Hc)
    as (cin & cout & mask & Es & Scin & Scout & Smask & Hcells).
  assert (Htin : tokens_below (vocab_size self) cin).
  { intros idx Hr. rewrite Scin in Hr.
    apply in_range_2_inv in Hr as (i & j & -> & Hi & Hj).
    destruct (Hcells i j Hi Hj) as (-> & _). apply Htok. rewrite Hc.
    in_range_tac. }
  assert (Htout : tokens_below (vocab_size self) cout).
  { intros idx Hr. rewrite Scout in Hr.
    apply in_range_2_inv in Hr as (i & j & -> & Hi & Hj).
    destruct (Hcells i j Hi Hj) as (_ & -> & _). apply Htok. rewrite Hc.
    in_range_tac. }
  unfold loss_backprop. unfold_m.
  run_m Es.
  run_m (param_ok self _ _ LWp). run_m (param_ok self _ _ Lbp).
  run_m (param_ok self _ _ LWe). run_m (param_ok self _ _ LWx).
  run_m (param_ok self _ _ LWh). run_m (param_ok self _ _ Lb).
  run_m (param_ok self _ _ LWv). run_m (param_ok self _ _ Lbv).
  destruct (dot_matrix features Wp n D _ Hf SWp) as (fw & E1 & S1 & _).
  run_m E1.
  destruct (add_bias fw bp [n] _ S1 Sbp) as (h0 & E2 & S2). run_m E2.
  destruct (word_embedding_forward_shape cin We _ _ SWe Htin)
    as (x & E3 & S3). run_m E3. rewrite Scin in S3. cbn [app] in S3.
  rewrite Hcell. rewrite decide_True by reflexivity.
  destruct (rnn_forward_shape x h0 Wx Wh b _ _ _ _ S3 S2 SWx SWh Sb)
    as (h & cs & E4 & S4 & Hl & Hcs). run_m E4.
  destruct (temporal_affine_forward_shape h Wv bv _ _ _ _ S4 SWv Sbv)
    as (scores & E5 & S5). run_m E5.
  destruct (temporal_softmax_loss_shape scores cout mask _ _ _ S5 Scout Smask
              Hv Htout) as (l & dscores & E6 & S6). run_m E6.
  destruct (temporal_affine_backward_shape dscores h Wv bv _ _ _ _ S6 S4 SWv Sbv)
    as (dh & dWv & dbv & E7 & S7 & S8 & S9). run_m E7.
  rewrite Hcell. rewrite decide_True by reflexivity.
  destruct (rnn_backward_shape dh x Wx Wh b cs _ _ _ _ S7 S3 SWx SWh Sb Hl Hcs)
    as (dx & dh0 & dWx & dWh & db & E8 & S10 & S11 & S12 & S13 & S14).
  run_m E8.
  destruct (word_embedding_backward_shape dx cin We _ _ SWe)
    as (dWe & E9 & S15); [rewrite S10, Scin; reflexivity|]. run_m E9.
  eexists. split; [reflexivity|]. cbn.
  rewrite S15, SWe. repeat split; try assumption.
  eexists _, _, _. exact E8.
Qed.

Lemma run_loss_backprop (fr : frame R) bp :
  fst (loss_backprop fr) = Ok bp -> loss_backprop fr = (Ok bp, fr).
Proof.
  intros E. rewrite (run_read_only _ fr loss_backprop_read_only), E.
  reflexivity.
Qed.

Lemma shape_transpose_matrix (a : ndarray R) n m :
  shape a = [n; m] -> shape (Np.transpose a) = [m; n].
Proof. intros Ha. rewrite shape_transpose, Ha. reflexivity. Qed.

Lemma get_transpose_matrix (a : ndarray R) n m i j :
  shape a = [n; m] -> i < m -> j < n ->
  get (Np.transpose a) [i; j] = get a [j; i].
Proof.
  intros Ha Hi Hj. unfold Np.transpose. rewrite Ha.
  rewrite get_mk by (cbn; in_range_tac). reflexivity.
Qed.

(** The last lines of [loss] (166-178), from the gradients of the
    backward pass. *)
Lemma loss_from_backprop (fr : frame R) bp n D h :
  fst (loss_backprop fr) = Ok bp ->
  shape (features_ fr) = [n; D] -> shape (bp_dh0 bp) = [n; h] ->
  exists dW_proj db_proj,
    Np.dot (Np.transpose (features_ fr)) (bp_dh0 bp) = Ok dW_proj /\
    Np.sum_axis0 (bp_dh0 bp) = Ok db_proj /\
    shape dW_proj = [D; h] /\ shape db_proj = [h] /\
    fst (loss fr) =
      Ok (bp_loss bp,
          <["b_vocab" := Some (bp_db_vocab bp)]>
          (<["W_vocab" := Some (bp_dW_vocab bp)]>
          (<["b" := Some (bp_db bp)]>
          (<["Wh" := Some (bp_dWh bp)]>
          (<["Wx" := Some (bp_dWx bp)]>
          (<["W_embed" := Some (bp_dW_embed bp)]>
          (<["b_proj" := Some db_proj]>
          (<["W_proj" := Some dW_proj]> (bp_grads bp))))))))).
Proof.
  intros Ebp Hf Hd.
  destruct (sum_axis0_matrix (bp_dh0 bp) n h Hd) as (dbp & E1 & S1 & _).
  destruct (dot_matrix (Np.transpose (features_ fr)) (bp_dh0 bp) D n h
              (shape_transpose_matrix _ _ _ Hf) Hd) as (dWp & E2 & S2 & _).
  exists dWp, dbp. repeat (split; [assumption|]).
  unfold loss. unfold_m. rewrite (run_loss_backprop fr bp Ebp).
  run_m E1. run_m E2. reflexivity.
Qed.
End Training.

(** ** Construction *)

Lemma in_range_indices s idx : in_range s idx -> In idx (indices s).
Proof.
  intros Hr. rewrite <- (nth_indices s idx Hr). apply nth_In.
  rewrite length_indices. apply ravel_lt, Hr.
Qed.

Lemma tokens_below_check v (a : ndarray Z) :
  Layers.all_cells (fun z => (0 <=? z)%Z && (z <? Z.of_nat v)%Z) a = true ->
  tokens_below v a.
Proof.
  unfold Layers.all_cells. rewrite forallb_forall. intros Hall idx Hr.
  specialize (Hall idx (in_range_indices _ _ Hr)).
  apply andb_prop in Hall as [H1 H2].
  apply Z.leb_le in H1. apply Z.ltb_lt in H2. lia.
Qed.

Section Construction.
Context {R : Type} `{Scalar R}.

Lemma init_rnn_ok (w2i : gmap string Z) (D W Hd : nat) (dt : dtype)
    (g : rng_state R) null :
  w2i !! "<NULL>" = Some null ->
  exists m g',
    __init__ w2i D W Hd "rnn" dt g = (Ok m, g') /\
    well_shaped m D W /\ cell_type m = "rnn" /\
    vocab_size m = size w2i /\ hidden_dim m = Hd /\
    word_to_idx m = w2i /\ _null m = null /\
    _start m = w2i !! "<START>" /\ _end m = w2i !! "<END>".
Proof.
  intros Hnull. unfold __init__.
  rewrite decide_False by (intros Hn; apply Hn; set_solver).
  rewrite Hnull. unfold randn, dim_mul_of.
  rewrite decide_False by discriminate. rewrite decide_True by reflexivity.
  rewrite Nat.mul_1_l.
  eexists _, _. split; [reflexivity|]. cbn [cell_type vocab_size hidden_dim
    word_to_idx _null _start _end]. split; [|repeat split].
  assert (Hsize : 1 <= size w2i).
  { destruct (size w2i) eqn:E; [|lia]. apply map_size_empty_iff in E.
    subst w2i. rewrite lookup_empty in Hnull. discriminate. }
  unfold idiv.
  split; cbn [params vocab_size hidden_dim];
    try (eexists; split; [rewrite lookup_fmap; simplify_map_eq; reflexivity
                         | reflexivity ]).
  - rewrite dom_fmap_L. repeat rewrite ?dom_insert_L, ?dom_alter_L.
    unfold param_keys. set_solver.
  - exact Hsize.
Qed.
End Construction.

(** ** Evaluations *)

Example format_invalid_cell_type :
  py_format (String.append "Invalid cell_type "
               (String.append dquote (String.append "%s" dquote))) "gru" =
  Ok (String.append "Invalid cell_type "
        (String.append dquote (String.append "gru" dquote))).
Proof. reflexivity. Qed.

Example format_without_conversion :
  py_format "s not implemented" "lstm" =
  Raise TypeError "not all arguments converted during string formatting".
Proof. reflexivity. Qed.

Example squeeze_drops_unit_axes :
  shape (Np.squeeze (NdArray [2; 1; 3] (repeat 0%Z 6))) = [2; 3] /\
  shape (Np.squeeze (NdArray [1; 1; 3] (repeat 0%Z 3))) = [3] /\
  shape (Np.squeeze (NdArray [2; 1; 1] (repeat 0%Z 2))) = [2].
Proof. repeat split; reflexivity. Qed.

Example broadcast_row_and_column :
  Np.broadcast_shapes [4] [1; 4] = Some [1; 4] /\
  Np.broadcast_shapes [2; 4] [4] = Some [2; 4] /\
  Np.broadcast_shapes [2; 4] [3] = None.
Proof. repeat split; reflexivity. Qed.

Example argmax_takes_first_largest :
  Np.argmax_list Z.ltb [1; 5; 3; 5]%Z = 1.
Proof. reflexivity. Qed.

Example int32_wraps : int32 (2 ^ 31) = (- 2 ^ 31)%Z /\ int32 3 = 3%Z.
Proof. split; reflexivity. Qed.

Example dot_of_matrices :
  Np.dot (NdArray [2; 2] [1; 2; 3; 4]%Z) (NdArray [2; 1] [1; 1]%Z) =
  Ok (NdArray [2; 1] [3; 7]%Z).
Proof. reflexivity. Qed.

(** Both rows emit END (index 2) at once and are decoded to the end. *)
Example sample_scenario :
  sample Example.model Example.features 3 =
  Ok (NdArray [2; 3] [2; 3; 2; 2; 3; 2]%Z).
Proof. vm_compute. reflexivity. Qed.

Example sample_without_end :
  _end Example.model_no_end = None /\
  exists c, sample Example.model_no_end Example.features 3 = Ok c /\
            shape c = [2; 3].
Proof.
  split; [reflexivity|]. eexists. split; [vm_compute; reflexivity|reflexivity].
Qed.

Example sample_single_row :
  exists c, sample Example.model Example.one_feature 3 = Ok c /\
            shape c = [1; 3].
Proof. eexists. split; [vm_compute; reflexivity|reflexivity]. Qed.

(** ** The claims about construction and training *)

(** Evaluation of a concrete model against [well_shaped]. *)
Ltac well_shaped_by_evaluation :=
  constructor;
  first [ vm_compute; reflexivity
        | vm_compute; lia
        | eexists; split; vm_compute; reflexivity ].

Ltac tokens_by_evaluation := apply tokens_below_check; vm_compute; reflexivity.

Lemma sum_upto_ext {R} `{Scalar R} (k : nat) (f g : nat -> R) :
  (forall x, x < k -> f x = g x) -> Np.sum_upto k f = Np.sum_upto k g.
Proof.
  intros Hfg. unfold Np.sum_upto. f_equal. apply map_ext_in.
  intros x Hx. apply in_seq in Hx. apply Hfg. lia.
Qed.

Section TrainingClaims.
Context {R : Type} `{Scalar R}.

(** C1: on a well-formed vanilla-RNN model, a features batch (N, D) and a
    captions batch (N, T) of vocabulary indices, [loss] returns a gradient
    dictionary whose keys are exactly W_embed, W_proj, b_proj, Wx, Wh, b,
    W_vocab and b_vocab, the keys of the parameter dictionary, and under
    every key a gradient array of the same shape as the parameter. *)
Theorem loss_grads_parallel_to_params (self : CaptioningRNN R)
    (features : ndarray R) (captions : ndarray Z) (n t D W : nat) :
  well_shaped self D W -> cell_type self = "rnn" ->
  shape features = [n; D] -> shape captions = [n; t] ->
  tokens_below (vocab_size self) captions ->
  exists l g,
    fst (loss (Frame self features captions)) = Ok (l, g) /\
    dom g = param_keys /\ dom g = dom (params self) /\
    forall k p, params self !! k = Some p ->
      exists a, g !! k = Some (Some a) /\ shape a = shape p.
Proof.
  intros Hws Hcell Hf Hc Htok.
  destruct (loss_backprop_ok self features captions n t D W Hws Hcell Hf Hc Htok)
    as (bp & Ebp & Hg & SWe & Sh0 & SWx & SWh & Sb & SWv & Sbv & _).
  destruct (loss_from_backprop (Frame self features captions) bp n D _ Ebp Hf Sh0)
    as (dWp & dbp & _ & _ & SdW & Sdb & Eloss).
  destruct Hws as [Hkeys Hv (We & LWe & HWe) (Wp & LWp & HWp) (bpj & Lbp & Hbp)
            (Wx & LWx & HWx) (Wh & LWh & HWh) (b & Lb & Hb)
            (Wv & LWv & HWv) (bv & Lbv & Hbv)].
  eexists _, _. split; [exact Eloss|].
  assert (Hdom : dom (<["b_vocab" := Some (bp_db_vocab bp)]>
          (<["W_vocab" := Some (bp_dW_vocab bp)]>
          (<["b" := Some (bp_db bp)]>
          (<["Wh" := Some (bp_dWh bp)]>
          (<["Wx" := Some (bp_dWx bp)]>
          (<["W_embed" := Some (bp_dW_embed bp)]>
          (<["b_proj" := Some dbp]>
          (<["W_proj" := Some dWp]> (bp_grads bp))))))))) = param_keys).
  { rewrite !dom_insert_L, Hg, dom_fmap_L, Hkeys. unfold param_keys.
    set_solver. }
  split; [exact Hdom|]. split; [rewrite Hdom, Hkeys; reflexivity|].
  intros k p Hk.
  assert (Hin : k ∈ param_keys).
  { rewrite <- Hkeys. apply elem_of_dom. eauto. }
  unfold param_keys in Hin.
  rewrite !elem_of_union, !elem_of_singleton in Hin.
  destruct Hin as [[[[[[[-> | ->] | ->] | ->] | ->] | ->] | ->] | ->];
    simplify_map_eq; eexists; (split; [reflexivity|congruence]).
Qed.

(** C6: the gradients stored under W_proj and b_proj are computed from
    the initial-hidden-state gradient dh0 that rnn_backward returns:
    dW_proj is the product of the transposed features with dh0 and
    db_proj is the sum of dh0 over the batch axis. *)
Theorem loss_projection_gradients (self : CaptioningRNN R)
    (features : ndarray R) (captions : ndarray Z) (n t D W : nat) :
  well_shaped self D W -> cell_type self = "rnn" ->
  shape features = [n; D] -> shape captions = [n; t] ->
  tokens_below (vocab_size self) captions ->
  exists l g bp dW_proj db_proj,
    fst (loss (Frame self features captions)) = Ok (l, g) /\
    fst (loss_backprop (Frame self features captions)) = Ok bp /\
    (exists dh cache dx,
       Layers.rnn_backward dh cache =
         Ok (dx, bp_dh0 bp, bp_dWx bp, bp_dWh bp, bp_db bp)) /\
    Np.dot (Np.transpose features) (bp_dh0 bp) = Ok dW_proj /\
    Np.sum_axis0 (bp_dh0 bp) = Ok db_proj /\
    g !! "W_proj" = Some (Some dW_proj) /\
    g !! "b_proj" = Some (Some db_proj) /\
    (forall i j, i < D -> j < hidden_dim self ->
       get dW_proj [i; j] =
       Np.sum_upto n (fun c =>
         s_mul (get features [c; i]) (get (bp_dh0 bp) [c; j]))) /\
    (forall j, j < hidden_dim self ->
       get db_proj [j] = Np.sum_upto n (fun c => get (bp_dh0 bp) [c; j])).
Proof.
  intros Hws Hcell Hf Hc Htok.
  destruct (loss_backprop_ok self features captions n t D W Hws Hcell Hf Hc Htok)
    as (bp & Ebp & Hg & SWe & Sh0 & SWx & SWh & Sb & SWv & Sbv & Hrnn).
  destruct (loss_from_backprop (Frame self features captions) bp n D _ Ebp Hf Sh0)
    as (dWp & dbp & EdW & Edb & SdW & Sdb & Eloss).
  cbn [features_] in EdW.
  exists (bp_loss bp). eexists. exists bp, dWp, dbp.
  split; [exact Eloss|]. split; [exact Ebp|]. split; [exact Hrnn|].
  split; [exact EdW|]. split; [exact Edb|].
  split; [simplify_map_eq; reflexivity|].
  split; [simplify_map_eq; reflexivity|]. split.
  - intros i j Hi Hj.
    destruct (dot_matrix (Np.transpose features) (bp_dh0 bp) D n _
                (shape_transpose_matrix _ _ _ Hf) Sh0) as (c & Ec & _ & Hcell').
    rewrite EdW in Ec. injection Ec as <-. rewrite (Hcell' i j Hi Hj).
    apply sum_upto_ext. intros x Hx.
    rewrite (get_transpose_matrix features n D i x Hf Hi Hx). reflexivity.
  - intros j Hj.
    destruct (sum_axis0_matrix (bp_dh0 bp) n _ Sh0) as (c & Ec & _ & Hcell').
    rewrite Edb in Ec. injection Ec as <-. apply Hcell', Hj.
Qed.

(** C7: a cell type other than "rnn" and "lstm" makes the constructor
    raise ValueError; no instance, hence no parameter dictionary, comes
    into being and the random generator has not been drawn from. *)
Theorem init_rejects_unknown_cell_type (w2i : gmap string Z)
    (input_dim wordvec_dim hidden : nat) (cell : string) (dt : dtype)
    (g : rng_state R) :
  cell ≠ "rnn" -> cell ≠ "lstm" ->
  __init__ w2i input_dim wordvec_dim hidden cell dt g =
  (Raise ValueError
     (String.append "Invalid cell_type "
        (String.append dquote (String.append cell dquote))), g).
Proof.
  intros Hrnn Hlstm. unfold __init__.
  rewrite decide_True; [reflexivity|].
  intros Hin. apply elem_of_union in Hin as [Hin|Hin];
    apply elem_of_singleton in Hin; contradiction.
Qed.
End TrainingClaims.

Lemma loss_grads_parallel_to_params_witness :
  exists l g,
    fst (loss (Frame Example.model Example.features Example.captions))
      = Ok (l, g) /\
    dom g = param_keys /\ dom g = dom (params Example.model) /\
    forall k p, params Example.model !! k = Some p ->
      exists a, g !! k = Some (Some a) /\ shape a = shape p.
Proof.
  apply (loss_grads_parallel_to_params Example.model Example.features
           Example.captions 2 4 4 4).
  - well_shaped_by_evaluation.
  - reflexivity.
  - reflexivity.
  - reflexivity.
  - tokens_by_evaluation.
Defined.

Lemma init_rejects_unknown_cell_type_witness :
  __init__ Example.vocab 4 4 4 "gru" float32 Example.gen =
  (Raise ValueError
     (String.append "Invalid cell_type "
        (String.append dquote (String.append "gru" dquote))), Example.gen).
Proof.
  apply (init_rejects_unknown_cell_type Example.vocab 4 4 4 "gru" float32
           Example.gen); discriminate.
Defined.

(** ** One decoding step *)

Lemma squeezed_pair n w :
  filter (fun d => d ≠ 1) [n; w] =
  if decide (n = 1) then (if decide (w = 1) then [] else [w])
  else (if decide (w = 1) then [n] else [n; w]).
Proof.
  rewrite !filter_cons, filter_nil.
  repeat case_decide; try reflexivity; congruence.
Qed.

Lemma squeezed_triple n w :
  filter (fun d => d ≠ 1) [n; 1; w] = filter (fun d => d ≠ 1) [n; w].
Proof.
  rewrite !filter_cons, filter_nil.
  repeat case_decide; try reflexivity; congruence.
Qed.

Lemma int32_small z : (0 <= z < 2 ^ 31)%Z -> int32 z = z.
Proof.
  intros Hz. unfold int32. rewrite Z.mod_small by lia. lia.
Qed.

Lemma argmax_from_lt {R} (ltb : R -> R -> bool) (l : list R) :
  forall best bestv i, best < i ->
    Np.argmax_from ltb best bestv i l < i + length l.
Proof.
  induction l as [|x l IH]; intros best bestv i Hb; cbn [Np.argmax_from length].
  - lia.
  - destruct (ltb bestv x).
    + specialize (IH i x (S i)). lia.
    + specialize (IH best bestv (S i)). lia.
Qed.

Lemma argmax_list_lt {R} (ltb : R -> R -> bool) (l : list R) :
  l <> [] -> Np.argmax_list ltb l < length l.
Proof.
  destruct l as [|x l]; [congruence|]. intros _. cbn [Np.argmax_list length].
  pose proof (argmax_from_lt ltb l 0 x 1). lia.
Qed.

Section DecodeStep.
Context {R : Type} `{Scalar R}.
Import Layers.

Lemma best_word_lt v (score : ndarray R) i : 1 <= v -> best_word v score i < v.
Proof.
  intros Hv. unfold best_word.
  pose proof (argmax_list_lt s_ltb
                (map (fun c => get score [i; 0; c]) (seq 0 v))) as Hlt.
  rewrite length_map, length_seq in Hlt. apply Hlt.
  destruct v; [lia|]. discriminate.
Qed.

Lemma rnn_step_forward_squeezed (x prev_h Wx Wh b : ndarray R) n w h :
  shape x = filter (fun d => d ≠ 1) [n; w] -> w ≠ 1 \/ n = 1 ->
  shape prev_h = [n; h] -> shape Wx = [w; h] -> shape Wh = [h; h] ->
  shape b = [h] ->
  exists next_h c, rnn_step_forward x prev_h Wx Wh b = Ok (next_h, c) /\
                   shape next_h = [n; h].
Proof.
  intros Hx Hsq Hp HWx HWh Hb. rewrite squeezed_pair in Hx.
  unfold rnn_step_forward.
  destruct (dot_matrix prev_h Wh n h h Hp HWh) as (hw & E2 & S2 & _).
  assert (Hxw : exists xw, Np.dot x Wx = Ok xw /\
            (shape xw = [n; h] \/ (n = 1 /\ shape xw = [h]))).
  { destruct (decide (n = 1)) as [->|Hn], (decide (w = 1)) as [->|Hw].
    - destruct (dot_scalar_l x Wx Hx) as (xw & E & S).
      exists xw. split; [exact E|]. left. congruence.
    - destruct (dot_vector_matrix x Wx w h Hx HWx) as (xw & E & S).
      exists xw. split; [exact E|]. right. split; [reflexivity|exact S].
    - destruct Hsq; congruence.
    - destruct (dot_matrix x Wx n w h Hx HWx) as (xw & E & S & _).
      exists xw. split; [exact E|]. left. exact S. }
  destruct Hxw as (xw & E1 & S1). run_ok E1. run_ok E2.
  assert (Hs : exists s, Np.add xw hw = Ok s /\ shape s = [n; h]).
  { destruct S1 as [S1|[-> S1]].
    - apply add_same; assumption.
    - apply (add_row xw hw [1] [h]); assumption. }
  destruct Hs as (s & E3 & S3). run_ok E3.
  destruct (add_bias s b [n] [h] S3 Hb) as (z & E4 & S4). run_ok E4.
  eexists _, _. split; [reflexivity|exact S4].
Qed.

Lemma sample_step_ok (W_embed Wx Wh b W_vocab b_vocab : ndarray R)
    (capt : ndarray Z) (prev_h : ndarray R) n v w h :
  shape W_embed = [v; w] -> shape Wx = [w; h] -> shape Wh = [h; h] ->
  shape b = [h] -> shape W_vocab = [h; v] -> shape b_vocab = [v] ->
  1 <= v -> w ≠ 1 \/ n = 1 ->
  shape capt = [n] \/ shape capt = [n; 1] -> tokens_below v capt ->
  shape prev_h = [n; h] ->
  exists next_h score am,
    sample_step W_embed Wx Wh b W_vocab b_vocab capt prev_h =
      Ok (next_h, score, Np.squeeze am) /\
    shape next_h = [n; h] /\ shape score = [n; 1; v] /\
    am = mk [n; 1] (fun idx =>
           match idx with
           | i :: j :: r =>
               Z.of_nat (Np.argmax_list s_ltb
                 (map (fun c => get score (i :: j :: c :: r)) (seq 0 v)))
           | _ => 0%Z
           end).
Proof.
  intros HWe HWx HWh Hb HWv Hbv Hv Hsq Hcapt Htok Hp. unfold sample_step.
  destruct (word_embedding_forward_shape capt W_embed v [w] HWe Htok)
    as (we & E1 & S1). run_ok E1.
  assert (Sx : shape (Np.squeeze we) = filter (fun d => d ≠ 1) [n; w]).
  { unfold Np.squeeze. cbn [shape]. rewrite S1.
    destruct Hcapt as [-> | ->]; cbn [app];
      [reflexivity|apply squeezed_triple]. }
  destruct (rnn_step_forward_squeezed (Np.squeeze we) prev_h Wx Wh b n w h
              Sx Hsq Hp HWx HWh Hb) as (nh & c & E2 & S2). run_ok E2.
  unfold Np.newaxis1. rewrite S2. cbn [mbind res_bind rbind].
  destruct (temporal_affine_forward_shape (NdArray [n; 1; h] (data nh))
              W_vocab b_vocab n 1 h v eq_refl HWv Hbv) as (score & E3 & S3).
  run_ok E3. unfold Np.argmax_axis2. rewrite S3.
  destruct (Nat.eqb_spec v 0); [lia|]. cbn [mbind res_bind rbind].
  eexists _, _, _. split; [reflexivity|]. split; [exact S2|].
  split; [exact S3|reflexivity].
Qed.
End DecodeStep.

(** ** Columns of the captions *)

Lemma in_range_1_inv a idx : in_range [a] idx -> exists i, idx = [i] /\ i < a.
Proof.
  intros Hr. inversion Hr as [|i ? r ? Hi Hr']; subst.
  inversion Hr'; subst. eauto.
Qed.

Section Columns.
Context {R : Type} `{Scalar R}.

(** The cell of a squeezed (N, 1) array that lands in row [i] of the
    column it is assigned to. *)
Lemma set_col_squeezed (captions am : ndarray Z) n l t :
  shape captions = [n; l] -> t < l -> shape am = [n; 1] ->
  exists c,
    Np.set_col int32 captions t (Np.squeeze am) = Ok c /\
    shape c = [n; l] /\
    forall i j, i < n -> j < l ->
      get c [i; j] = if j =? t then int32 (get am [i; 0])
                     else get captions [i; j].
Proof.
  intros Hc Ht Ha. unfold Np.set_col. rewrite Hc.
  destruct (Nat.ltb_spec t l); [|lia].
  assert (Hsq : shape (Np.squeeze am) = if decide (n = 1) then [] else [n]).
  { unfold Np.squeeze. cbn [shape]. rewrite Ha, !filter_cons, filter_nil.
    repeat case_decide; try reflexivity; congruence. }
  rewrite Hsq. destruct (decide (n = 1)) as [->|Hn].
  - cbn [length Nat.sub Np.strip_ones].
    rewrite decide_True by reflexivity.
    eexists. split; [reflexivity|]. split; [reflexivity|].
    intros i j Hi Hj. rewrite get_mk by in_range_tac.
    destruct (j =? t); [|reflexivity]. f_equal.
    assert (i = 0) as -> by lia. unfold get. rewrite Ha. reflexivity.
  - cbn [length Nat.sub Np.strip_ones].
    rewrite decide_True by apply broadcast_shapes_same.
    eexists. split; [reflexivity|]. split; [reflexivity|].
    intros i j Hi Hj. rewrite get_mk by in_range_tac.
    destruct (j =? t); [|reflexivity]. f_equal.
    unfold Np.bproj. cbn [length Nat.sub drop zip_with].
    destruct (Nat.eqb_spec n 1); [contradiction|].
    unfold get. rewrite Ha. cbn [shape data Np.squeeze ravel size_of fold_right].
    f_equal; lia.
Qed.

Lemma get_col_matrix (c : ndarray Z) n l t :
  shape c = [n; l] -> t < l ->
  Np.get_col c t =
    Ok (mk [n] (fun idx => match idx with
                           | i :: r => get c (i :: t :: r)
                           | [] => inhabitant
                           end)).
Proof.
  intros Hc Ht. unfold Np.get_col. rewrite Hc.
  destruct (Nat.ltb_spec t l); [reflexivity|lia].
Qed.

Lemma tokens_below_best_words n v (score : ndarray R) :
  1 <= v -> tokens_below v (best_words n v score).
Proof.
  intros Hv idx Hr. cbn [shape best_words mk] in Hr.
  apply in_range_1_inv in Hr as (i & -> & Hi).
  unfold best_words. rewrite get_mk by in_range_tac.
  pose proof (best_word_lt v score i Hv). lia.
Qed.

(** One pass of the body of the loop of [sample] at column [t]. *)
Lemma decode_column_ok (W_embed Wx Wh b W_vocab b_vocab : ndarray R)
    (captions capt : ndarray Z) (prev_h : ndarray R) n l t v w h :
  shape W_embed = [v; w] -> shape Wx = [w; h] -> shape Wh = [h; h] ->
  shape b = [h] -> shape W_vocab = [h; v] -> shape b_vocab = [v] ->
  1 <= v -> (Z.of_nat v <= 2 ^ 31)%Z -> w ≠ 1 \/ n = 1 ->
  shape capt = [n] \/ shape capt = [n; 1] -> tokens_below v capt ->
  shape prev_h = [n; h] -> shape captions = [n; l] -> t < l ->
  exists next_h score output_word c,
    sample_step W_embed Wx Wh b W_vocab b_vocab capt prev_h =
      Ok (next_h, score, output_word) /\
    shape next_h = [n; h] /\ shape score = [n; 1; v] /\
    Np.set_col int32 captions t output_word = Ok c /\
    shape c = [n; l] /\
    (forall i j, i < n -> j < l ->
       get c [i; j] = if j =? t then Z.of_nat (best_word v score i)
                      else get captions [i; j]) /\
    Np.get_col c t = Ok (best_words n v score).
Proof.
  intros HWe HWx HWh Hb HWv Hbv Hv Hv32 Hsq Hcapt Htok Hp Hc Ht.
  destruct (sample_step_ok W_embed Wx Wh b W_vocab b_vocab capt prev_h n v w h
              HWe HWx HWh Hb HWv Hbv Hv Hsq Hcapt Htok Hp)
    as (nh & score & am & E1 & S1 & S2 & Ham).
  assert (Sam : shape am = [n; 1]) by (rewrite Ham; reflexivity).
  assert (Hget : forall i, i < n ->
            int32 (get am [i; 0]) = Z.of_nat (best_word v score i)).
  { intros i Hi. rewrite Ham, get_mk by in_range_tac.
    fold (best_word v score i). apply int32_small.
    pose proof (best_word_lt v score i Hv). lia. }
  destruct (set_col_squeezed captions am n l t Hc Ht Sam)
    as (c & E2 & S3 & Hcells).
  exists nh, score, (Np.squeeze am), c.
  repeat (split; [assumption|]). split.
  - intros i j Hi Hj. rewrite (Hcells i j Hi Hj).
    destruct (j =? t); [apply Hget, Hi|reflexivity].
  - rewrite (get_col_matrix c n l t S3 Ht). f_equal. unfold best_words.
    apply mk_ext. intros idx Hr.
    apply in_range_1_inv in Hr as (i & -> & Hi).
    rewrite (Hcells i t Hi Ht), Nat.eqb_refl. apply Hget, Hi.
Qed.

(** The loop of [sample] from column [t0] on, against the greedy
    decoder. *)
Lemma sample_loop_ok (W_embed Wx Wh b W_vocab b_vocab : ndarray R) n l v w h :
  shape W_embed = [v; w] -> shape Wx = [w; h] -> shape Wh = [h; h] ->
  shape b = [h] -> shape W_vocab = [h; v] -> shape b_vocab = [v] ->
  1 <= v -> (Z.of_nat v <= 2 ^ 31)%Z -> w ≠ 1 \/ n = 1 ->
  forall k t0 (captions capt : ndarray Z) (prev_h : ndarray R),
    t0 + k = l -> shape captions = [n; l] -> shape capt = [n] ->
    tokens_below v capt -> shape prev_h = [n; h] ->
    exists c scores,
      sample_loop W_embed Wx Wh b W_vocab b_vocab (seq t0 k)
        captions capt prev_h = Ok c /\
      greedy_scores W_embed Wx Wh b W_vocab b_vocab n v k capt prev_h
        = Ok scores /\
      length scores = k /\ shape c = [n; l] /\
      (forall i j, i < n -> j < t0 -> get c [i; j] = get captions [i; j]) /\
      (forall i j score, i < n -> scores !! j = Some score ->
         get c [i; t0 + j] = Z.of_nat (best_word v score i)).
Proof.
  intros HWe HWx HWh Hb HWv Hbv Hv Hv32 Hsq.
  induction k as [|k IH]; intros t0 captions capt prev_h Hl Hc Hcapt Htok Hp.
  - exists captions, []. cbn [seq sample_loop greedy_scores].
    repeat split; try assumption; try reflexivity.
    intros i j score _ Hj. rewrite lookup_nil in Hj. discriminate.
  - cbn [seq sample_loop greedy_scores].
    destruct (decode_column_ok W_embed Wx Wh b W_vocab b_vocab captions capt
                prev_h n l t0 v w h HWe HWx HWh Hb HWv Hbv Hv Hv32 Hsq
                (or_introl Hcapt) Htok Hp Hc ltac:(lia))
      as (nh & score & ow & c1 & E1 & S1 & S2 & E2 & S3 & Hcells & E3).
    run_ok E1. run_ok E2. run_ok E3.
    destruct (IH (S t0) c1 (best_words n v score) nh ltac:(lia) S3 eq_refl
                (tokens_below_best_words n v score Hv) S1)
      as (c & scores & E4 & E5 & Hlen & S4 & Hold & Hnew).
    run_ok E5. exists c, (score :: scores).
    split; [exact E4|]. split; [reflexivity|].
    split; [cbn; lia|]. split; [exact S4|]. split.
    + intros i j Hi Hj. rewrite (Hold i j Hi ltac:(lia)).
      rewrite (Hcells i j Hi ltac:(lia)).
      destruct (Nat.eqb_spec j t0); [lia|reflexivity].
    + intros i j sc Hi Hj. destruct j as [|j].
      * cbn in Hj. injection Hj as <-. rewrite Nat.add_0_r.
        rewrite (Hold i t0 Hi ltac:(lia)).
        rewrite (Hcells i t0 Hi ltac:(lia)), Nat.eqb_refl. reflexivity.
      * cbn in Hj. replace (t0 + S j) with (S t0 + j) by lia.
        apply Hnew; assumption.
Qed.
End Columns.

(** ** A call of [sample] on well-formed inputs *)

Section Sampling.
Context {R : Type} `{Scalar R}.

Lemma tokens_below_start_column s n v :
  (0 <= s < Z.of_nat v)%Z -> (Z.of_nat v <= 2 ^ 31)%Z ->
  tokens_below v (Np.scaled_ones_int32 s [n; 1]).
Proof.
  intros Hs Hv idx Hr. unfold Np.scaled_ones_int32, full in *.
  rewrite get_mk by exact Hr. rewrite Z.mul_1_r, int32_small; lia.
Qed.

(** [sample] against the greedy decoder: the call returns, the decoder
    yields one score array per column, and every cell of the result is the
    arg-max of its column's scores.  The first step is written out. *)
Lemma sample_ok (self : CaptioningRNN R) (features : ndarray R)
    (D W n l : nat) :
  sample_ready self D W features n -> 1 <= l ->
  exists W_proj b_proj W_embed Wx Wh b W_vocab b_vocab fw h0 s next_h score0
         word0 scores c,
    params self !! "W_proj" = Some W_proj /\
    params self !! "b_proj" = Some b_proj /\
    params self !! "W_embed" = Some W_embed /\
    params self !! "Wx" = Some Wx /\
    params self !! "Wh" = Some Wh /\
    params self !! "b" = Some b /\
    params self !! "W_vocab" = Some W_vocab /\
    params self !! "b_vocab" = Some b_vocab /\
    Np.dot features W_proj = Ok fw /\ Np.add fw b_proj = Ok h0 /\
    _start self = Some s /\
    sample_step W_embed Wx Wh b W_vocab b_vocab
      (Np.scaled_ones_int32 s [n; 1]) h0 = Ok (next_h, score0, word0) /\
    greedy_decode self features l = Ok (score0 :: scores) /\
    length (score0 :: scores) = l /\
    sample self features l = Ok c /\ shape c = [n; l] /\
    forall i j score, i < n -> (score0 :: scores) !! j = Some score ->
      get c [i; j] = Z.of_nat (best_word (vocab_size self) score i).
Proof.
  intros [[Hkeys Hv (We & LWe & SWe) (Wp & LWp & SWp) (bp & Lbp & Sbp)
            (Wx & LWx & SWx) (Wh & LWh & SWh) (b & Lb & Sb)
            (Wv & LWv & SWv) (bv & Lbv & Sbv)] Hv32 (s & Hs & Hsr) Hf Hn Hsq] Hl.
  destruct (dot_matrix features Wp n D _ Hf SWp) as (fw & E1 & S1 & _).
  destruct (add_bias fw bp [n] _ S1 Sbp) as (h0 & E2 & S2).
  pose proof (tokens_below_start_column s n _ Hsr Hv32) as Htok.
  destruct (decode_column_ok We Wx Wh b Wv bv
              (Np.scaled_ones_int32 (_null self) [n; l])
              (Np.scaled_ones_int32 s [n; 1]) h0 n l 0 _ W _
              SWe SWx SWh Sb SWv Sbv Hv Hv32 Hsq (or_intror eq_refl) Htok S2
              eq_refl ltac:(lia))
    as (nh & score0 & ow & c1 & E3 & S3 & S4 & E4 & S5 & Hcells & E5).
  destruct l as [|k]; [lia|].
  destruct (sample_loop_ok We Wx Wh b Wv bv n (S k) _ W _ SWe SWx SWh Sb SWv
              Sbv Hv Hv32 Hsq k 1 c1 (best_words n (vocab_size self) score0)
              nh eq_refl S5 eq_refl
              (tokens_below_best_words n _ score0 Hv) S3)
    as (c & scores & E6 & E7 & Hlen & S6 & Hold & Hnew).
  exists Wp, bp, We, Wx, Wh, b, Wv, bv, fw, h0, s, nh, score0, ow, scores, c.
  repeat (split; [assumption|]).
  assert (Eg : greedy_decode self features (S k) = Ok (score0 :: scores)).
  { unfold greedy_decode, Np.shape0. rewrite Hf. cbn [mbind res_bind rbind].
    run_ok (param_ok self _ _ LWp). run_ok (param_ok self _ _ Lbp).
    run_ok (param_ok self _ _ LWe). run_ok (param_ok self _ _ LWx).
    run_ok (param_ok self _ _ LWh). run_ok (param_ok self _ _ Lb).
    run_ok (param_ok self _ _ LWv). run_ok (param_ok self _ _ Lbv).
    run_ok E1. run_ok E2. rewrite Hs. cbn [start_column mbind res_bind rbind].
    cbn [greedy_scores]. run_ok E3. run_ok E7. reflexivity. }
  split; [exact Eg|]. split; [cbn; lia|].
  assert (Es : sample self features (S k) = Ok c).
  { unfold sample, Np.shape0. rewrite Hf. cbn [mbind res_bind rbind].
    run_ok (param_ok self _ _ LWp). run_ok (param_ok self _ _ Lbp).
    run_ok (param_ok self _ _ LWe). run_ok (param_ok self _ _ LWx).
    run_ok (param_ok self _ _ LWh). run_ok (param_ok self _ _ Lb).
    run_ok (param_ok self _ _ LWv). run_ok (param_ok self _ _ Lbv).
    run_ok E1. run_ok E2. rewrite Hs. cbn [start_column mbind res_bind rbind].
    run_ok E3. run_ok E4. run_ok E5. unfold Np.row0. rewrite S5.
    destruct (Nat.ltb_spec 0 n); [|lia]. cbn [mbind res_bind rbind].
    unfold Np.len. cbn [shape mk mbind res_bind rbind].
    replace (S k - 1) with k by lia. exact E6. }
  split; [exact Es|]. split; [exact S6|].
  intros i j score Hi Hj. destruct j as [|j].
  - cbn in Hj. injection Hj as <-. rewrite (Hold i 0 Hi ltac:(lia)).
    rewrite (Hcells i 0 Hi ltac:(lia)). reflexivity.
  - cbn in Hj. apply (Hnew i j score Hi Hj).
Qed.
End Sampling.

(** ** Calls of [sample] that cannot return *)

Section SamplingLimits.
Context {R : Type} `{Scalar R}.
Import Layers.

(** A batch without rows: every step runs on empty arrays, then
    [captions[0]] is out of bounds. *)
Lemma sample_empty_batch (self : CaptioningRNN R) (features : ndarray R)
    (D W l : nat) s :
  well_shaped self D W -> (Z.of_nat (vocab_size self) <= 2 ^ 31)%Z ->
  _start self = Some s -> (0 <= s < Z.of_nat (vocab_size self))%Z ->
  shape features = [0; D] -> W ≠ 1 -> 1 <= l ->
  sample self features l =
  Raise IndexError "index 0 is out of bounds for axis 0".
Proof.
  intros [Hkeys Hv (We & LWe & SWe) (Wp & LWp & SWp) (bp & Lbp & Sbp)
            (Wx & LWx & SWx) (Wh & LWh & SWh) (b & Lb & Sb)
            (Wv & LWv & SWv) (bv & Lbv & Sbv)] Hv32 Hs Hsr Hf HW Hl.
  destruct (dot_matrix features Wp 0 D _ Hf SWp) as (fw & E1 & S1 & _).
  destruct (add_bias fw bp [0] _ S1 Sbp) as (h0 & E2 & S2).
  pose proof (tokens_below_start_column s 0 _ Hsr Hv32) as Htok.
  destruct (decode_column_ok We Wx Wh b Wv bv
              (Np.scaled_ones_int32 (_null self) [0; l])
              (Np.scaled_ones_int32 s [0; 1]) h0 0 l 0 _ W _
              SWe SWx SWh Sb SWv Sbv Hv Hv32 (or_introl HW)
              (or_intror eq_refl) Htok S2 eq_refl ltac:(lia))
    as (nh & score0 & ow & c1 & E3 & S3 & S4 & E4 & S5 & Hcells & E5).
  unfold sample, Np.shape0. rewrite Hf. cbn [mbind res_bind rbind].
  run_ok (param_ok self _ _ LWp). run_ok (param_ok self _ _ Lbp).
  run_ok (param_ok self _ _ LWe). run_ok (param_ok self _ _ LWx).
  run_ok (param_ok self _ _ LWh). run_ok (param_ok self _ _ Lb).
  run_ok (param_ok self _ _ LWv). run_ok (param_ok self _ _ Lbv).
  run_ok E1. run_ok E2. rewrite Hs. cbn [start_column mbind res_bind rbind].
  run_ok E3. run_ok E4. run_ok E5. unfold Np.row0. rewrite S5. reflexivity.
Qed.

(** Word vectors of dimension 1 on a batch of several rows: the squeeze
    leaves a vector of N cells, which the (1, H) matrix Wx cannot
    multiply. *)
Lemma sample_narrow_word_vectors (self : CaptioningRNN R)
    (features : ndarray R) (D n l : nat) s :
  well_shaped self D 1 -> _start self = Some s ->
  (0 <= s < Z.of_nat (vocab_size self))%Z ->
  (Z.of_nat (vocab_size self) <= 2 ^ 31)%Z ->
  shape features = [n; D] -> n ≠ 1 ->
  sample self features l = Raise ValueError "shapes not aligned".
Proof.
  intros [Hkeys Hv (We & LWe & SWe) (Wp & LWp & SWp) (bp & Lbp & Sbp)
            (Wx & LWx & SWx) (Wh & LWh & SWh) (b & Lb & Sb)
            (Wv & LWv & SWv) (bv & Lbv & Sbv)] Hs Hsr Hv32 Hf Hn.
  destruct (dot_matrix features Wp n D _ Hf SWp) as (fw & E1 & S1 & _).
  destruct (add_bias fw bp [n] _ S1 Sbp) as (h0 & E2 & S2).
  pose proof (tokens_below_start_column s n _ Hsr Hv32) as Htok.
  destruct (word_embedding_forward_shape (Np.scaled_ones_int32 s [n; 1]) We
              _ [1] SWe Htok) as (we & E3 & S3).
  assert (Sx : shape (Np.squeeze we) = [n]).
  { unfold Np.squeeze. cbn [shape]. rewrite S3. cbn [shape app mk
      Np.scaled_ones_int32 full]. rewrite !filter_cons, filter_nil.
    repeat case_decide; try reflexivity; congruence. }
  unfold sample, Np.shape0. rewrite Hf. cbn [mbind res_bind rbind].
  run_ok (param_ok self _ _ LWp). run_ok (param_ok self _ _ Lbp).
  run_ok (param_ok self _ _ LWe). run_ok (param_ok self _ _ LWx).
  run_ok (param_ok self _ _ LWh). run_ok (param_ok self _ _ Lb).
  run_ok (param_ok self _ _ LWv). run_ok (param_ok self _ _ Lbv).
  run_ok E1. run_ok E2. rewrite Hs. cbn [start_column mbind res_bind rbind].
  unfold sample_step. run_ok E3. unfold rnn_step_forward.
  rewrite (dot_misaligned (Np.squeeze we) Wx n 1 _ Sx SWx Hn). reflexivity.
Qed.
End SamplingLimits.

(** ** The exceptions a call can raise *)

Lemma other_outcome_ok {A} (a : A) : other_outcome (Ok a).
Proof. intros msg. discriminate. Qed.

Lemma other_outcome_raise {A} c msg :
  c <> NotImplementedError -> other_outcome (Raise (A := A) c msg).
Proof. intros Hc msg' E. injection E as -> _. contradiction. Qed.

Lemma other_outcome_bind {A B} (x : res A) (k : A -> res B) :
  other_outcome x -> (forall a, other_outcome (k a)) -> other_outcome (x ≫= k).
Proof.
  intros Hx Hk. destruct x as [a|c m].
  - apply Hk.
  - intros msg E. apply (Hx msg). injection E as -> ->. reflexivity.
Qed.

Create HintDb outcome.
#[global] Hint Resolve other_outcome_ok : outcome.
#[global] Hint Extern 1 (other_outcome (Raise _ _)) =>
  apply other_outcome_raise; discriminate : outcome.

(** Rules out NotImplementedError for a computation built from binds,
    matches and operations already known not to raise it. *)
Ltac outcome_step :=
  first
    [ solve [ auto with outcome ]
    | apply other_outcome_bind; [| intros ? ]
    | match goal with
      | |- other_outcome (match ?x with _ => _ end) => destruct x
      | |- other_outcome (if ?c then _ else _) => destruct c
      | |- other_outcome (let '(_, _) := ?x in _) => destruct x
      end ].

Ltac outcome_of f := unfold f; repeat outcome_step.

Section Outcomes.
Context {R : Type} `{Scalar R}.
Import Layers.

Lemma other_broadcast2 {A B C} `{Inhabited A} `{Inhabited B} `{Inhabited C}
    (f : A -> B -> C) a b : other_outcome (Np.broadcast2 f a b).
Proof. outcome_of @Np.broadcast2. Qed.

Lemma other_dot (a b : ndarray R) : other_outcome (Np.dot a b).
Proof. outcome_of @Np.dot. Qed.

Lemma other_add (a b : ndarray R) : other_outcome (Np.add a b).
Proof. apply other_broadcast2. Qed.

Lemma other_mul (a b : ndarray R) : other_outcome (Np.mul a b).
Proof. apply other_broadcast2. Qed.

Lemma other_reshape {A} (a : ndarray A) s : other_outcome (Np.reshape a s).
Proof. outcome_of @Np.reshape. Qed.

Lemma other_newaxis1 {A} (a : ndarray A) : other_outcome (Np.newaxis1 a).
Proof. outcome_of @Np.newaxis1. Qed.

Lemma other_slice_cols {A} `{Inhabited A} (a : ndarray A) f :
  other_outcome (Np.slice_cols a f).
Proof. outcome_of @Np.slice_cols. Qed.

Lemma other_get_col {A} `{Inhabited A} (a : ndarray A) t :
  other_outcome (Np.get_col a t).
Proof. outcome_of @Np.get_col. Qed.

Lemma other_set_col {A B} `{Inhabited A} `{Inhabited B} (cast : B -> A) a t v :
  other_outcome (Np.set_col cast a t v).
Proof. outcome_of @Np.set_col. Qed.

Lemma other_row0 {A} `{Inhabited A} (a : ndarray A) : other_outcome (Np.row0 a).
Proof. outcome_of @Np.row0. Qed.

Lemma other_len {A} (a : ndarray A) : other_outcome (Np.len a).
Proof. outcome_of @Np.len. Qed.

Lemma other_shape0 {A} (a : ndarray A) : other_outcome (Np.shape0 a).
Proof. outcome_of @Np.shape0. Qed.

Lemma other_sum_axis0 (a : ndarray R) : other_outcome (Np.sum_axis0 a).
Proof. outcome_of @Np.sum_axis0. Qed.

Lemma other_argmax_axis2 (a : ndarray R) : other_outcome (Np.argmax_axis2 a).
Proof. outcome_of @Np.argmax_axis2. Qed.

Lemma other_param (self : CaptioningRNN R) k : other_outcome (param self k).
Proof. outcome_of @param. Qed.

Lemma other_not_implemented {A} cell :
  other_outcome (not_implemented (A := A) cell).
Proof. intros msg. discriminate. Qed.

Lemma other_start_column s n : other_outcome (start_column s n).
Proof. outcome_of start_column. Qed.
End Outcomes.

#[global] Hint Resolve other_broadcast2 other_dot other_add other_mul
  other_reshape other_newaxis1 other_slice_cols other_get_col other_set_col
  other_row0 other_len other_shape0 other_sum_axis0 other_argmax_axis2
  other_param other_not_implemented other_start_column : outcome.

Section LayerOutcomes.
Context {R : Type} `{Scalar R}.
Import Layers.

Lemma other_word_embedding_forward x (W : ndarray R) :
  other_outcome (word_embedding_forward x W).
Proof. outcome_of @word_embedding_forward. Qed.

Lemma other_word_embedding_backward (d : ndarray R) c :
  other_outcome (word_embedding_backward d c).
Proof. outcome_of @word_embedding_backward. Qed.

Lemma other_rnn_step_forward (x p Wx Wh b : ndarray R) :
  other_outcome (rnn_step_forward x p Wx Wh b).
Proof. outcome_of @rnn_step_forward. Qed.

Lemma other_rnn_step_backward (d : ndarray R) c :
  other_outcome (rnn_step_backward d c).
Proof. outcome_of @rnn_step_backward. Qed.

Lemma other_iadd (a b : ndarray R) : other_outcome (iadd a b).
Proof. outcome_of @iadd. Qed.

Lemma other_sum_axes01 (a : ndarray R) : other_outcome (sum_axes01 a).
Proof. outcome_of @sum_axes01. Qed.

#[local] Hint Resolve other_rnn_step_forward other_rnn_step_backward other_iadd
  other_sum_axes01 : outcome.

Lemma other_rnn_forward_loop (x Wx Wh b : ndarray R) n d h ts :
  forall p, other_outcome (rnn_forward_loop x Wx Wh b n d h ts p).
Proof.
  induction ts as [|t ts IH]; intros p; cbn [rnn_forward_loop];
    repeat outcome_step.
Qed.

Lemma other_rnn_backward_loop (dh : ndarray R) steps n d h ts :
  forall dp dWx dWh db,
    other_outcome (rnn_backward_loop dh steps n d h ts dp dWx dWh db).
Proof.
  induction ts as [|t ts IH]; intros dp dWx dWh db; cbn [rnn_backward_loop];
    repeat outcome_step.
Qed.

#[local] Hint Resolve other_rnn_forward_loop other_rnn_backward_loop : outcome.

Lemma other_rnn_forward (x h0 Wx Wh b : ndarray R) :
  other_outcome (rnn_forward x h0 Wx Wh b).
Proof. outcome_of @rnn_forward. Qed.

Lemma other_rnn_backward (dh : ndarray R) c :
  other_outcome (rnn_backward dh c).
Proof. outcome_of @rnn_backward. Qed.

Lemma other_temporal_affine_forward (x w b : ndarray R) :
  other_outcome (temporal_affine_forward x w b).
Proof. outcome_of @temporal_affine_forward. Qed.

Lemma other_temporal_affine_backward (d : ndarray R) c :
  other_outcome (temporal_affine_backward d c).
Proof. outcome_of @temporal_affine_backward. Qed.

Lemma other_temporal_softmax_loss (x : ndarray R) y m :
  other_outcome (temporal_softmax_loss x y m).
Proof. outcome_of @temporal_softmax_loss. Qed.
End LayerOutcomes.

#[global] Hint Resolve other_word_embedding_forward
  other_word_embedding_backward other_rnn_step_forward other_rnn_forward
  other_rnn_backward other_temporal_affine_forward
  other_temporal_affine_backward other_temporal_softmax_loss : outcome.

Section MethodOutcomes.
Context {R : Type} `{Scalar R}.

Lemma other_sample_step (We Wx Wh b Wv bv : ndarray R) capt h :
  other_outcome (sample_step We Wx Wh b Wv bv capt h).
Proof. outcome_of @sample_step. Qed.

#[local] Hint Resolve other_sample_step : outcome.

Lemma other_sample_loop (We Wx Wh b Wv bv : ndarray R) ts :
  forall captions capt h,
    other_outcome (sample_loop We Wx Wh b Wv bv ts captions capt h).
Proof.
  induction ts as [|t ts IH]; intros captions capt h; cbn [sample_loop];
    repeat outcome_step.
Qed.

#[local] Hint Resolve other_sample_loop : outcome.

Lemma other_sample (self : CaptioningRNN R) features l :
  other_outcome (sample self features l).
Proof. outcome_of @sample. Qed.

Lemma other_loss_split null c : other_outcome (loss_split null c).
Proof. unfold loss_split, Np.all_but_last_col, Np.all_but_first_col.
  repeat outcome_step. Qed.

Lemma other_m_ret {A} (a : A) : other_outcome_m (mret a : M R A).
Proof. intros fr. apply other_outcome_ok. Qed.

Lemma other_m_lift {A} (r : res A) :
  other_outcome r -> other_outcome_m (lift r : M R A).
Proof. intros Hr fr. exact Hr. Qed.

Lemma other_m_read {A} (f : frame R -> A) : other_outcome_m (read f).
Proof. intros fr. apply other_outcome_ok. Qed.

Lemma other_m_read_param k : other_outcome_m (read_param k : M R (ndarray R)).
Proof. intros fr. apply other_param. Qed.

Lemma other_m_bind {A B} (x : M R A) (k : A -> M R B) :
  other_outcome_m x -> (forall a, other_outcome_m (k a)) ->
  other_outcome_m (x ≫= k).
Proof.
  intros Hx Hk fr. unfold mbind, M_bind, m_bind.
  specialize (Hx fr). destruct (x fr) as [[a|c msg] fr']; cbn in *.
  - apply Hk.
  - intros msg' E. apply (Hx msg'). injection E as -> ->. reflexivity.
Qed.
End MethodOutcomes.

#[global] Hint Resolve other_loss_split other_m_ret other_m_read
  other_m_read_param : outcome.

Ltac outcome_m_step :=
  first
    [ apply other_m_bind; [| intros ? ]
    | apply other_m_lift; solve [ auto with outcome ]
    | match goal with
      | |- other_outcome_m (match ?x with _ => _ end) => destruct x
      | |- other_outcome_m (if ?c then _ else _) => destruct c
      end
    | solve [ auto with outcome ] ].

Section LossOutcome.
Context {R : Type} `{Scalar R}.

Lemma other_loss_backprop : other_outcome_m (loss_backprop (R := R)).
Proof. unfold loss_backprop. repeat outcome_m_step. Qed.

Lemma other_loss : other_outcome_m (loss (R := R)).
Proof.
  unfold loss. apply other_m_bind; [apply other_loss_backprop|]. intros bp.
  repeat outcome_m_step.
Qed.
End LossOutcome.

Section LossBranch.
Context {R : Type} `{Scalar R}.

Lemma not_implemented_raises_type_error {A} (cell : string) :
  not_implemented (A := A) cell =
  Raise TypeError "not all arguments converted during string formatting".
Proof. reflexivity. Qed.

(** With a cell type other than "rnn" the forward pass of [loss] cannot
    get past its branch on the cell type. *)
Lemma loss_backprop_needs_rnn (fr : frame R) bp :
  cell_type (self_ fr) <> "rnn" -> fst (loss_backprop fr) <> Ok bp.
Proof.
  intros Hcell. destruct fr as [self features captions].
  cbn [self_] in Hcell. unfold loss_backprop. unfold_m.
  repeat match goal with
  | |- context [decide (cell_type self = "rnn")] =>
      rewrite (decide_False (P := cell_type self = "rnn")) by exact Hcell;
      rewrite not_implemented_raises_type_error; cbn [fst]
  | |- context [match ?e with Ok _ => _ | Raise _ _ => _ end] =>
      destruct e as [?|? ?]; cbn [fst self_ features_ captions_]
  | |- context [let '(_, _) := ?p in _] =>
      is_var p; destruct p; cbn [fst self_ features_ captions_]
  | |- Raise _ _ <> Ok _ => discriminate
  end.
Qed.

Lemma loss_needs_rnn (fr : frame R) r :
  cell_type (self_ fr) <> "rnn" -> fst (loss fr) <> Ok r.
Proof.
  intros Hcell. unfold loss. unfold_m.
  destruct (loss_backprop fr) as [[bp|c msg] fr'] eqn:E.
  - exfalso. apply (loss_backprop_needs_rnn fr bp Hcell). rewrite E.
    reflexivity.
  - cbn [fst]. discriminate.
Qed.
End LossBranch.

(** ** The claims about sampling *)

Ltac sample_ready_by_evaluation :=
  constructor;
  [ well_shaped_by_evaluation
  | vm_compute; discriminate
  | eexists; split; [vm_compute; reflexivity | vm_compute; split; discriminate || reflexivity]
  | reflexivity
  | lia
  | first [ left; discriminate | right; reflexivity ] ].

Section SamplingClaims.
Context {R : Type} `{Scalar R}.

(** X15: on a call of [sample] on which every step is defined (a
    well-shaped model with START in the vocabulary, N >= 1 feature rows,
    word vectors of a dimension other than 1 unless N = 1) and with
    max_length >= 1, the array returned has shape (N, max_length) and every
    cell of it is a vocabulary index, at least 0 and below V. *)
Theorem sample_entries_in_vocabulary (self : CaptioningRNN R)
    (features : ndarray R) (D W n max_length : nat) :
  sample_ready self D W features n -> 1 <= max_length ->
  exists c,
    sample self features max_length = Ok c /\
    shape c = [n; max_length] /\
    forall i j, i < n -> j < max_length ->
      (0 <= get c [i; j] < Z.of_nat (vocab_size self))%Z.
Proof.
  intros Hready Hl.
  destruct (sample_ok self features D W n max_length Hready Hl)
    as (Wp & bp & We & Wx & Wh & b & Wv & bv & fw & h0 & s & nh & score0 & w0
        & scores & c & L1 & L2 & L3 & L4 & L5 & L6 & L7 & L8 & E1 & E2 & Hs
        & E3 & Eg & Hlen & Es & Sc & Hcells).
  exists c. split; [exact Es|]. split; [exact Sc|].
  intros i j Hi Hj.
  destruct (lookup_lt_is_Some_2 (score0 :: scores) j ltac:(lia))
    as [score Hscore].
  rewrite (Hcells i j score Hi Hscore).
  pose proof (best_word_lt (vocab_size self) score i
                (ws_vocab _ _ _ (sr_shaped _ _ _ _ _ Hready))). lia.
Qed.

(** C4: [sample] never stops on an emitted END token.  On a well-formed
    call every one of the max_length columns of every row holds the
    arg-max vocabulary index of that step's scores, as the greedy decoder
    lists them, whatever was emitted before; no cell is left to the NULL
    padding, and the result does not depend on the END index of the
    model. *)
Theorem sample_fills_every_column (self : CaptioningRNN R)
    (features : ndarray R) (D W n max_length : nat) :
  sample_ready self D W features n -> 1 <= max_length ->
  exists c scores,
    sample self features max_length = Ok c /\
    greedy_decode self features max_length = Ok scores /\
    length scores = max_length /\ shape c = [n; max_length] /\
    (forall i j score, i < n -> scores !! j = Some score ->
       get c [i; j] = Z.of_nat (best_word (vocab_size self) score i)) /\
    (forall e, sample (set_end e self) features max_length = Ok c).
Proof.
  intros Hready Hl.
  destruct (sample_ok self features D W n max_length Hready Hl)
    as (Wp & bp & We & Wx & Wh & b & Wv & bv & fw & h0 & s & nh & score0 & w0
        & scores & c & _ & _ & _ & _ & _ & _ & _ & _ & _ & _ & _
        & _ & Eg & Hlen & Es & Sc & Hcells).
  exists c, (score0 :: scores). repeat (split; [assumption|]).
  intros e. exact Es.
Qed.

(** C8: a vocabulary that holds NULL and START but no END builds a
    model whose END index is absent, and the outcome of [sample] never
    depends on the END index; on a well-formed features batch the call
    returns. *)
Theorem sample_without_end_token (w2i : gmap string Z) (D W Hd : nat)
    (dt : dtype) (g : rng_state R) (null s : Z) :
  w2i !! "<NULL>" = Some null -> w2i !! "<START>" = Some s ->
  w2i !! "<END>" = None ->
  (0 <= s < Z.of_nat (size w2i))%Z -> (Z.of_nat (size w2i) <= 2 ^ 31)%Z ->
  exists m g',
    __init__ w2i D W Hd "rnn" dt g = (Ok m, g') /\ _end m = None /\
    (forall e features max_length,
       sample (set_end e m) features max_length =
       sample m features max_length) /\
    (forall features n max_length,
       shape features = [n; D] -> 1 <= n -> W ≠ 1 \/ n = 1 ->
       1 <= max_length ->
       exists c, sample m features max_length = Ok c /\
                 shape c = [n; max_length]).
Proof.
  intros Hnull Hstart Hend Hs Hv.
  destruct (init_rnn_ok w2i D W Hd dt g null Hnull)
    as (m & g' & Einit & Hws & _ & Hvs & _ & _ & _ & Hst & He).
  exists m, g'. split; [exact Einit|]. split; [congruence|].
  split; [reflexivity|].
  intros features n l Hf Hn Hsq Hl.
  assert (Hready : sample_ready m D W features n).
  { constructor; try assumption; [rewrite Hvs; exact Hv|].
    exists s. rewrite Hst, Hvs. split; assumption. }
  destruct (sample_ok m features D W n l Hready Hl)
    as (Wp & bp & We & Wx & Wh & b & Wv & bv & fw & h0 & s' & nh & score0 & w0
        & scores & c & _ & _ & _ & _ & _ & _ & _ & _ & _ & _ & _
        & _ & _ & _ & Es & Sc & _).
  exists c. split; assumption.
Qed.

(** C10: [sample] with max_length = 0 never returns; when the same call
    with max_length = 1 returns, the failure is the out-of-bounds write of
    the first emitted column into the (N, 0) captions array. *)
Theorem sample_zero_length_fails (self : CaptioningRNN R)
    (features : ndarray R) :
  (forall c, sample self features 0 <> Ok c) /\
  (is_ok (sample self features 1) = true ->
   sample self features 0 =
   Raise IndexError "index is out of bounds for axis 1").
Proof.
  unfold sample.
  repeat match goal with
  | |- context [mbind _ ?e] =>
      lazymatch e with
      | Np.set_col _ _ _ _ => fail
      | _ => destruct e as [?|? ?] eqn:?
      end; cbn [mbind res_bind rbind is_ok]
  | |- context [match ?p with (_, _) => _ end] => destruct p
  end;
  try (split; [intros ? ?; discriminate | intros ?; discriminate]).
  match goal with
  | |- context [Np.set_col int32 (Np.scaled_ones_int32 ?k [?n; 0]) 0 ?w] =>
      change (Np.set_col int32 (Np.scaled_ones_int32 k [n; 0]) 0 w)
        with (Raise (A := ndarray Z) IndexError
                "index is out of bounds for axis 1")
  end.
  cbn [mbind res_bind rbind]. split; [intros ? ?; discriminate|reflexivity].
Qed.
End SamplingClaims.

(** C2: the branch taken for a cell type other than "rnn" builds its
    message with a format string that has no conversion, so the
    formatting itself fails with TypeError.  For every model whose cell
    type is "lstm", [loss] never returns and never raises
    NotImplementedError; [sample], which does not look at the cell type,
    never raises NotImplementedError on any model.  On the LSTM model of
    the scenario [loss] raises that TypeError and [sample] runs the
    vanilla step on the LSTM-sized weights and stops on a shape
    mismatch. *)
Theorem lstm_calls_do_not_raise_not_implemented :
  (forall (R : Type) (S : Scalar R) (fr : frame R),
     cell_type (self_ fr) = "lstm" ->
     (forall r, fst (loss fr) <> Ok r) /\
     (forall msg, fst (loss fr) <> Raise NotImplementedError msg)) /\
  (forall (R : Type) (S : Scalar R) (self : CaptioningRNN R) features
          max_length msg,
     sample self features max_length <> Raise NotImplementedError msg) /\
  Example.build "lstm" = Ok Example.lstm_model /\
  cell_type Example.lstm_model = "lstm" /\
  fst (loss (Frame Example.lstm_model Example.features Example.captions)) =
    Raise TypeError "not all arguments converted during string formatting" /\
  sample Example.lstm_model Example.features 3 =
    Raise ValueError "shapes not aligned".
Proof.
  split.
  { intros R S fr Hcell. split.
    - intros r. apply loss_needs_rnn. rewrite Hcell. discriminate.
    - apply other_loss. }
  split; [intros R S self features l; apply other_sample|].
  split; [vm_compute; reflexivity|]. split; [reflexivity|].
  split; vm_compute; reflexivity.
Qed.

(** C3: [sample] does not return the (N, max_length) array of vocabulary
    indices that its docstring promises on every batch.  On the model of
    the scenario and a batch of zero feature rows, max_length = 1, the
    first column is computed and then [len(captions[0])] raises
    IndexError, so no array of shape (0, 1) comes back.  On the model
    with word vectors of dimension 1 and a batch of two rows,
    [np.squeeze] drops the word-vector axis along with the time axis and
    the product with Wx raises ValueError. *)
Lemma sample_fails_on_empty_batch :
  (shape Example.no_features = [0; 4] /\
   well_shaped Example.model 4 4 /\
   sample Example.model Example.no_features 1 =
     Raise IndexError "index 0 is out of bounds for axis 0" /\
   ~ (exists c, sample Example.model Example.no_features 1 = Ok c /\
                shape c = [0; 1])) /\
  (shape Example.features = [2; 4] /\
   well_shaped Example.narrow_model 4 1 /\
   sample Example.narrow_model Example.features 1 =
     Raise ValueError "shapes not aligned").
Proof.
  split.
  - split; [reflexivity|]. split; [well_shaped_by_evaluation|].
    assert (E : sample Example.model Example.no_features 1 =
                Raise IndexError "index 0 is out of bounds for axis 0")
      by (vm_compute; reflexivity).
    split; [exact E|]. intros (c & Hc & _). rewrite E in Hc. discriminate.
  - split; [reflexivity|]. split; [well_shaped_by_evaluation|].
    vm_compute. reflexivity.
Qed.

Lemma sample_entries_in_vocabulary_witness :
  exists c,
    sample Example.model Example.features 3 = Ok c /\ shape c = [2; 3] /\
    (forall i j, i < 2 -> j < 3 ->
       (0 <= get c [i; j] < Z.of_nat (vocab_size Example.model))%Z).
Proof.
  apply (sample_entries_in_vocabulary Example.model Example.features
           4 4 2 3).
  - sample_ready_by_evaluation.
  - lia.
Defined.

Lemma sample_fills_every_column_witness :
  exists c scores,
    sample Example.model Example.features 3 = Ok c /\
    greedy_decode Example.model Example.features 3 = Ok scores /\
    length scores = 3 /\ shape c = [2; 3] /\
    (forall i j score, i < 2 -> scores !! j = Some score ->
       get c [i; j] = Z.of_nat (best_word (vocab_size Example.model) score i)) /\
    (forall e, sample (set_end e Example.model) Example.features 3 = Ok c).
Proof.
  apply (sample_fills_every_column Example.model Example.features 4 4 2 3).
  - sample_ready_by_evaluation.
  - lia.
Defined.

Lemma sample_without_end_token_witness :
  exists m g',
    __init__ Example.vocab_no_end 4 4 4 "rnn" float32 Example.gen = (Ok m, g') /\
    _end m = None /\
    (forall e features max_length,
       sample (set_end e m) features max_length =
       sample m features max_length) /\
    (forall features n max_length,
       shape features = [n; 4] -> 1 <= n -> 4 ≠ 1 \/ n = 1 ->
       1 <= max_length ->
       exists c, sample m features max_length = Ok c /\
                 shape c = [n; max_length]).
Proof.
  apply (sample_without_end_token Example.vocab_no_end 4 4 4 float32
           Example.gen 0%Z 1%Z).
  - reflexivity.
  - reflexivity.
  - reflexivity.
  - vm_compute. split; [discriminate|reflexivity].
  - vm_compute. discriminate.
Defined.

Lemma sample_zero_length_fails_witness :
  sample Example.model Example.features 0 =
  Raise IndexError "index is out of bounds for axis 1".
Proof.
  apply (proj2 (sample_zero_length_fails Example.model Example.features)).
  vm_compute. reflexivity.
Defined.

Lemma loss_projection_gradients_witness :
  exists l g bp dW_proj db_proj,
    fst (loss (Frame Example.model Example.features Example.captions))
      = Ok (l, g) /\
    fst (loss_backprop (Frame Example.model Example.features Example.captions))
      = Ok bp /\
    Np.dot (Np.transpose Example.features) (bp_dh0 bp) = Ok dW_proj /\
    Np.sum_axis0 (bp_dh0 bp) = Ok db_proj /\
    g !! "W_proj" = Some (Some dW_proj) /\
    g !! "b_proj" = Some (Some db_proj).
Proof.
  destruct (loss_projection_gradients Example.model Example.features
              Example.captions 2 4 4 4)
    as (l & g & bp & dW & db & E1 & E2 & _ & E3 & E4 & E5 & E6 & _).
  - well_shaped_by_evaluation.
  - reflexivity.
  - reflexivity.
  - reflexivity.
  - tokens_by_evaluation.
  - exists l, g, bp, dW, db. repeat split; assumption.
Defined.

(** ** The forward pass that [loss] runs on the split captions *)

Section TrainingInputs.
Context {R : Type} `{Scalar R}.
Import Layers.

(** A call of [loss] that returns went through [loss_backprop], whose
    loss value it hands back. *)
Lemma loss_returns_backprop_loss (fr : frame R) l g :
  fst (loss fr) = Ok (l, g) ->
  exists bp, fst (loss_backprop fr) = Ok bp /\ bp_loss bp = l.
Proof.
  unfold loss. unfold_m.
  destruct (loss_backprop fr) as [[bp|c msg] fr'] eqn:Ebp;
    cbn [fst]; [|discriminate].
  repeat match goal with
  | |- context [match ?e with Ok _ => _ | Raise _ _ => _ end] =>
      destruct e as [?|? ?]; cbn [fst self_ features_ captions_]
  | |- context [let '(_, _) := ?p in _] =>
      is_var p; destruct p; cbn [fst self_ features_ captions_]
  end; intros E; try discriminate.
  injection E as <- _. exists bp. split; reflexivity.
Qed.

(** The forward pass behind a result of [loss_backprop]: every layer
    call of lines 125-147 on the arrays of the split. *)
Lemma loss_backprop_forward (fr : frame R) bp captions_in captions_out mask :
  loss_split (_null (self_ fr)) (captions_ fr) =
    Ok (captions_in, captions_out, mask) ->
  fst (loss_backprop fr) = Ok bp ->
  exists W_proj b_proj W_embed Wx Wh b W_vocab b_vocab fw h0 x
         word_embedding_cache h rnn_cache scores_out scores_cache dscores,
    params (self_ fr) !! "W_proj" = Some W_proj /\
    params (self_ fr) !! "b_proj" = Some b_proj /\
    params (self_ fr) !! "W_embed" = Some W_embed /\
    params (self_ fr) !! "Wx" = Some Wx /\
    params (self_ fr) !! "Wh" = Some Wh /\
    params (self_ fr) !! "b" = Some b /\
    params (self_ fr) !! "W_vocab" = Some W_vocab /\
    params (self_ fr) !! "b_vocab" = Some b_vocab /\
    Np.dot (features_ fr) W_proj = Ok fw /\ Np.add fw b_proj = Ok h0 /\
    word_embedding_forward captions_in W_embed =
      Ok (x, word_embedding_cache) /\
    rnn_forward x h0 Wx Wh b = Ok (h, rnn_cache) /\
    temporal_affine_forward h W_vocab b_vocab =
      Ok (scores_out, scores_cache) /\
    temporal_softmax_loss scores_out captions_out mask =
      Ok (bp_loss bp, dscores).
Proof.
  intros Es Ebp.
  assert (Hcell : cell_type (self_ fr) = "rnn").
  { destruct (decide (cell_type (self_ fr) = "rnn")) as [E|E]; [exact E|].
    exfalso. exact (loss_backprop_needs_rnn fr bp E Ebp). }
  revert Ebp. destruct fr as [self features captions].
  cbn [self_ features_ captions_] in *.
  unfold loss_backprop. unfold_m. run_m Es. unfold param.
  destruct (params self !! "W_proj") as [Wp|] eqn:L1; [|discriminate].
  destruct (params self !! "b_proj") as [bpj|] eqn:L2; [|discriminate].
  destruct (params self !! "W_embed") as [We|] eqn:L3; [|discriminate].
  destruct (params self !! "Wx") as [Wx|] eqn:L4; [|discriminate].
  destruct (params self !! "Wh") as [Wh|] eqn:L5; [|discriminate].
  destruct (params self !! "b") as [b|] eqn:L6; [|discriminate].
  destruct (params self !! "W_vocab") as [Wv|] eqn:L7; [|discriminate].
  destruct (params self !! "b_vocab") as [bv|] eqn:L8; [|discriminate].
  cbn [fst self_ features_ captions_].
  destruct (Np.dot features Wp) as [fw|] eqn:E1; [|discriminate].
  cbn [fst self_ features_ captions_].
  destruct (Np.add fw bpj) as [h0|] eqn:E2; [|discriminate].
  cbn [fst self_ features_ captions_].
  destruct (word_embedding_forward captions_in We) as [[x wc]|] eqn:E3;
    [|discriminate].
  cbn [fst self_ features_ captions_].
  rewrite Hcell. rewrite decide_True by reflexivity.
  destruct (rnn_forward x h0 Wx Wh b) as [[h rc]|] eqn:E4; [|discriminate].
  cbn [fst self_ features_ captions_].
  destruct (temporal_affine_forward h Wv bv) as [[sc scc]|] eqn:E5;
    [|discriminate].
  cbn [fst self_ features_ captions_].
  destruct (temporal_softmax_loss sc captions_out mask) as [[l ds]|] eqn:E6;
    [|discriminate].
  cbn [fst self_ features_ captions_].
  repeat match goal with
  | |- context [match ?e with Ok _ => _ | Raise _ _ => _ end] =>
      destruct e as [?|? ?]; cbn [fst self_ features_ captions_]
  | |- context [let '(_, _) := ?p in _] =>
      is_var p; destruct p; cbn [fst self_ features_ captions_]
  | |- context [if decide ?P then _ else _] =>
      destruct (decide P); cbn [fst self_ features_ captions_]
  end; intros E; try discriminate.
  all: injection E as <-; cbn [bp_loss];
    exists Wp, bpj, We, Wx, Wh, b, Wv, bv, fw, h0, x, wc, h, rc, sc, scc, ds;
    repeat split; assumption.
Qed.

(** C5: in a call of [loss] on captions of shape (N, T), captions_in is
    the batch without its last column, captions_out the batch without its
    first column, and the mask has the shape of captions_out and holds
    exactly where captions_out differs from the NULL index.  Whenever the
    call returns, the word embedding was applied to captions_in, and the
    loss returned is the temporal softmax loss of the scores of that
    embedding against the targets captions_out under this mask.  On a
    well-formed call [loss] does return. *)
Theorem loss_splits_captions (fr : frame R) (n t : nat) :
  shape (captions_ fr) = [n; t] ->
  exists captions_in captions_out mask,
    loss_split (_null (self_ fr)) (captions_ fr) =
      Ok (captions_in, captions_out, mask) /\
    shape captions_in = [n; t - 1] /\ shape captions_out = [n; t - 1] /\
    shape mask = shape captions_out /\
    (forall i j, i < n -> j < t - 1 ->
       get captions_in [i; j] = get (captions_ fr) [i; j] /\
       get captions_out [i; j] = get (captions_ fr) [i; j + 1] /\
       (get mask [i; j] = true <->
        get captions_out [i; j] <> _null (self_ fr))) /\
    (forall l g, fst (loss fr) = Ok (l, g) ->
       exists W_proj b_proj W_embed Wx Wh b W_vocab b_vocab fw h0 x
              word_embedding_cache h rnn_cache scores_out scores_cache
              dscores,
         params (self_ fr) !! "W_proj" = Some W_proj /\
         params (self_ fr) !! "b_proj" = Some b_proj /\
         params (self_ fr) !! "W_embed" = Some W_embed /\
         params (self_ fr) !! "Wx" = Some Wx /\
         params (self_ fr) !! "Wh" = Some Wh /\
         params (self_ fr) !! "b" = Some b /\
         params (self_ fr) !! "W_vocab" = Some W_vocab /\
         params (self_ fr) !! "b_vocab" = Some b_vocab /\
         Np.dot (features_ fr) W_proj = Ok fw /\ Np.add fw b_proj = Ok h0 /\
         word_embedding_forward captions_in W_embed =
           Ok (x, word_embedding_cache) /\
         rnn_forward x h0 Wx Wh b = Ok (h, rnn_cache) /\
         temporal_affine_forward h W_vocab b_vocab =
           Ok (scores_out, scores_cache) /\
         temporal_softmax_loss scores_out captions_out mask =
           Ok (l, dscores)) /\
    (forall D W,
       well_shaped (self_ fr) D W -> cell_type (self_ fr) = "rnn" ->
       shape (features_ fr) = [n; D] ->
       tokens_below (vocab_size (self_ fr)) (captions_ fr) ->
       exists l g, fst (loss fr) = Ok (l, g)).
Proof.
  intros Hs.
  destruct (loss_split_ok (_null (self_ fr)) (captions_ fr) n t Hs)
    as (cin & cout & mask & E & S1 & S2 & S3 & Hcells).
  exists cin, cout, mask. rewrite S2.
  split; [exact E|]. split; [exact S1|]. split; [reflexivity|].
  split; [exact S3|]. split; [exact Hcells|]. split.
  - intros l g Hl.
    destruct (loss_returns_backprop_loss fr l g Hl) as (bp & Ebp & <-).
    apply (loss_backprop_forward fr bp cin cout mask E Ebp).
  - intros D W Hws Hcell Hf Htok. destruct fr as [self features captions].
    cbn [self_ features_ captions_] in *.
    destruct (loss_backprop_ok self features captions n t D W Hws Hcell Hf Hs
                Htok) as (bp & Ebp & _ & _ & Sdh0 & _).
    destruct (loss_from_backprop (Frame self features captions) bp n D _
                Ebp Hf Sdh0) as (dW & db & _ & _ & _ & _ & El).
    eexists _, _. exact El.
Qed.
End TrainingInputs.

Lemma loss_splits_captions_witness :
  exists captions_in captions_out mask,
    loss_split 0 Example.captions = Ok (captions_in, captions_out, mask) /\
    shape captions_in = [2; 3] /\ shape captions_out = [2; 3] /\
    shape mask = shape captions_out /\
    (forall i j, i < 2 -> j < 3 ->
       get captions_in [i; j] = get Example.captions [i; j] /\
       get captions_out [i; j] = get Example.captions [i; j + 1] /\
       (get mask [i; j] = true <-> get captions_out [i; j] <> 0%Z)) /\
    exists l g W_embed x word_embedding_cache scores_out dscores,
      fst (loss (Frame Example.model Example.features Example.captions)) =
        Ok (l, g) /\
      params Example.model !! "W_embed" = Some W_embed /\
      Layers.word_embedding_forward captions_in W_embed =
        Ok (x, word_embedding_cache) /\
      Layers.temporal_softmax_loss scores_out captions_out mask =
        Ok (l, dscores).
Proof.
  destruct (loss_splits_captions
              (Frame Example.model Example.features Example.captions) 2 4)
    as (cin & cout & mask & E & S1 & S2 & S3 & Hcells & Hfwd & Hret).
  - reflexivity.
  - exists cin, cout, mask. repeat (split; [assumption|]).
    destruct (Hret 4 4) as (l & g & El).
    + well_shaped_by_evaluation.
    + reflexivity.
    + reflexivity.
    + tokens_by_evaluation.
    + destruct (Hfwd l g El)
        as (Wp & bp & We & Wx & Wh & b & Wv & bv & fw & h0 & x & wc & h & rc
            & sc & scc & ds & _ & _ & LWe & _ & _ & _ & _ & _ & _ & _ & E3
            & _ & _ & E6).
      exists l, g, We, x, wc, sc, ds. repeat split; assumption.
Defined.

(** * Further properties of the constructor *)

Lemma valid_cell_is_member (cell : string) :
  cell = "rnn" \/ cell = "lstm" ->
  ~ (cell ∉ ({["rnn"; "lstm"]} : gset string)).
Proof.
  intros Hc Hn. apply Hn. apply elem_of_union.
  destruct Hc as [-> | ->]; [left|right]; apply elem_of_singleton; reflexivity.
Qed.

Lemma dim_mul_of_valid (cell : string) :
  cell = "rnn" \/ cell = "lstm" -> dim_mul_of cell = Ok (cell_width cell).
Proof. intros [-> | ->]; reflexivity. Qed.

(** Runs the constructor on a registered cell type and a vocabulary that
    holds NULL, leaving the model and the generator it returns. *)
Ltac run_init Hcell Hnull :=
  unfold __init__;
  rewrite decide_False by (apply valid_cell_is_member; exact Hcell);
  rewrite Hnull; unfold randn;
  rewrite (dim_mul_of_valid _ Hcell).

Section ConstructorFacts.
Context {R : Type} `{Scalar R}.

(** X1: with a registered cell type, a vocabulary without NULL makes the
    constructor raise KeyError('<NULL>'); this happens before the first
    call of np.random.randn, so the generator is left as it was. *)
Theorem init_needs_null_token (w2i : gmap string Z) (D W Hd : nat)
    (cell : string) (dt : dtype) (g : rng_state R) :
  cell = "rnn" \/ cell = "lstm" -> w2i !! "<NULL>" = None ->
  __init__ w2i D W Hd cell dt g = (Raise KeyError "<NULL>", g).
Proof.
  intros Hcell Hnull. unfold __init__.
  rewrite decide_False by (apply valid_cell_is_member; exact Hcell).
  rewrite Hnull. reflexivity.
Qed.

(** X2: with a registered cell type and a vocabulary that holds NULL the
    constructor returns an instance.  Its attributes record the
    arguments (vocab_size is the number of words, START and END are looked
    up with None as default), its parameter dictionary has exactly the
    eight keys, and the recurrent weights Wx, Wh and b are 4 H wide for
    "lstm" and H wide for "rnn". *)
Theorem init_allocates_parameters (w2i : gmap string Z) (D W Hd : nat)
    (cell : string) (dt : dtype) (g : rng_state R) (null : Z) :
  cell = "rnn" \/ cell = "lstm" -> w2i !! "<NULL>" = Some null ->
  exists m g',
    __init__ w2i D W Hd cell dt g = (Ok m, g') /\
    cell_type m = cell /\ dtype_ m = dt /\ word_to_idx m = w2i /\
    vocab_size m = size w2i /\ 1 <= vocab_size m /\ hidden_dim m = Hd /\
    _null m = null /\ _start m = w2i !! "<START>" /\
    _end m = w2i !! "<END>" /\
    dom (params m) = param_keys /\
    has_shape (params m) "W_embed" [size w2i; W] /\
    has_shape (params m) "W_proj" [D; Hd] /\
    has_shape (params m) "b_proj" [Hd] /\
    has_shape (params m) "Wx" [W; cell_width cell * Hd] /\
    has_shape (params m) "Wh" [Hd; cell_width cell * Hd] /\
    has_shape (params m) "b" [cell_width cell * Hd] /\
    has_shape (params m) "W_vocab" [Hd; size w2i] /\
    has_shape (params m) "b_vocab" [size w2i].
Proof.
  intros Hcell Hnull. run_init Hcell Hnull.
  eexists _, _. split; [reflexivity|].
  cbn [cell_type dtype_ word_to_idx vocab_size hidden_dim _null _start _end
       params].
  assert (Hsize : 1 <= size w2i).
  { destruct (size w2i) eqn:E; [|lia]. apply map_size_empty_iff in E.
    subst w2i. rewrite lookup_empty in Hnull. discriminate. }
  unfold idiv.
  repeat split;
    first
      [ reflexivity
      | exact Hsize
      | rewrite dom_fmap_L; repeat rewrite ?dom_insert_L, ?dom_alter_L;
        unfold param_keys; set_solver
      | eexists; split; [rewrite lookup_fmap; simplify_map_eq; reflexivity
                        | reflexivity ] ].
Qed.

End ConstructorFacts.

Lemma nth_map_lt {A B} (f : A -> B) (l : list A) k d d' :
  k < length l -> nth k (map f l) d = f (nth k l d').
Proof.
  intros Hk. rewrite (nth_indep _ d (f d')) by (rewrite length_map; exact Hk).
  apply map_nth.
Qed.

Lemma fmap_injective_of_NoDup {A B} (f : A -> B) (l : list A) :
  NoDup (f <$> l) -> forall x y, x ∈ l -> y ∈ l -> f x = f y -> x = y.
Proof.
  induction l as [|a l IH]; intros Hnd x y Hx Hy Hf.
  - apply elem_of_nil in Hx. contradiction.
  - rewrite fmap_cons in Hnd. apply NoDup_cons in Hnd as [Hna Hnd].
    apply elem_of_cons in Hx as [->|Hx]; apply elem_of_cons in Hy as [->|Hy].
    + reflexivity.
    + exfalso. apply Hna. rewrite Hf. apply list_elem_of_fmap_2. exact Hy.
    + exfalso. apply Hna. rewrite <- Hf. apply list_elem_of_fmap_2. exact Hx.
    + apply IH; assumption.
Qed.

Lemma distinct_indices_check (w2i : gmap string Z) :
  NoDup ((map_to_list w2i).*2) -> distinct_indices w2i.
Proof.
  intros Hnd w1 w2 i H1 H2.
  apply elem_of_map_to_list in H1, H2.
  pose proof (fmap_injective_of_NoDup snd _ Hnd (w1, i) (w2, i) H1 H2 eq_refl)
    as E.
  congruence.
Qed.

Section InitialValues.
Context {R : Type} `{Scalar R}.

Lemma get_tabulated (s : list nat) (f : nat -> R) n idx :
  n = size_of s -> in_range s idx ->
  get (NdArray s (map f (seq 0 n))) idx = f (ravel s idx).
Proof.
  intros -> Hr. unfold get. cbn [shape data].
  rewrite (nth_map_lt _ _ _ _ 0) by (rewrite length_seq; apply ravel_lt, Hr).
  rewrite seq_nth by (apply ravel_lt, Hr). reflexivity.
Qed.

Lemma wf_tabulated (s : list nat) (f : nat -> R) n :
  n = size_of s -> wf (NdArray s (map f (seq 0 n))).
Proof. intros ->. unfold wf. cbn. rewrite length_map, length_seq. reflexivity. Qed.

Lemma wf_map_arr {A B} (f : A -> B) (a : ndarray A) :
  wf a -> wf (Np.map_arr f a).
Proof. unfold wf, Np.map_arr. cbn. rewrite length_map. auto. Qed.

(** X4: the values a new model starts from.  W_embed holds the first
    V W draws of the generator, row by row, each divided by 100 and cast
    to the dtype; the three biases b_proj, b and b_vocab hold the cast
    of zero in every cell. *)
Theorem init_initial_values (w2i : gmap string Z) (D W Hd : nat)
    (cell : string) (dt : dtype) (g : rng_state R) (null : Z) :
  cell = "rnn" \/ cell = "lstm" -> w2i !! "<NULL>" = Some null ->
  exists m W_embed b_proj b b_vocab,
    fst (__init__ w2i D W Hd cell dt g) = Ok m /\
    params m !! "W_embed" = Some W_embed /\
    params m !! "b_proj" = Some b_proj /\
    params m !! "b" = Some b /\
    params m !! "b_vocab" = Some b_vocab /\
    (forall i j, i < size w2i -> j < W ->
       get W_embed [i; j] =
       s_cast dt (s_div (rng_draws g (rng_pos g + (i * W + j)))
                        (s_of_nat 100))) /\
    (forall j, j < Hd -> get b_proj [j] = s_cast dt s_zero) /\
    (forall j, j < cell_width cell * Hd -> get b [j] = s_cast dt s_zero) /\
    (forall j, j < size w2i -> get b_vocab [j] = s_cast dt s_zero).
Proof.
  intros Hcell Hnull. run_init Hcell Hnull. unfold idiv.
  eexists _, _, _, _, _. split; [reflexivity|]. cbn [params].
  split; [rewrite lookup_fmap; simplify_map_eq; reflexivity|].
  split; [rewrite lookup_fmap; simplify_map_eq; reflexivity|].
  split; [rewrite lookup_fmap; simplify_map_eq; reflexivity|].
  split; [rewrite lookup_fmap; simplify_map_eq; reflexivity|].
  assert (Hzero : forall n j, j < n ->
            get (Np.astype dt (Np.zeros [n])) [j] = s_cast dt s_zero).
  { intros n j Hj. unfold Np.astype, Np.zeros, full.
    rewrite get_map_arr by (try apply wf_mk; cbn; in_range_tac).
    rewrite get_mk by in_range_tac. reflexivity. }
  split; [|repeat split; intros j Hj; apply Hzero, Hj].
  intros i j Hi Hj.
  assert (Hr : in_range [size w2i; W] [i; j]) by in_range_tac.
  unfold Np.astype, Np.div_scalar.
  rewrite get_map_arr by
    (try apply wf_map_arr, wf_tabulated; try reflexivity; exact Hr).
  rewrite get_map_arr by (try apply wf_tabulated; try reflexivity; exact Hr).
  rewrite (get_tabulated [size w2i; W]) by (try reflexivity; exact Hr).
  cbn [ravel size_of fold_right].
  do 3 f_equal. lia.
Qed.

(** X5: when no two words share an index, idx_to_word is the inverse of
    word_to_idx: it maps i to w exactly when word_to_idx maps w to i. *)
Theorem init_idx_to_word_inverts (w2i : gmap string Z) (D W Hd : nat)
    (cell : string) (dt : dtype) (g : rng_state R) (m : CaptioningRNN R) :
  distinct_indices w2i ->
  fst (__init__ w2i D W Hd cell dt g) = Ok m ->
  forall w i, idx_to_word m !! i = Some w <-> word_to_idx m !! w = Some i.
Proof.
  intros Hinj Hm w i.
  assert (Hfields : idx_to_word m =
                      list_to_map (prod_swap <$> map_to_list w2i) /\
                    word_to_idx m = w2i).
  { unfold __init__ in Hm.
    destruct (decide (cell ∉ ({["rnn"; "lstm"]} : gset string)));
      [discriminate|].
    destruct (w2i !! "<NULL>"); [|discriminate]. unfold randn in Hm.
    destruct (dim_mul_of cell); [|discriminate].
    cbn in Hm. injection Hm as <-. split; reflexivity. }
  destruct Hfields as [-> ->].
  rewrite <- elem_of_list_to_map.
  - rewrite list_elem_of_fmap. split.
    + intros ([w' i'] & E & Hin). cbn in E. injection E as -> ->.
      apply elem_of_map_to_list. exact Hin.
    + intros Hl. exists (w, i). split; [reflexivity|].
      apply elem_of_map_to_list. exact Hl.
  - rewrite <- list_fmap_compose.
    apply NoDup_fmap_2_strong; [|apply NoDup_map_to_list].
    intros [w1 i1] [w2 i2] H1 H2 E. cbn in E. subst i2.
    apply elem_of_map_to_list in H1, H2. f_equal. eapply Hinj; eassumption.
Qed.
End InitialValues.

(** * Further properties of [loss] and [sample] *)

(** Steps through a call of [loss] by cases on every result it binds. *)
Ltac loss_cases :=
  repeat match goal with
  | |- context [if decide ?P then _ else _] =>
      destruct (decide P); cbn [fst self_ features_ captions_]
  | |- context [match ?e with Ok _ => _ | Raise _ _ => _ end] =>
      destruct e as [?|? ?]; cbn [fst self_ features_ captions_]
  | |- context [let '(_, _) := ?p in _] =>
      is_var p; destruct p; cbn [fst self_ features_ captions_]
  end.

Section CallErrors.
Context {R : Type} `{Scalar R}.

Lemma dot_matrix_misaligned (a b : ndarray R) n d k m :
  shape a = [n; d] -> shape b = [k; m] -> d <> k ->
  Np.dot a b = Raise ValueError "shapes not aligned".
Proof.
  intros Ha Hb Hne. unfold Np.dot. rewrite Ha, Hb. cbn.
  destruct (Nat.eqb_spec d k); [contradiction|reflexivity].
Qed.

Lemma loss_split_two_axes null (captions : ndarray Z) :
  2 <= length (shape captions) -> exists r, loss_split null captions = Ok r.
Proof.
  intros Hr. unfold loss_split, Np.all_but_last_col, Np.all_but_first_col,
    Np.slice_cols.
  destruct (shape captions) as [|a [|b c]]; cbn in Hr; try lia.
  eexists. reflexivity.
Qed.

(** X6: [loss] slices the columns of the captions before anything else;
    a captions array with fewer than two axes makes it raise IndexError,
    whatever the model and the features are. *)
Theorem loss_needs_caption_columns (fr : frame R) :
  length (shape (captions_ fr)) < 2 ->
  fst (loss fr) = Raise IndexError "too many indices for array".
Proof.
  intros Hr. destruct fr as [self features captions]. cbn [captions_] in Hr.
  unfold loss, loss_backprop. unfold_m.
  unfold loss_split, Np.all_but_last_col, Np.slice_cols.
  destruct (shape captions) as [|a [|b c]]; cbn in Hr; try lia; reflexivity.
Qed.

(** X7: both methods unpack the parameters in the order W_proj, b_proj,
    W_embed, Wx, Wh, b, W_vocab, b_vocab; the first of them that the
    dictionary lacks is reported by a KeyError with its name, by [loss]
    once the captions are sliced and by [sample] once the batch size is
    read. *)
Theorem missing_parameter_raises_key_error (self : CaptioningRNN R)
    (features : ndarray R) (captions : ndarray Z) (max_length : nat)
    (k : string) :
  first_missing (params self) = Some k ->
  (2 <= length (shape captions) ->
   fst (loss (Frame self features captions)) = Raise KeyError k) /\
  (1 <= length (shape features) ->
   sample self features max_length = Raise KeyError k).
Proof.
  intros Hk. split; intros Hr.
  - destruct (loss_split_two_axes (_null self) captions Hr) as [[[ci co] mk] Es].
    unfold loss, loss_backprop. unfold_m. rewrite Es.
    cbn [fst self_ features_ captions_]. unfold param.
    unfold first_missing, param_order in Hk. cbn [find] in Hk.
    repeat (case_bool_decide;
            [ match goal with
              | E : params self !! _ = None |- _ => rewrite E
              end; injection Hk as <-; reflexivity
            | match goal with
              | E : params self !! ?key <> None |- _ =>
                  destruct (params self !! key); [clear E|contradiction]
              end ]).
    discriminate.
  - unfold sample, Np.shape0.
    destruct (shape features) as [|n s]; [cbn in Hr; lia|].
    cbn [mbind res_bind rbind]. unfold param.
    unfold first_missing, param_order in Hk. cbn [find] in Hk.
    repeat (case_bool_decide;
            [ match goal with
              | E : params self !! _ = None |- _ => rewrite E
              end; injection Hk as <-; reflexivity
            | match goal with
              | E : params self !! ?key <> None |- _ =>
                  destruct (params self !! key); [clear E|contradiction]
              end; cbn [mbind res_bind rbind] ]).
    discriminate.
Qed.

(** X8: features whose second axis differs from the rows of W_proj stop
    both methods at the projection to the hidden state, with the
    ValueError of the misaligned product; in [loss] this comes before the
    test of the cell type. *)
Theorem feature_dimension_mismatch (self : CaptioningRNN R)
    (features : ndarray R) (captions : ndarray Z)
    (D W n d max_length : nat) :
  well_shaped self D W -> shape features = [n; d] -> d <> D ->
  (2 <= length (shape captions) ->
   fst (loss (Frame self features captions)) =
     Raise ValueError "shapes not aligned") /\
  sample self features max_length = Raise ValueError "shapes not aligned".
Proof.
  intros [Hkeys Hv (We & LWe & SWe) (Wp & LWp & SWp) (bp & Lbp & Sbp)
            (Wx & LWx & SWx) (Wh & LWh & SWh) (b & Lb & Sb)
            (Wv & LWv & SWv) (bv & Lbv & Sbv)] Hf Hd.
  pose proof (dot_matrix_misaligned features Wp n d D _ Hf SWp Hd) as Edot.
  split.
  - intros Hr.
    destruct (loss_split_two_axes (_null self) captions Hr) as [[[ci co] mk] Es].
    unfold loss, loss_backprop. unfold_m. run_m Es.
    run_m (param_ok self _ _ LWp). run_m (param_ok self _ _ Lbp).
    run_m (param_ok self _ _ LWe). run_m (param_ok self _ _ LWx).
    run_m (param_ok self _ _ LWh). run_m (param_ok self _ _ Lb).
    run_m (param_ok self _ _ LWv). run_m (param_ok self _ _ Lbv).
    rewrite Edot. reflexivity.
  - unfold sample, Np.shape0. rewrite Hf. cbn [mbind res_bind rbind].
    run_ok (param_ok self _ _ LWp). run_ok (param_ok self _ _ Lbp).
    run_ok (param_ok self _ _ LWe). run_ok (param_ok self _ _ LWx).
    run_ok (param_ok self _ _ LWh). run_ok (param_ok self _ _ Lb).
    run_ok (param_ok self _ _ LWv). run_ok (param_ok self _ _ Lbv).
    rewrite Edot. reflexivity.
Qed.

(** X11: a model built from a vocabulary without START cannot sample
    on a batch of at least one row: the product of the absent START index
    with the column of N >= 1 ones raises TypeError, after the hidden
    state is projected and before any decoding step.  (With no row there
    is no cell to multiply and the product itself raises nothing.) *)
Theorem sample_needs_start_token (self : CaptioningRNN R)
    (features : ndarray R) (D W n max_length : nat) :
  well_shaped self D W -> _start self = None -> shape features = [n; D] ->
  1 <= n ->
  sample self features max_length =
  Raise TypeError "unsupported operand type(s) for *".
Proof.
  intros [Hkeys Hv (We & LWe & SWe) (Wp & LWp & SWp) (bp & Lbp & Sbp)
            (Wx & LWx & SWx) (Wh & LWh & SWh) (b & Lb & Sb)
            (Wv & LWv & SWv) (bv & Lbv & Sbv)] Hs Hf _.
  destruct (dot_matrix features Wp n D _ Hf SWp) as (fw & E1 & S1 & _).
  destruct (add_bias fw bp [n] _ S1 Sbp) as (h0 & E2 & S2).
  unfold sample, Np.shape0. rewrite Hf. cbn [mbind res_bind rbind].
  run_ok (param_ok self _ _ LWp). run_ok (param_ok self _ _ Lbp).
  run_ok (param_ok self _ _ LWe). run_ok (param_ok self _ _ LWx).
  run_ok (param_ok self _ _ LWh). run_ok (param_ok self _ _ Lb).
  run_ok (param_ok self _ _ LWv). run_ok (param_ok self _ _ Lbv).
  run_ok E1. run_ok E2. rewrite Hs. reflexivity.
Qed.
End CallErrors.

Lemma absorb_keys (X : gset string) :
  param_keys ⊆ X ->
  {["b_vocab"]} ∪ ({["W_vocab"]} ∪ ({["b"]} ∪ ({["Wh"]} ∪ ({["Wx"]} ∪
    ({["W_embed"]} ∪ ({["b_proj"]} ∪ ({["W_proj"]} ∪ X))))))) = X.
Proof.
  intros Hsub. apply set_eq. intros k.
  rewrite !elem_of_union, !elem_of_singleton. split; [|tauto].
  intros Hk.
  assert (Hor : k ∈ param_keys \/ k ∈ X).
  { unfold param_keys. rewrite !elem_of_union, !elem_of_singleton. tauto. }
  destruct Hor as [Hin|Hin]; [apply Hsub, Hin|exact Hin].
Qed.

Section GradientDictionary.
Context {R : Type} `{Scalar R}.

Lemma loss_backprop_grads (fr : frame R) bp :
  fst (loss_backprop fr) = Ok bp ->
  bp_grads bp = (fun _ => None) <$> params (self_ fr) /\
  param_keys ⊆ dom (params (self_ fr)).
Proof.
  destruct fr as [self features captions]. unfold loss_backprop. unfold_m.
  unfold param.
  destruct (loss_split (_null self) captions) as [[[ci co] mk]|];
    [|discriminate]. cbn [fst self_ features_ captions_].
  destruct (params self !! "W_proj") eqn:L1; [|discriminate].
  destruct (params self !! "b_proj") eqn:L2; [|discriminate].
  destruct (params self !! "W_embed") eqn:L3; [|discriminate].
  destruct (params self !! "Wx") eqn:L4; [|discriminate].
  destruct (params self !! "Wh") eqn:L5; [|discriminate].
  destruct (params self !! "b") eqn:L6; [|discriminate].
  destruct (params self !! "W_vocab") eqn:L7; [|discriminate].
  destruct (params self !! "b_vocab") eqn:L8; [|discriminate].
  assert (Hsub : param_keys ⊆ dom (params self)).
  { unfold param_keys. intros k Hk.
    rewrite !elem_of_union, !elem_of_singleton in Hk. apply elem_of_dom.
    destruct Hk as [[[[[[[-> | ->] | ->] | ->] | ->] | ->] | ->] | ->]; eauto. }
  loss_cases; intros E; try discriminate;
    injection E as <-; (split; [reflexivity|exact Hsub]).
Qed.

Lemma loss_result (fr : frame R) l g :
  fst (loss fr) = Ok (l, g) ->
  exists bp dW_proj db_proj,
    fst (loss_backprop fr) = Ok bp /\
    g = <["b_vocab" := Some (bp_db_vocab bp)]>
        (<["W_vocab" := Some (bp_dW_vocab bp)]>
        (<["b" := Some (bp_db bp)]>
        (<["Wh" := Some (bp_dWh bp)]>
        (<["Wx" := Some (bp_dWx bp)]>
        (<["W_embed" := Some (bp_dW_embed bp)]>
        (<["b_proj" := Some db_proj]>
        (<["W_proj" := Some dW_proj]> (bp_grads bp)))))))).
Proof.
  unfold loss. unfold_m.
  destruct (loss_backprop fr) as [[bp|c msg] fr'] eqn:Ebp;
    cbn [fst]; [|discriminate].
  loss_cases; intros E; try discriminate;
    injection E as <- <-; eexists _, _, _; (split; reflexivity).
Qed.

(** X9: whenever [loss] returns, its gradient dictionary has exactly the
    keys of the parameter dictionary, which include the eight parameter
    names; under each of the eight names there is an array, and under any
    other key of the parameters the value is None. *)
Theorem loss_grads_follow_param_keys (fr : frame R) l g :
  fst (loss fr) = Ok (l, g) ->
  dom g = dom (params (self_ fr)) /\
  param_keys ⊆ dom g /\
  (forall k, k ∈ param_keys -> exists a, g !! k = Some (Some a)) /\
  (forall k, k ∈ dom (params (self_ fr)) -> k ∉ param_keys ->
     g !! k = Some None).
Proof.
  intros Hl.
  destruct (loss_result fr l g Hl) as (bp & dW & db & Ebp & ->).
  destruct (loss_backprop_grads fr bp Ebp) as [Hg Hsub].
  assert (Hdom : dom (<["b_vocab" := Some (bp_db_vocab bp)]>
        (<["W_vocab" := Some (bp_dW_vocab bp)]>
        (<["b" := Some (bp_db bp)]>
        (<["Wh" := Some (bp_dWh bp)]>
        (<["Wx" := Some (bp_dWx bp)]>
        (<["W_embed" := Some (bp_dW_embed bp)]>
        (<["b_proj" := Some db]>
        (<["W_proj" := Some dW]> (bp_grads bp)))))))))
        = dom (params (self_ fr))).
  { rewrite !dom_insert_L, Hg, dom_fmap_L. apply absorb_keys, Hsub. }
  split; [exact Hdom|]. split; [rewrite Hdom; exact Hsub|]. split.
  - intros k Hk. unfold param_keys in Hk.
    rewrite !elem_of_union, !elem_of_singleton in Hk.
    destruct Hk as [[[[[[[-> | ->] | ->] | ->] | ->] | ->] | ->] | ->];
      simplify_map_eq; eexists; reflexivity.
  - intros k Hk Hn. unfold param_keys in Hn.
    rewrite !elem_of_union, !elem_of_singleton in Hn.
    apply elem_of_dom in Hk as [a Ha].
    rewrite !lookup_insert_ne by (intros E; apply Hn; rewrite <- E; naive_solver).
    rewrite Hg, lookup_fmap, Ha. reflexivity.
Qed.

End GradientDictionary.

Section Views.
Context {R : Type} `{Scalar R}.

Lemma view_only_ret {A} (a : A) : view_only (mret a : M R A).
Proof. intros fr1 fr2 Hv. split; [reflexivity|exact Hv]. Qed.

Lemma view_only_lift {A} (r : res A) : view_only (lift r : M R A).
Proof. intros fr1 fr2 Hv. split; [reflexivity|exact Hv]. Qed.

Lemma view_only_read {A} (f : frame R -> A) :
  (forall fr1 fr2, same_view fr1 fr2 -> f fr1 = f fr2) -> view_only (read f).
Proof.
  intros Hf fr1 fr2 Hv. split; [cbn; f_equal; apply Hf, Hv|exact Hv].
Qed.

Lemma view_only_read_param k : view_only (read_param k : M R (ndarray R)).
Proof.
  intros fr1 fr2 Hv. split; [|exact Hv]. cbn. unfold param.
  destruct Hv as (-> & _). reflexivity.
Qed.

Lemma view_only_bind {A B} (x : M R A) (k : A -> M R B) :
  view_only x -> (forall a, view_only (k a)) -> view_only (x ≫= k).
Proof.
  intros Hx Hk fr1 fr2 Hv. unfold mbind, M_bind, m_bind.
  destruct (Hx fr1 fr2 Hv) as [E Hv'].
  destruct (x fr1) as [[a|c msg] fr1'], (x fr2) as [[a'|c' msg'] fr2'];
    cbn in E, Hv'; try discriminate.
  - injection E as <-. apply Hk, Hv'.
  - injection E as <- <-. split; [reflexivity|exact Hv'].
Qed.
End Views.

Create HintDb view.
#[global] Hint Resolve view_only_ret view_only_lift view_only_read_param
  : view.
#[global] Hint Extern 1 (view_only (read _)) =>
  apply view_only_read; intros ? ? (? & ? & ? & ? & ?); cbn; congruence
  : view.

Ltac view_step :=
  first
    [ apply view_only_bind; [| intros ? ]
    | match goal with
      | |- view_only (match ?x with _ => _ end) => destruct x
      | |- view_only (if ?c then _ else _) => destruct c
      end
    | solve [ auto with view ] ].

Section LossView.
Context {R : Type} `{Scalar R}.

Lemma loss_backprop_view_only : view_only (loss_backprop (R := R)).
Proof. unfold loss_backprop. repeat view_step. Qed.

Lemma loss_view_only : view_only (loss (R := R)).
Proof.
  unfold loss. apply view_only_bind; [apply loss_backprop_view_only|].
  intros bp. repeat view_step.
Qed.

(** X10: [loss] reads three attributes of its instance, the parameter
    dictionary, the NULL index and the cell type.  Instances that agree
    on these give the same result, whatever their START and END indices,
    vocabulary maps, dtype and recorded dimensions are. *)
Theorem loss_reads_three_attributes (m1 m2 : CaptioningRNN R)
    (features : ndarray R) (captions : ndarray Z) :
  params m1 = params m2 -> _null m1 = _null m2 ->
  cell_type m1 = cell_type m2 ->
  fst (loss (Frame m1 features captions)) =
  fst (loss (Frame m2 features captions)).
Proof.
  intros Hp Hn Hc. apply loss_view_only. repeat split; assumption.
Qed.
End LossView.

(** * Further properties of [sample] *)

Lemma ravel_nth_indices s :
  forall k, k < size_of s -> ravel s (nth k (indices s) []) = k.
Proof.
  induction s as [|n s IH]; intros k Hk.
  - cbn in Hk. assert (k = 0) as -> by lia. reflexivity.
  - cbn [size_of fold_right] in Hk. fold (size_of s) in Hk.
    assert (Hp : size_of s <> 0) by (intros E; rewrite E in Hk; lia).
    pose proof (Nat.div_mod_eq k (size_of s)) as Hdm.
    pose proof (Nat.mod_upper_bound k (size_of s) Hp) as Hr.
    assert (Hq : k / size_of s < n).
    { apply Nat.Div0.div_lt_upper_bound. lia. }
    cbn [indices].
    replace k with (k / size_of s * size_of s + k mod size_of s) at 1 by lia.
    rewrite (nth_flat_map_block _ (size_of s) [] _ _ _ 0);
      [|intros x; rewrite length_map; apply length_indices
       |rewrite length_seq; exact Hq|exact Hr].
    rewrite seq_nth by exact Hq. cbn [Nat.add].
    rewrite (nth_indep _ [] (k / size_of s :: [])) by
      (rewrite length_map, length_indices; exact Hr).
    rewrite (map_nth (cons (k / size_of s)) (indices s) []).
    cbn [ravel]. rewrite (IH _ Hr). lia.
Qed.

Section Extensionality.
Context {A : Type} `{Inhabited A}.

(** Two arrays of one shape whose buffers fit it are equal when their
    cells are. *)
Lemma array_ext (a b : ndarray A) :
  wf a -> wf b -> shape a = shape b ->
  (forall idx, in_range (shape a) idx -> get a idx = get b idx) -> a = b.
Proof.
  destruct a as [s da], b as [s' db]. unfold wf. cbn [shape data].
  intros Ha Hb <- Hget. f_equal.
  apply (nth_ext _ _ inhabitant inhabitant); [congruence|].
  intros k Hk. rewrite Ha in Hk.
  assert (Hr : in_range s (nth k (indices s) [])).
  { apply indices_in_range, nth_In. rewrite length_indices. exact Hk. }
  specialize (Hget _ Hr). unfold get in Hget. cbn [shape data] in Hget.
  rewrite (ravel_nth_indices s k Hk) in Hget. exact Hget.
Qed.

Lemma set_col_wf {B} `{Inhabited B} (cast : B -> A) a t (v : ndarray B) c :
  Np.set_col cast a t v = Ok c -> wf c.
Proof.
  unfold Np.set_col. repeat case_match; intros E; try discriminate.
  injection E as <-. apply wf_mk.
Qed.
End Extensionality.

Section SampleFacts.
Context {R : Type} `{Scalar R}.
Import Layers.

Lemma sample_loop_wf (We Wx Wh b Wv bv : ndarray R) ts :
  forall captions capt h c,
    sample_loop We Wx Wh b Wv bv ts captions capt h = Ok c ->
    wf captions -> wf c.
Proof.
  induction ts as [|t ts IH]; intros captions capt h c E Hwf;
    cbn [sample_loop] in E.
  - injection E as <-. exact Hwf.
  - destruct (sample_step We Wx Wh b Wv bv capt h) as [[[nh sc] ow]|];
      [|discriminate]. cbn [mbind res_bind rbind] in E.
    destruct (Np.set_col int32 captions t ow) as [c1|] eqn:E1; [|discriminate].
    cbn [mbind res_bind rbind] in E.
    destruct (Np.get_col c1 t) as [capt'|]; [|discriminate].
    cbn [mbind res_bind rbind] in E.
    apply (IH _ _ _ _ E). apply (set_col_wf _ _ _ _ _ E1).
Qed.

Lemma sample_wf (self : CaptioningRNN R) features l c :
  sample self features l = Ok c -> wf c.
Proof.
  unfold sample. intros E.
  repeat match type of E with
  | context [mbind _ ?e] =>
      lazymatch e with
      | Np.set_col _ _ _ _ => fail
      | _ => destruct e as [?|? ?] eqn:?
      end; cbn [mbind res_bind rbind] in E; try discriminate
  | context [match ?p with (_, _) => _ end] => destruct p
  end.
  destruct (Np.set_col _ _ _ _) as [c1|] eqn:E1; [|discriminate].
  cbn [mbind res_bind rbind] in E.
  repeat match type of E with
  | context [mbind _ ?e] =>
      destruct e as [?|? ?] eqn:?; cbn [mbind res_bind rbind] in E;
      try discriminate
  end.
  apply (sample_loop_wf _ _ _ _ _ _ _ _ _ _ _ E).
  apply (set_col_wf _ _ _ _ _ E1).
Qed.

Lemma sample_zero_length_raises (self : CaptioningRNN R) features c :
  sample self features 0 <> Ok c.
Proof.
  unfold sample.
  repeat match goal with
  | |- context [mbind _ ?e] =>
      lazymatch e with
      | Np.set_col _ _ _ _ => fail
      | _ => destruct e as [?|? ?] eqn:?
      end; cbn [mbind res_bind rbind]
  | |- context [match ?p with (_, _) => _ end] => destruct p
  end; discriminate.
Qed.

Lemma greedy_scores_prefix (We Wx Wh b Wv bv : ndarray R) n v k m :
  forall capt h l2,
    greedy_scores We Wx Wh b Wv bv n v (k + m) capt h = Ok l2 ->
    greedy_scores We Wx Wh b Wv bv n v k capt h = Ok (take k l2).
Proof.
  induction k as [|k IH]; intros capt h l2 E; [reflexivity|].
  cbn [Nat.add greedy_scores] in E |- *.
  destruct (sample_step We Wx Wh b Wv bv capt h) as [[[nh sc] ow]|];
    [|discriminate]. cbn [mbind res_bind rbind] in E |- *.
  destruct (greedy_scores We Wx Wh b Wv bv n v (k + m) _ nh) as [rest|] eqn:Er;
    [|discriminate]. cbn [mbind res_bind rbind] in E. injection E as <-.
  rewrite (IH _ _ _ Er). reflexivity.
Qed.

Lemma greedy_decode_prefix (self : CaptioningRNN R) features k m l2 :
  greedy_decode self features (k + m) = Ok l2 ->
  greedy_decode self features k = Ok (take k l2).
Proof.
  unfold greedy_decode. intros E.
  repeat match type of E with
  | context [mbind _ ?e] =>
      destruct e as [?|? ?] eqn:?; cbn [mbind res_bind rbind] in E |- *;
      try discriminate
  end.
  apply greedy_scores_prefix with (m := m). exact E.
Qed.

(** X12: greedy decoding is stable under extension.  On a well-formed
    call, asking for more columns leaves the earlier ones as they are: the
    first l1 columns of [sample(features, l2)] are those of
    [sample(features, l1)] for 1 <= l1 <= l2. *)
Theorem sample_prefix_stable (self : CaptioningRNN R) (features : ndarray R)
    (D W n l1 l2 : nat) :
  sample_ready self D W features n -> 1 <= l1 -> l1 <= l2 ->
  exists c1 c2,
    sample self features l1 = Ok c1 /\ sample self features l2 = Ok c2 /\
    shape c1 = [n; l1] /\ shape c2 = [n; l2] /\
    forall i j, i < n -> j < l1 -> get c1 [i; j] = get c2 [i; j].
Proof.
  intros Hready H1 H12.
  destruct (sample_ok self features D W n l1 Hready H1)
    as (_ & _ & _ & _ & _ & _ & _ & _ & _ & _ & _ & _ & sa & _ & ra & c1
        & _ & _ & _ & _ & _ & _ & _ & _ & _ & _ & _
        & _ & Eg1 & Hlen1 & Es1 & Sc1 & Hcells1).
  destruct (sample_ok self features D W n l2 Hready ltac:(lia))
    as (_ & _ & _ & _ & _ & _ & _ & _ & _ & _ & _ & _ & sb & _ & rb & c2
        & _ & _ & _ & _ & _ & _ & _ & _ & _ & _ & _
        & _ & Eg2 & Hlen2 & Es2 & Sc2 & Hcells2).
  exists c1, c2. repeat (split; [assumption|]).
  intros i j Hi Hj.
  replace l2 with (l1 + (l2 - l1)) in Eg2 by lia.
  apply greedy_decode_prefix in Eg2. rewrite Eg1 in Eg2. injection Eg2 as Eq.
  destruct (lookup_lt_is_Some_2 (sa :: ra) j ltac:(lia)) as [score Hscore].
  rewrite (Hcells1 i j score Hi Hscore).
  symmetry. apply Hcells2; [exact Hi|].
  rewrite Eq in Hscore. rewrite lookup_take_lt in Hscore by lia. exact Hscore.
Qed.

Lemma sample_reads (m1 m2 : CaptioningRNN R) features l :
  params m1 = params m2 -> _null m1 = _null m2 -> _start m1 = _start m2 ->
  sample m1 features l = sample m2 features l.
Proof.
  destruct m1 as [c1 d1 w1 i1 p1 v1 h1 n1 s1 e1].
  destruct m2 as [c2 d2 w2 i2 p2 v2 h2 n2 s2 e2].
  cbn [params _null _start]. intros -> -> ->. reflexivity.
Qed.

(** X13: what [sample] returns on a well-formed call is fixed by the
    parameters and the START index alone.  An instance with the same
    parameters and START gives the same captions whatever its NULL index
    (an int32 value, as the cells it fills are), END index, cell type,
    dtype, vocabulary maps and recorded dimensions are: no cell of the
    result keeps the NULL the array was filled with. *)
Theorem sample_depends_on_params_and_start (m1 m2 : CaptioningRNN R)
    (features : ndarray R) (D W n max_length : nat) :
  sample_ready m1 D W features n -> 1 <= max_length ->
  (- 2 ^ 31 <= _null m1 < 2 ^ 31)%Z -> (- 2 ^ 31 <= _null m2 < 2 ^ 31)%Z ->
  params m2 = params m1 -> _start m2 = _start m1 ->
  sample m2 features max_length = sample m1 features max_length.
Proof.
  intros Hready Hl _ _ Hp Hs.
  set (m := Model (cell_type m1) (dtype_ m1) (word_to_idx m1) (idx_to_word m1)
              (params m1) (vocab_size m1) (hidden_dim m1) (_null m2)
              (_start m1) (_end m1)).
  rewrite (sample_reads m2 m features max_length Hp eq_refl Hs).
  assert (Hready' : sample_ready m D W features n).
  { destruct Hready as [Hws Hv32 Hst Hf Hn Hsq].
    constructor; try assumption. destruct Hws. constructor; assumption. }
  destruct (sample_ok m1 features D W n max_length Hready Hl)
    as (_ & _ & _ & _ & _ & _ & _ & _ & _ & _ & _ & _ & sa & _ & ra & c1
        & _ & _ & _ & _ & _ & _ & _ & _ & _ & _ & _
        & _ & Eg1 & Hlen1 & Es1 & Sc1 & Hcells1).
  destruct (sample_ok m features D W n max_length Hready' Hl)
    as (_ & _ & _ & _ & _ & _ & _ & _ & _ & _ & _ & _ & sb & _ & rb & c2
        & _ & _ & _ & _ & _ & _ & _ & _ & _ & _ & _
        & _ & Eg2 & Hlen2 & Es2 & Sc2 & Hcells2).
  rewrite Es1, Es2. f_equal.
  change (greedy_decode m features max_length)
    with (greedy_decode m1 features max_length) in Eg2.
  rewrite Eg1 in Eg2. injection Eg2 as <- <-.
  apply array_ext.
  - apply (sample_wf _ _ _ _ Es2).
  - apply (sample_wf _ _ _ _ Es1).
  - congruence.
  - intros idx Hr. rewrite Sc2 in Hr.
    apply in_range_2_inv in Hr as (i & j & -> & Hi & Hj).
    destruct (lookup_lt_is_Some_2 (sa :: ra) j ltac:(lia)) as [score Hscore].
    rewrite (Hcells1 i j score Hi Hscore).
    apply (Hcells2 i j score Hi Hscore).
Qed.

(** X14: the calls of [sample] that return.  On a well-formed model with
    a START index and features of shape (N, D), the call returns exactly
    when the batch has a row (N >= 1), at least one column is asked for
    (max_length >= 1) and the word vectors are not of dimension 1 unless
    the batch is a single row. *)
Theorem sample_returns_iff (self : CaptioningRNN R) (features : ndarray R)
    (D W n max_length : nat) (s : Z) :
  well_shaped self D W -> (Z.of_nat (vocab_size self) <= 2 ^ 31)%Z ->
  _start self = Some s -> (0 <= s < Z.of_nat (vocab_size self))%Z ->
  shape features = [n; D] ->
  is_ok (sample self features max_length) = true <->
  1 <= n /\ (W ≠ 1 \/ n = 1) /\ 1 <= max_length.
Proof.
  intros Hws Hv32 Hs Hsr Hf. split.
  - intros Hok.
    destruct (Nat.eq_dec max_length 0) as [->|Hl].
    { destruct (sample self features 0) as [c|] eqn:E; [|discriminate].
      exfalso. exact (sample_zero_length_raises self features c E). }
    destruct (decide (W = 1)) as [->|HW].
    + destruct (Nat.eq_dec n 1) as [->|Hn].
      * repeat split; [lia|right; reflexivity|lia].
      * rewrite (sample_narrow_word_vectors self features D n max_length s
                   Hws Hs Hsr Hv32 Hf Hn) in Hok. discriminate.
    + destruct n as [|n].
      * rewrite (sample_empty_batch self features D W max_length s
                   Hws Hv32 Hs Hsr Hf HW ltac:(lia)) in Hok. discriminate.
      * repeat split; [lia|left; exact HW|lia].
  - intros (Hn & Hsq & Hl).
    assert (Hready : sample_ready self D W features n).
    { constructor; try assumption. exists s. split; assumption. }
    destruct (sample_ok self features D W n max_length Hready Hl)
      as (_ & _ & _ & _ & _ & _ & _ & _ & _ & _ & _ & _ & _ & _ & _ & c
          & _ & _ & _ & _ & _ & _ & _ & _ & _ & _ & _
          & _ & _ & _ & Es & _).
    rewrite Es. reflexivity.
Qed.
End SampleFacts.

(** * Instances of the further properties *)

Lemma init_needs_null_token_witness :
  __init__ Variants.vocab_no_null 4 4 4 "rnn" float32 Example.gen =
  (Raise KeyError "<NULL>", Example.gen).
Proof.
  apply init_needs_null_token; [left; reflexivity|reflexivity].
Defined.

Lemma init_allocates_parameters_witness :
  exists m g',
    __init__ Example.vocab 5 3 2 "lstm" float32 Example.gen = (Ok m, g') /\
    cell_type m = "lstm" /\ vocab_size m = 4 /\ hidden_dim m = 2 /\
    _null m = 0%Z /\ _start m = Some 1%Z /\ _end m = Some 2%Z /\
    dom (params m) = param_keys /\
    has_shape (params m) "W_proj" [5; 2] /\
    has_shape (params m) "Wx" [3; 8] /\
    has_shape (params m) "Wh" [2; 8] /\
    has_shape (params m) "b" [8].
Proof.
  destruct (init_allocates_parameters Example.vocab 5 3 2 "lstm" float32
              Example.gen 0%Z)
    as (m & g' & E & Hc & _ & _ & Hv & _ & Hh & Hn & Hs & He & Hd & _ & Hp
        & _ & Hx & Hw & Hb & _).
  - right. reflexivity.
  - reflexivity.
  - exists m, g'. repeat split; assumption.
Defined.


Lemma init_initial_values_witness :
  exists m W_embed b,
    fst (__init__ Example.vocab 5 3 2 "lstm" float32 Example.gen) = Ok m /\
    params m !! "W_embed" = Some W_embed /\
    params m !! "b" = Some b /\
    (forall i j, i < 4 -> j < 3 ->
       @get Z scalar_inhabited W_embed [i; j] =
       (rng_draws Example.gen (i * 3 + j) / 100)%Z) /\
    (forall j, j < 8 -> @get Z scalar_inhabited b [j] = 0%Z).
Proof.
  destruct (init_initial_values Example.vocab 5 3 2 "lstm" float32
              Example.gen 0%Z)
    as (m & We & bp & b & bv & E & LWe & _ & Lb & _ & HWe & _ & Hb & _).
  - right. reflexivity.
  - reflexivity.
  - exists m, We, b. repeat split; assumption.
Defined.

Lemma init_idx_to_word_inverts_witness :
  idx_to_word Example.model !! 3%Z = Some "dog" <->
  word_to_idx Example.model !! "dog" = Some 3%Z.
Proof.
  apply (init_idx_to_word_inverts Example.vocab 4 4 4 "rnn" float32
           Example.gen Example.model).
  - apply distinct_indices_check. apply (bool_decide_unpack _). vm_compute.
    exact I.
  - vm_compute. reflexivity.
Defined.

Lemma loss_needs_caption_columns_witness :
  fst (loss (Frame Example.model Example.features Variants.flat_captions)) =
  Raise IndexError "too many indices for array".
Proof. apply loss_needs_caption_columns. cbn. lia. Defined.

Lemma missing_parameter_raises_key_error_witness :
  fst (loss (Frame Variants.model_without_Wh Example.features
               Example.captions)) = Raise KeyError "Wh" /\
  sample Variants.model_without_Wh Example.features 3 = Raise KeyError "Wh".
Proof.
  destruct (missing_parameter_raises_key_error Variants.model_without_Wh
              Example.features Example.captions 3 "Wh") as [Hl Hs].
  - vm_compute. reflexivity.
  - split; [apply Hl; cbn; lia|apply Hs; cbn; lia].
Defined.

Lemma feature_dimension_mismatch_witness :
  fst (loss (Frame Example.model Variants.short_features Example.captions)) =
    Raise ValueError "shapes not aligned" /\
  sample Example.model Variants.short_features 3 =
    Raise ValueError "shapes not aligned".
Proof.
  destruct (feature_dimension_mismatch Example.model Variants.short_features
              Example.captions 4 4 2 3 3) as [Hl Hs].
  - well_shaped_by_evaluation.
  - reflexivity.
  - lia.
  - split; [apply Hl; cbn; lia|exact Hs].
Defined.

Lemma loss_grads_follow_param_keys_witness :
  exists l g,
    fst (loss (Frame Variants.model_with_scale Example.features
                 Example.captions)) = Ok (l, g) /\
    dom g = dom (params Variants.model_with_scale) /\
    (exists a, g !! "Wh" = Some (Some a)) /\
    g !! "scale" = Some None.
Proof.
  assert (E : exists l g,
            fst (loss (Frame Variants.model_with_scale Example.features
                         Example.captions)) = Ok (l, g))
    by (vm_compute; eexists _, _; reflexivity).
  destruct E as (l & g & E). exists l, g. split; [exact E|].
  destruct (loss_grads_follow_param_keys _ l g E) as (Hd & _ & Ha & Hn).
  split; [exact Hd|]. split.
  - apply Ha. vm_compute. reflexivity.
  - apply Hn; vm_compute; [reflexivity|discriminate].
Defined.

Lemma loss_reads_three_attributes_witness :
  fst (loss (Frame Variants.model_for_loss Example.features
               Example.captions)) =
  fst (loss (Frame Example.model Example.features Example.captions)).
Proof. apply loss_reads_three_attributes; reflexivity. Defined.

Lemma sample_needs_start_token_witness :
  sample Variants.model_no_start Example.features 3 =
  Raise TypeError "unsupported operand type(s) for *".
Proof.
  apply (sample_needs_start_token Variants.model_no_start Example.features
           4 4 2 3).
  - well_shaped_by_evaluation.
  - vm_compute. reflexivity.
  - reflexivity.
  - lia.
Defined.

Lemma sample_prefix_stable_witness :
  exists c1 c2,
    sample Example.model Example.features 2 = Ok c1 /\
    sample Example.model Example.features 3 = Ok c2 /\
    shape c1 = [2; 2] /\ shape c2 = [2; 3] /\
    forall i j, i < 2 -> j < 2 -> get c1 [i; j] = get c2 [i; j].
Proof.
  apply (sample_prefix_stable Example.model Example.features 4 4 2 2 3).
  - sample_ready_by_evaluation.
  - lia.
  - lia.
Defined.

Lemma sample_depends_on_params_and_start_witness :
  sample Variants.model_for_sample Example.features 3 =
  sample Example.model Example.features 3.
Proof.
  apply (sample_depends_on_params_and_start Example.model
           Variants.model_for_sample Example.features 4 4 2 3).
  - sample_ready_by_evaluation.
  - lia.
  - split; [vm_compute; discriminate|vm_compute; reflexivity].
  - split; [vm_compute; discriminate|vm_compute; reflexivity].
  - reflexivity.
  - reflexivity.
Defined.

Lemma sample_returns_iff_witness :
  is_ok (sample Example.model Example.features 3) = true <->
  1 <= 2 /\ (4 ≠ 1 \/ 2 = 1) /\ 1 <= 3.
Proof.
  apply (sample_returns_iff Example.model Example.features 4 4 2 3 1%Z).
  - well_shaped_by_evaluation.
  - vm_compute. discriminate.
  - vm_compute. reflexivity.
  - vm_compute. split; [discriminate|reflexivity].
  - reflexivity.
Defined.
